(** * ZmqService: the subscription registry, connection manager and
      message router of [ServiceApp/server/src/services/zmqService.ts]

    The class [ZmqService] is embedded as pure functions over a record
    holding its three private fields.  Every method returns its
    completion (a value or a thrown error), the service after the call
    and the calls it made on the zeromq socket, in program order; the
    message handler returns its completion and the calls it made on
    subscriber callbacks. *)

From Stdlib Require Import List String Ascii ZArith NArith Arith Bool Lia.
Import ListNotations.

Local Open Scope string_scope.
Local Open Scope list_scope.

(** ** JavaScript values used by the service *)

Module Js.

(** A thrown value.  [Error msg] is [new Error(msg)]; [TypeError] is
    what the engine raises for a property read on [undefined] or a
    call of a non-function. *)
Inductive JsError : Type :=
| TypeError
| Error (message : string).

Inductive Completion (A : Type) : Type :=
| Returns (a : A)
| Throws (e : JsError).
Arguments Returns {A} a.
Arguments Throws {A} e.

(** *** Strings

    A JavaScript string is held as its UTF-8 encoding, one [ascii] per
    byte, which is also how a string literal of this file is read.
    The service compares strings, splits them on a space and tests
    prefixes, which on well-formed strings are the same operations on
    the bytes; only the white space that [parseInt] skips needs code
    points of more than one byte.  [utf8 cp] is the encoding of a code
    point below U+10000. *)
Definition utf8 (cp : N) : string :=
  if (cp <? 128)%N then String (ascii_of_N cp) EmptyString
  else if (cp <? 2048)%N then
    String (ascii_of_N (192 + cp / 64))
      (String (ascii_of_N (128 + cp mod 64)) EmptyString)
  else
    String (ascii_of_N (224 + cp / 4096))
      (String (ascii_of_N (128 + (cp / 64) mod 64))
         (String (ascii_of_N (128 + cp mod 64)) EmptyString)).

(** A possibly-[undefined] string is an [option string]; [to_string]
    is the conversion applied when such a value is used as a string
    (a property key, the argument of [parseInt]). *)
Definition to_string (v : option string) : string :=
  match v with
  | Some s => s
  | None => "undefined"
  end.

(** [v === s] for a string [s]. *)
Definition strict_eq (v : option string) (s : string) : bool :=
  match v with
  | Some x => String.eqb x s
  | None => false
  end.

(** [arr[i]] on an array of strings. *)
Definition index (arr : list string) (i : nat) : option string :=
  nth_error arr i.

(** [s.split(sep)] for a one-character separator: never empty, and
    adjacent separators give empty fields. *)
Fixpoint split (sep : ascii) (s : string) : list string :=
  match s with
  | EmptyString => [EmptyString]
  | String c rest =>
      if Ascii.eqb c sep then EmptyString :: split sep rest
      else match split sep rest with
           | h :: t => String c h :: t
           | [] => [String c EmptyString]
           end
  end.

(** *** Numbers

    What [parseInt] can return: [NaN], an integer that a double holds
    exactly, the negative zero, or an infinity. *)
Inductive Number : Type :=
| NaN
| Int (z : Z)
| NegativeZero
| Infinity (negative : bool).

(** The double nearest to the integer [z >= 1], a tie going to the even
    significand; [None] when the rounded value is beyond the largest
    double, which reads as an infinity.  A double keeps 53 significant
    bits: [e] is the number of low bits of [z] that do not fit, [q] the
    bits kept and [r] the bits dropped. *)
Definition nearest_double (z : Z) : option Z :=
  let e := (Z.log2 z - 52)%Z in
  if (e <=? 0)%Z then Some z
  else
    let q := Z.shiftr z e in
    let r := Z.land z (Z.ones e) in
    let half := Z.shiftl 1 (e - 1) in
    let q' := if (half <? r)%Z || ((r =? half)%Z && Z.odd q)
              then (q + 1)%Z else q in
    let v := Z.shiftl q' e in
    if (Z.log2 v <? 1024)%Z then Some v else None.

(** The number for a sign and the integer a digit run denotes, [None]
    when there is no digit. *)
Definition to_number (negative : bool) (mathInt : option Z) : Number :=
  match mathInt with
  | None => NaN
  | Some Z0 => if negative then NegativeZero else Int 0
  | Some z =>
      match nearest_double z with
      | Some v => Int (if negative then - v else v)
      | None => Infinity negative
      end
  end.

(** *** parseInt

    [parseInt(s, 10)]: leading white space is skipped, one sign is
    accepted, then the longest run of decimal digits is read and what
    follows is ignored; the result is the double nearest to the integer
    the digits denote, and [NaN] when there is no digit.  (ECMAScript
    lets an implementation replace the digits after the 20th by zeros
    before rounding; V8, the engine of Node, rounds the exact value.)

    White space is the ECMAScript set of white space and line
    terminators: in one byte TAB, LF, VT, FF, CR and SP; in two bytes
    U+00A0; in three bytes U+1680, U+2000 to U+200A, U+2028, U+2029,
    U+202F, U+205F, U+3000 and U+FEFF. *)
Definition is_white_space (c : ascii) : bool :=
  let n := nat_of_ascii c in
  Nat.eqb n 32 || (Nat.leb 9 n && Nat.leb n 13).

Definition is_white_space2 (c1 c2 : ascii) : bool :=
  Nat.eqb (nat_of_ascii c1) 194 && Nat.eqb (nat_of_ascii c2) 160.

Definition is_white_space3 (c1 c2 c3 : ascii) : bool :=
  let n1 := nat_of_ascii c1 in
  let n2 := nat_of_ascii c2 in
  let n3 := nat_of_ascii c3 in
  (Nat.eqb n1 225 && Nat.eqb n2 154 && Nat.eqb n3 128)
  || (Nat.eqb n1 226 && Nat.eqb n2 128
      && ((Nat.leb 128 n3 && Nat.leb n3 138)
          || Nat.eqb n3 168 || Nat.eqb n3 169 || Nat.eqb n3 175))
  || (Nat.eqb n1 226 && Nat.eqb n2 129 && Nat.eqb n3 159)
  || (Nat.eqb n1 227 && Nat.eqb n2 128 && Nat.eqb n3 128)
  || (Nat.eqb n1 239 && Nat.eqb n2 187 && Nat.eqb n3 191).

Fixpoint trim_start (s : string) : string :=
  match s with
  | String c1 s1 =>
      if is_white_space c1 then trim_start s1
      else
        match s1 with
        | String c2 s2 =>
            if is_white_space2 c1 c2 then trim_start s2
            else
              match s2 with
              | String c3 s3 =>
                  if is_white_space3 c1 c2 c3 then trim_start s3 else s
              | EmptyString => s
              end
        | EmptyString => s
        end
  | EmptyString => s
  end.

Definition digit (c : ascii) : option Z :=
  let n := nat_of_ascii c in
  if Nat.leb 48 n && Nat.leb n 57 then Some (Z.of_nat (n - 48)) else None.

(** The integer denoted by the longest run of digits [s] starts with,
    after the digits already read into [acc]; [None] when no digit was
    read.  This is the exact integer, of any size; [to_number] rounds
    it to the double that [parseInt] returns. *)
Fixpoint digits (s : string) (acc : option Z) : option Z :=
  match s with
  | String c rest =>
      match digit c with
      | Some d =>
          digits rest (Some (10 * match acc with Some a => a | None => 0 end + d)%Z)
      | None => acc
      end
  | EmptyString => acc
  end.

Definition parseInt10 (s : string) : Number :=
  match trim_start s with
  | String "-"%char rest => to_number true (digits rest None)
  | String "+"%char rest => to_number false (digits rest None)
  | t => to_number false (digits t None)
  end.

Definition parseInt (v : option string) : Number :=
  parseInt10 (to_string v).

(** *** Plain objects used as maps

    The own properties of an object, in the order [Object.keys] lists
    them: array-index keys first, ascending, then the other keys in
    creation order. *)
Definition Obj (V : Type) : Type := list (string * V).

Fixpoint all_digits (s : string) : bool :=
  match s with
  | EmptyString => true
  | String c rest =>
      match digit c with
      | Some _ => all_digits rest
      | None => false
      end
  end.

Definition array_index (k : string) : option N :=
  match k with
  | EmptyString => None
  | String c rest =>
      if all_digits k && (negb (Ascii.eqb c "0"%char) || String.eqb rest "")
      then match digits k None with
           | Some z => if (z <? 4294967295)%Z then Some (Z.to_N z) else None
           | None => None
           end
      else None
  end.

(** [key_before k k'] holds when a new key [k] is listed before the
    existing key [k']. *)
Definition key_before (k k' : string) : bool :=
  match array_index k, array_index k' with
  | Some n, Some n' => (n <? n')%N
  | Some _, None => true
  | None, _ => false
  end.

Section Objects.
Context {V : Type}.

Definition keys (o : Obj V) : list string := map fst o.

Fixpoint own (o : Obj V) (k : string) : option V :=
  match o with
  | [] => None
  | (k', v) :: rest => if String.eqb k' k then Some v else own rest k
  end.

Fixpoint replace (o : Obj V) (k : string) (v : V) : Obj V :=
  match o with
  | [] => []
  | (k', v') :: rest =>
      if String.eqb k' k then (k', v) :: rest
      else (k', v') :: replace rest k v
  end.

Fixpoint insert (o : Obj V) (k : string) (v : V) : Obj V :=
  match o with
  | [] => [(k, v)]
  | (k', v') :: rest =>
      if key_before k k' then (k, v) :: o
      else (k', v') :: insert rest k v
  end.

(** [o[k] = v] *)
Definition set (o : Obj V) (k : string) (v : V) : Obj V :=
  match own o k with
  | Some _ => replace o k v
  | None => insert o k v
  end.

(** [delete o[k]] *)
Definition delete (o : Obj V) (k : string) : Obj V :=
  filter (fun kv => negb (String.eqb (fst kv) k)) o.
End Objects.

(** The properties every [{}] inherits from [Object.prototype]; each
    reads as a truthy value that has no [push] method. *)
Definition prototype_keys : list string :=
  [ "constructor"; "__defineGetter__"; "__defineSetter__";
    "hasOwnProperty"; "__lookupGetter__"; "__lookupSetter__";
    "isPrototypeOf"; "propertyIsEnumerable"; "toString"; "valueOf";
    "__proto__"; "toLocaleString" ].

Definition inherited (k : string) : bool :=
  existsb (String.eqb k) prototype_keys.

(** The result of reading [o[k]]. *)
Inductive Lookup (V : Type) : Type :=
| Own (v : V)
| Inherited
| Undefined.
Arguments Own {V} v.
Arguments Inherited {V}.
Arguments Undefined {V}.

Definition get {V : Type} (o : Obj V) (k : string) : Lookup V :=
  match own o k with
  | Some v => Own v
  | None => if inherited k then Inherited else Undefined
  end.

End Js.

Import Js.

(** ** The service *)

(** [this._config] *)
Record Config : Type := mkConfig { endpoint : string; prefix : string }.

(** The handle returned by [zmq.socket('sub')]. *)
Inductive Socket : Type := SubSocket.

(** What the environment decides about one attempt to open the socket:
    [zmq.socket('sub')] and [socket.connect(endpoint)] both complete, or
    one of them throws a value that prints as [err].  The other socket
    calls ([on], [subscribe], [unsubscribe], [close]) complete.  A call
    that throws is not recorded among the calls made. *)
Inductive OpenOutcome : Type :=
| OpenOk
| SocketThrows (err : string)
| ConnectThrows (err : string).

Definition newline : string := String (ascii_of_nat 10) EmptyString.

(** Calls made on the zeromq module and on the socket it returns. *)
Inductive SocketCall : Type :=
| ZmqSocket (type : string)
| SocketConnect (endpoint : string)
| SocketOn (name : string)
| SocketSubscribe (topic : string)
| SocketUnsubscribe (topic : string)
| SocketClose.

Section Service.

(** [MessageType] is what [extractMessageType] returns for a known tag
    (a truthy value; [None] stands for a falsy result), [Payload] what
    [getPayload] returns, [Callback] the functions subscribers register.
    The two helpers are imported from [utils/eclassHelper] and
    [utils/iotaHelper]; the service is modelled for any such pair. *)
Context {MessageType Payload Callback : Type}.
Variable extractMessageType : string -> option MessageType.
Variable getPayload : option string -> Payload.

Record Subscription : Type := mkSubscription { id : string; callback : Callback }.

Record ZmqService : Type := mkService {
  _config : Config;
  _socket : option Socket;
  _subscriptions : Obj (list Subscription)
}.

(** [new ZmqService(config)] *)
Definition constructor (config : Config) : ZmqService :=
  mkService config None [].

Definition with_socket (this : ZmqService) (s : option Socket) : ZmqService :=
  mkService (_config this) s (_subscriptions this).

Definition with_subscriptions (this : ZmqService)
    (o : Obj (list Subscription)) : ZmqService :=
  mkService (_config this) (_socket this) o.

(** The object built by [buildPayload]. *)
Record EventPayload : Type := mkPayload {
  data : Payload;
  messageType : MessageType;
  tag : option string;
  hash : option string;
  address : option string;
  timestamp : Number
}.

(** The call a subscriber receives. *)
Inductive Invocation : Type :=
| CallbackCall (cb : Callback) (event : option string) (payload : EventPayload).

Definition Outcome (A : Type) : Type :=
  (Completion A * ZmqService * list SocketCall)%type.

(** *** connect / disconnect *)

Definition open_calls (this : ZmqService) : list SocketCall :=
  ZmqSocket "sub"
    :: SocketConnect (endpoint (_config this))
    :: SocketOn "message"
    :: map SocketSubscribe (keys (_subscriptions this)).

Definition unable_to_connect (err : string) : JsError :=
  Error ("Unable to connect to ZMQ." ++ newline ++ err)%string.

Definition connect (env : OpenOutcome) (this : ZmqService) : Outcome unit :=
  match _socket this with
  | Some _ => (Returns tt, this, [])
  | None =>
      let opened := with_socket this (Some SubSocket) in
      match env with
      | SocketThrows err => (Throws (unable_to_connect err), this, [])
      | ConnectThrows err =>
          (Throws (unable_to_connect err), opened, [ZmqSocket "sub"])
      | OpenOk => (Returns tt, opened, open_calls this)
      end
  end.

Definition disconnect (this : ZmqService) : ZmqService * list SocketCall :=
  match _socket this with
  | Some _ => (with_socket this None, [SocketClose])
  | None => (this, [])
  end.

(** *** internalAddEventCallback, subscribe, subscribeEvent

    [fresh] is the value [uuid()] returns in this call. *)
Definition internalAddEventCallback (env : OpenOutcome) (fresh : string)
    (this : ZmqService) (event : string) (cb : Callback) : Outcome string :=
  let '(this1, eff1) :=
    match get (_subscriptions this) event with
    | Undefined =>
        (with_subscriptions this (set (_subscriptions this) event []),
         match _socket this with
         | Some _ => [SocketSubscribe event]
         | None => []
         end)
    | _ => (this, [])
    end in
  match get (_subscriptions this1) event with
  | Own subs =>
      let this2 :=
        with_subscriptions this1
          (set (_subscriptions this1) event (subs ++ [mkSubscription fresh cb])) in
      let '(r, this3, eff2) := connect env this2 in
      (match r with
       | Returns _ => Returns fresh
       | Throws e => Throws e
       end, this3, eff1 ++ eff2)
  | _ => (Throws TypeError, this1, eff1)
  end.

Definition subscribe := internalAddEventCallback.
Definition subscribeEvent := internalAddEventCallback.

(** *** unsubscribe *)

(** The first [j] with [subs[j].id === subscriptionId]. *)
Fixpoint index_of (subscriptionId : string) (subs : list Subscription) : option nat :=
  match subs with
  | [] => None
  | s :: rest =>
      if String.eqb (id s) subscriptionId then Some 0
      else option_map S (index_of subscriptionId rest)
  end.

(** [subs.splice(j, 1)] *)
Definition splice1 (j : nat) (subs : list Subscription) : list Subscription :=
  firstn j subs ++ skipn (S j) subs.

(** The body run when [subs[j]] carries the id: lines 66 to 76. *)
Definition remove_at (this : ZmqService) (eventKey : string)
    (subs : list Subscription) (j : nat) : Outcome unit :=
  let subs' := splice1 j subs in
  let this1 :=
    with_subscriptions this (set (_subscriptions this) eventKey subs') in
  if Nat.eqb (List.length subs') 0 then
    match _socket this1 with
    | None => (Throws TypeError, this1, [])
    | Some _ =>
        let this2 :=
          with_subscriptions this1 (delete (_subscriptions this1) eventKey) in
        if Nat.eqb (List.length (keys (_subscriptions this2))) 0 then
          let '(this3, eff) := disconnect this2 in
          (Returns tt, this3, SocketUnsubscribe eventKey :: eff)
        else (Returns tt, this2, [SocketUnsubscribe eventKey])
    end
  else (Returns tt, this1, []).

Fixpoint unsubscribe_from (ks : list string) (this : ZmqService)
    (subscriptionId : string) : Outcome unit :=
  match ks with
  | [] => (Returns tt, this, [])
  | eventKey :: rest =>
      match own (_subscriptions this) eventKey with
      | None => (Throws TypeError, this, [])
      | Some subs =>
          match index_of subscriptionId subs with
          | None => unsubscribe_from rest this subscriptionId
          | Some j => remove_at this eventKey subs j
          end
      end
  end.

Definition unsubscribe (this : ZmqService) (subscriptionId : string) : Outcome unit :=
  unsubscribe_from (keys (_subscriptions this)) this subscriptionId.

(** *** buildPayload, sendEvent, handleMessage *)

Definition buildPayload (d : Payload) (mt : MessageType)
    (messageParams : list string) : EventPayload :=
  mkPayload d mt
    (index messageParams 12)
    (index messageParams 1)
    (index messageParams 2)
    (parseInt (index messageParams 5)).

Definition sendEvent (this : ZmqService) (d : Payload) (mt : MessageType)
    (messageParams : list string) : Completion unit * list Invocation :=
  let event := index messageParams 0 in
  let payload := buildPayload d mt messageParams in
  match get (_subscriptions this) (to_string event) with
  | Own (first :: _) => (Returns tt, [CallbackCall (callback first) event payload])
  | _ => (Throws TypeError, [])
  end.

(** [this._subscriptions[event]] is truthy. *)
Definition registered (this : ZmqService) (event : string) : bool :=
  match get (_subscriptions this) event with
  | Undefined => false
  | _ => true
  end.

(** [message] is the text of the received buffer.  When [tag] is
    [undefined] the body of the outer [if] throws a [TypeError], at
    [tag.startsWith] at the latest. *)
Definition handleMessage (this : ZmqService) (message : string)
    : Completion unit * list Invocation :=
  let messageParams := split " "%char message in
  let event := index messageParams 0 in
  let tag := index messageParams 12 in
  if strict_eq event "tx" && registered this (to_string event) then
    match tag with
    | None => (Throws TypeError, [])
    | Some t =>
        let mt := extractMessageType t in
        match String.prefix (prefix (_config this)) t, mt with
        | true, Some known =>
            let bundle := index messageParams 8 in
            let d := getPayload bundle in
            sendEvent this d known messageParams
        | _, _ => (Returns tt, [])
        end
    end
  else (Returns tt, []).

(** *** Sequences of calls

    A client calls the public methods one after the other; a call that
    throws leaves the service as it was at the throw and the client
    goes on.  [uuid_v4 n] is the value of the [n]-th call of [uuid()]
    since the service was constructed (each subscription makes exactly
    one), and [returned] collects the ids handed back to the client. *)
Variable uuid_v4 : nat -> string.

Inductive Call : Type :=
| CallSubscribe (event : string) (cb : Callback) (env : OpenOutcome)
| CallSubscribeEvent (event : string) (cb : Callback) (env : OpenOutcome)
| CallUnsubscribe (subscriptionId : string).

Record Run : Type := mkRun {
  service : ZmqService;
  draws : nat;
  trace : list SocketCall;
  returned : list string
}.

Definition after_subscription (r : Run) (o : Outcome string) : Run :=
  let '(res, this', eff) := o in
  mkRun this' (S (draws r)) (trace r ++ eff)
    (match res with
     | Returns i => returned r ++ [i]
     | Throws _ => returned r
     end).

Definition step (r : Run) (c : Call) : Run :=
  match c with
  | CallSubscribe event cb env =>
      after_subscription r (subscribe env (uuid_v4 (draws r)) (service r) event cb)
  | CallSubscribeEvent event cb env =>
      after_subscription r (subscribeEvent env (uuid_v4 (draws r)) (service r) event cb)
  | CallUnsubscribe i =>
      let '(_, this', eff) := unsubscribe (service r) i in
      mkRun this' (draws r) (trace r ++ eff) (returned r)
  end.

(** A freshly constructed service, before any call. *)
Definition start (config : Config) : Run := mkRun (constructor config) 0 [] [].

Definition run (config : Config) (calls : list Call) : Run :=
  fold_left step calls (start config).

(** Every socket open of the sequence succeeds. *)
Definition opens_succeed (c : Call) : Prop :=
  match c with
  | CallSubscribe _ _ env | CallSubscribeEvent _ _ env => env = OpenOk
  | CallUnsubscribe _ => True
  end.

(** The number of sockets created and not yet closed by a trace. *)
Fixpoint open_count (t : list SocketCall) : Z :=
  match t with
  | [] => 0
  | ZmqSocket _ :: t' => 1 + open_count t'
  | SocketClose :: t' => open_count t' - 1
  | _ :: t' => open_count t'
  end.

(** All the ids held by a registry, event after event. *)
Definition all_ids (o : Obj (list Subscription)) : list string :=
  flat_map (fun kv => map id (snd kv)) o.

(** *** Notions used to state the properties *)

(** The one dispatch [handleMessage] can make. *)
Definition dispatch (this : ZmqService) (message : string) (first : Subscription)
    (mt : MessageType) : Invocation :=
  let messageParams := split " "%char message in
  CallbackCall (callback first) (Some "tx")
    (buildPayload (getPayload (index messageParams 8)) mt messageParams).

(** Every run of [handleMessage] is one of three: a silent return, a
    [TypeError] before any call, or a return after exactly one call. *)
Inductive Handled (this : ZmqService) (message : string)
  : Completion unit * list Invocation -> Prop :=
| HandledDropped :
    (index (split " "%char message) 0 <> Some "tx"
     \/ own (_subscriptions this) "tx" = None
     \/ exists t, index (split " "%char message) 12 = Some t
                  /\ (String.prefix (prefix (_config this)) t = false
                      \/ extractMessageType t = None)) ->
    Handled this message (Returns tt, [])
| HandledNoTag :
    index (split " "%char message) 0 = Some "tx" ->
    own (_subscriptions this) "tx" <> None ->
    index (split " "%char message) 12 = None ->
    Handled this message (Throws TypeError, [])
| HandledNoSubscriber t mt :
    index (split " "%char message) 0 = Some "tx" ->
    own (_subscriptions this) "tx" = Some [] ->
    index (split " "%char message) 12 = Some t ->
    String.prefix (prefix (_config this)) t = true ->
    extractMessageType t = Some mt ->
    Handled this message (Throws TypeError, [])
| HandledSent first rest t mt :
    index (split " "%char message) 0 = Some "tx" ->
    own (_subscriptions this) "tx" = Some (first :: rest) ->
    index (split " "%char message) 12 = Some t ->
    String.prefix (prefix (_config this)) t = true ->
    extractMessageType t = Some mt ->
    Handled this message (Returns tt, [dispatch this message first mt]).

Definition open_error (env : OpenOutcome) : option string :=
  match env with
  | OpenOk => None
  | SocketThrows err | ConnectThrows err => Some err
  end.

(** The subscriber list of [event] before a subscription is added. *)
Definition previous (this : ZmqService) (event : string) : list Subscription :=
  match own (_subscriptions this) event with
  | Some subs => subs
  | None => []
  end.

Definition finish (fresh : string) (eff1 : list SocketCall) (o : Outcome unit)
  : Outcome string :=
  let '(r, this3, eff2) := o in
  (match r with
   | Returns _ => Returns fresh
   | Throws e => Throws e
   end, this3, eff1 ++ eff2).

Definition holds_socket (this : ZmqService) : bool :=
  match _socket this with
  | Some _ => true
  | None => false
  end.

(** [track b t] replays the trace [t] from a state where a socket is
    open ([b = true]) or not: it fails when a socket is created while
    one is open or closed while none is, and otherwise tells whether one
    is open at the end. *)
Fixpoint track (b : bool) (t : list SocketCall) : option bool :=
  match t with
  | [] => Some b
  | ZmqSocket _ :: t' => if b then None else track true t'
  | SocketClose :: t' => if b then track false t' else None
  | _ :: t' => track b t'
  end.

Definition connected_iff_registered (this : ZmqService) : Prop :=
  holds_socket this = true <-> _subscriptions this <> [].

Definition connection_follows_registry (r : Run) : Prop :=
  connected_iff_registered (service r)
  /\ track false (trace r) = Some (holds_socket (service r)).

(** The registry a completed addition leaves. *)
Definition registry_after_add (o : Obj (list Subscription)) (event : string)
    (e : Subscription) : Obj (list Subscription) :=
  match own o event with
  | Some subs => set o event (subs ++ [e])
  | None => set (set o event []) event [e]
  end.

Definition issued_before (n : nat) (x : string) : Prop :=
  exists j, j < n /\ x = uuid_v4 j.

Definition ids_unique (r : Run) : Prop :=
  NoDup (all_ids (_subscriptions (service r)))
  /\ (forall x, In x (all_ids (_subscriptions (service r))) ->
                issued_before (draws r) x)
  /\ NoDup (returned r)
  /\ (forall x, In x (returned r) -> issued_before (draws r) x).

(** Without a socket, no id in the registry was ever returned. *)
Definition unreturned_without_socket (r : Run) : Prop :=
  holds_socket (service r) = false ->
  forall x, In x (all_ids (_subscriptions (service r))) -> ~ In x (returned r).

End Service.

Arguments Subscription Callback : clear implicits.
Arguments ZmqService Callback : clear implicits.
Arguments EventPayload MessageType Payload : clear implicits.
Arguments Invocation MessageType Payload Callback : clear implicits.
Arguments Outcome Callback A : clear implicits.
Arguments Call Callback : clear implicits.
Arguments Run Callback : clear implicits.

(** ** Notions about the timestamp field *)

(** The code points of the ECMAScript white space and line
    terminators. *)
Definition white_space_code_points : list N :=
  [9; 10; 11; 12; 13; 32; 160; 5760;
   8192; 8193; 8194; 8195; 8196; 8197; 8198; 8199; 8200; 8201; 8202;
   8232; 8233; 8239; 8287; 12288; 65279]%N.

(** The text of a run of code points. *)
Fixpoint text_of (cps : list N) : string :=
  match cps with
  | [] => EmptyString
  | cp :: rest => (utf8 cp ++ text_of rest)%string
  end.

(** The integer a string of decimal digits denotes, by position. *)
Fixpoint decimal (ds : string) : Z :=
  match ds with
  | EmptyString => 0
  | String c rest =>
      (match digit c with Some d => d | None => 0 end
       * 10 ^ Z.of_nat (String.length rest) + decimal rest)%Z
  end.

(** [s] is empty or starts with a character that is not a digit. *)
Definition no_digit_ahead (s : string) : Prop :=
  match s with
  | EmptyString => True
  | String c _ => digit c = None
  end.

(** The number with the sign of the text [sgn], one of the empty
    string, "+" and "-", and the magnitude [n]. *)
Definition signed (sgn : string) (n : Z) : Z :=
  if String.eqb sgn "-" then (- n)%Z else n.

(** ** Further notions about traces and registries *)

(** The number of filters for topic [k] on the open socket after a
    trace: [subscribe(k)] adds one, [unsubscribe(k)] takes one away, and
    a socket starts, and ends, with none. *)
Fixpoint filter_balance (k : string) (acc : Z) (t : list SocketCall) : Z :=
  match t with
  | [] => acc
  | ZmqSocket _ :: t' => filter_balance k 0 t'
  | SocketClose :: t' => filter_balance k 0 t'
  | SocketSubscribe k' :: t' =>
      filter_balance k (if String.eqb k' k then acc + 1 else acc) t'
  | SocketUnsubscribe k' :: t' =>
      filter_balance k (if String.eqb k' k then acc - 1 else acc) t'
  | _ :: t' => filter_balance k acc t'
  end.

(** [k] is a key of the object. *)
Definition has_key {V : Type} (o : Obj V) (k : string) : bool :=
  existsb (String.eqb k) (keys o).

(** Strictly increasing numbers. *)
Fixpoint increasing (js : list nat) : Prop :=
  match js with
  | [] => True
  | j :: js' => Forall (lt j) js' /\ increasing js'
  end.

Section Notions.

Context {Callback : Type}.
Variable uuid_v4 : nat -> string.

(** The subscribers of a list were registered in the order of the
    list: their ids are draws of [uuid()] with increasing numbers, all
    made before the [n]-th. *)
Definition in_subscription_order (n : nat) (subs : list (Subscription Callback))
  : Prop :=
  exists js, map id subs = map uuid_v4 js
             /\ increasing js /\ Forall (fun j => j < n) js.

(** The call does not unsubscribe the id [i]. *)
Definition spares (i : string) (c : Call Callback) : Prop :=
  match c with
  | CallUnsubscribe i' => i' <> i
  | _ => True
  end.

(** A socket is held only with a key in the registry, and the trace
    never has two sockets open. *)
Definition socket_accounted (r : Run Callback) : Prop :=
  (holds_socket (service r) = true -> _subscriptions (service r) <> [])
  /\ track false (trace r) = Some (holds_socket (service r)).

(** Every key of the registry has a subscriber. *)
Definition keys_have_subscribers (this : ZmqService Callback) : Prop :=
  forall k subs, own (_subscriptions this) k = Some subs -> subs <> [].

(** The open socket has one filter per registry key and no other. *)
Definition filters_mirror_keys (r : Run Callback) : Prop :=
  forall k,
    filter_balance k 0 (trace r) =
      (if has_key (_subscriptions (service r)) k then 1 else 0)%Z.

(** The three facts every state reached with successful opens has. *)
Definition well_run (r : Run Callback) : Prop :=
  connection_follows_registry r
  /\ keys_have_subscribers (service r)
  /\ NoDup (keys (_subscriptions (service r))).

End Notions.

(** ** The submodel values of [utils/simulationHelper.ts]

    The loop of [sendRandomCFP] that fills [submodelValues] from
    [randomSubmodelElements].  [Value] is the type of the [value] fields,
    [Time] what [Date.parse] returns; [Boolean] is the conversion to a
    boolean. *)

Section SimulationHelper.

Context {Value Time : Type}.
Variable Date_parse : Value -> Time.
Variable Boolean : Value -> bool.

Record SubmodelElement : Type := mkElement {
  semanticId : string;
  value : Value;
  valueType : string
}.

(** What a property of [submodelValues] can hold. *)
Inductive Stored : Type :=
| Raw (v : Value)
| Parsed (t : Time)
| Truth (b : bool).

(** [['date', 'dateTime', 'dateTimeStamp'].includes(valueType)] *)
Definition is_date_type (valueType : string) : bool :=
  existsb (String.eqb valueType) ["date"; "dateTime"; "dateTimeStamp"].

(** The callback of [forEach]: the first [if] has no [else] branch and
    the second [if] runs after it in every case. *)
Definition store_element (submodelValues : Obj Stored) (e : SubmodelElement)
  : Obj Stored :=
  let o1 :=
    if is_date_type (valueType e)
    then set submodelValues (semanticId e) (Parsed (Date_parse (value e)))
    else submodelValues in
  if String.eqb (valueType e) "boolean"
  then set o1 (semanticId e) (Truth (Boolean (value e)))
  else set o1 (semanticId e) (Raw (value e)).

Definition submodelValues (randomSubmodelElements : list SubmodelElement)
  : Obj Stored :=
  fold_left store_element randomSubmodelElements [].

(** What the loop leaves for one element. *)
Definition final_value (e : SubmodelElement) : Stored :=
  if String.eqb (valueType e) "boolean"
  then Truth (Boolean (value e))
  else Raw (value e).

End SimulationHelper.

Arguments SubmodelElement Value : clear implicits.
Arguments Stored Value Time : clear implicits.

(** ** A concrete service

    Message types and payloads are strings, callbacks are numbered, the
    decoder reads the letter after an 8-character prefix, and the n-th
    id is a run of n+1 letters. *)

Definition demo_config : Config := mkConfig "tcp://zmq.devnet.iota.org:5556" "SEMARKET".

Definition demo_extractMessageType (tag : string) : option string :=
  match String.get 8 tag with
  | Some "A"%char => Some "callForProposal"
  | Some "B"%char => Some "proposal"
  | Some "C"%char => Some "acceptProposal"
  | _ => None
  end.

Definition demo_getPayload (bundle : option string) : string :=
  ("payload:" ++ to_string bundle)%string.

Fixpoint demo_uuid (n : nat) : string :=
  match n with
  | 0 => "u"
  | S m => String "u"%char (demo_uuid m)
  end.

Definition DemoService : Type := ZmqService nat.
Definition DemoInvocation : Type := Invocation string string nat.
Definition DemoRun : Type := Run nat.

Definition demo_handleMessage (this : DemoService) (message : string)
  : Completion unit * list DemoInvocation :=
  handleMessage demo_extractMessageType demo_getPayload this message.

Definition demo_unsubscribe (this : DemoService) (subscriptionId : string)
  : Completion unit * DemoService * list SocketCall :=
  unsubscribe this subscriptionId.

Definition demo_run (calls : list (Call nat)) : DemoRun :=
  run demo_uuid demo_config calls.

(** One subscriber of "tx", socket open. *)
Definition demo_service : DemoService :=
  mkService demo_config (Some SubSocket) [("tx", [mkSubscription "u" 7])].

Definition message_ok : string :=
  "tx HASH9 ADDR9 f f 1571234567 f f BUNDLE9 f f f SEMARKETA9".
Definition message_unparseable_timestamp : string :=
  "tx HASH9 ADDR9 f f f f f BUNDLE9 f f f SEMARKETA9".
Definition message_short : string := "tx HASH9 ADDR9".
Definition message_short_block : string := "block HASH9 ADDR9".
Definition message_block : string :=
  "block HASH9 ADDR9 f f 1571234567 f f BUNDLE9 f f f SEMARKETA9".
Definition message_other_prefix : string :=
  "tx HASH9 ADDR9 f f 1571234567 f f BUNDLE9 f f f XXXXXXXXA9".

Definition demo_payload (ts : Number) : EventPayload string string :=
  mkPayload "payload:BUNDLE9" "callForProposal"
    (Some "SEMARKETA9") (Some "HASH9") (Some "ADDR9") ts.

(** The service after a first subscription whose [zmq.socket] threw. *)
Definition demo_failed_open : DemoService :=
  service (demo_run [CallSubscribe "tx" 7 (SocketThrows "Error: Too many open files")]).

(** Three subscribers of "tx". *)
Definition demo_three : DemoRun :=
  demo_run [CallSubscribe "tx" 0 OpenOk; CallSubscribe "tx" 1 OpenOk;
            CallSubscribe "tx" 2 OpenOk].

Definition demo_calls : list (Call nat) :=
  [CallSubscribe "tx" 1 OpenOk; CallSubscribeEvent "sn" 2 OpenOk;
   CallUnsubscribe "u"; CallUnsubscribe "uu"].

(** Only "block" has a subscriber. *)
Definition demo_block_only : DemoService :=
  mkService demo_config (Some SubSocket) [("block", [mkSubscription "u" 7])].

(** Subscriptions and removals with every open succeeding: "u" and
    "uuu" stay on "tx", "uu" is removed with its key "sn", "uuuu" is on
    "lmi". *)
Definition demo_busy_calls : list (Call nat) :=
  [CallSubscribe "tx" 1 OpenOk; CallSubscribe "sn" 2 OpenOk;
   CallSubscribe "tx" 3 OpenOk; CallUnsubscribe "uu";
   CallSubscribeEvent "lmi" 4 OpenOk].

(** Calls with a failed connect, a reserved name and an unknown id. *)
Definition demo_rough_calls : list (Call nat) :=
  [CallSubscribe "tx" 1 (ConnectThrows "Error: Invalid argument");
   CallSubscribe "constructor" 2 OpenOk;
   CallUnsubscribe "never-issued";
   CallSubscribe "sn" 3 OpenOk].

(** Calls that leave the first subscriber of [demo_three] alone. *)
Definition demo_later_calls : list (Call nat) :=
  [CallUnsubscribe "uu"; CallSubscribe "tx" 5 OpenOk;
   CallUnsubscribe "uuu";
   CallSubscribe "sn" 6 (SocketThrows "Error: Too many open files")].

(** [message_ok] with other values in the fields that are not read and
    two more fields after the tag. *)
Definition message_other_fields : string :=
  "tx HASH9 ADDR9 g  1571234567 h 0 BUNDLE9 1 2 3 SEMARKETA9 1571234568 9".

(** The fields of [message_ok] with a no-break space and a sign before
    the digits of field 5 and a unit after them. *)
Definition demo_padded_params : list string :=
  ["tx"; "HASH9"; "ADDR9"; "f"; "f"; (utf8 160 ++ "+1571234567ms")%string;
   "f"; "f"; "BUNDLE9"; "f"; "f"; "f"; "SEMARKETA9"].

(** 309 zeros. *)
Fixpoint zeros (n : nat) : string :=
  match n with
  | 0 => EmptyString
  | S m => String "0"%char (zeros m)
  end.

Definition demo_zeros : string := zeros 309.

(** Submodel elements with a date, a boolean and a repeated id, values
    being strings; the demo [Date.parse] and [Boolean] are the length
    of the text and whether it is non-empty. *)
Definition demo_Date_parse (v : string) : nat := String.length v.
Definition demo_Boolean (v : string) : bool := negb (String.eqb v "").

Definition demo_elements : list (SubmodelElement string) :=
  [mkElement "0173-1#02-AAO738#001" "2019-10-16" "date";
   mkElement "0173-1#02-AAO739#001" "12" "decimal";
   mkElement "0173-1#02-AAO740#001" "" "boolean";
   mkElement "0173-1#02-AAO739#001" "15" "decimal"].

Definition demo_submodelValues : Obj (Stored string nat) :=
  submodelValues demo_Date_parse demo_Boolean demo_elements.

(** ** Properties *)

Section Facts.

#[local] Set Default Proof Using "Type".

Context {MessageType Payload Callback : Type}.
Variable extractMessageType : string -> option MessageType.
Variable getPayload : option string -> Payload.
Variable uuid_v4 : nat -> string.

(** [uuid()] never returns the same value twice. *)
Hypothesis uuid_v4_fresh : forall m n, uuid_v4 m = uuid_v4 n -> m = n.

(** The facts about the registry and the connection do not depend on
    the decoder, the payload extractor or the id generator. *)
Ltac forget_router :=
  try clear getPayload; try clear extractMessageType.
Ltac forget_collaborators :=
  try clear uuid_v4_fresh; try clear uuid_v4; forget_router.

(** ** Facts about objects used as maps *)

Lemma own_replace_same {V : Type} (o : Obj V) k v v0 :
  own o k = Some v0 -> own (replace o k v) k = Some v.
Proof.
  induction o as [|[k' v'] o IH]; simpl; [discriminate|].
  destruct (String.eqb k' k) eqn:E; simpl; rewrite E; auto.
Qed.

Lemma own_replace_other {V : Type} (o : Obj V) k k' v :
  k' <> k -> own (replace o k v) k' = own o k'.
Proof.
  intros Hne. induction o as [|[k0 v0] o IH]; simpl; [reflexivity|].
  destruct (String.eqb k0 k) eqn:E; simpl.
  - apply String.eqb_eq in E. subst k0.
    destruct (String.eqb k k') eqn:E'; [|reflexivity].
    apply String.eqb_eq in E'. congruence.
  - rewrite IH. reflexivity.
Qed.

Lemma own_insert_same {V : Type} (o : Obj V) k v :
  own o k = None -> own (insert o k v) k = Some v.
Proof.
  induction o as [|[k' v'] o IH]; simpl; intros H.
  - rewrite String.eqb_refl. reflexivity.
  - destruct (String.eqb k' k) eqn:E; [discriminate|].
    destruct (key_before k k'); simpl.
    + rewrite String.eqb_refl. reflexivity.
    + rewrite E. auto.
Qed.

Lemma own_insert_other {V : Type} (o : Obj V) k k' v :
  k' <> k -> own (insert o k v) k' = own o k'.
Proof.
  intros Hne. induction o as [|[k0 v0] o IH]; simpl.
  - destruct (String.eqb k k') eqn:E; [|reflexivity].
    apply String.eqb_eq in E. congruence.
  - destruct (key_before k k0); simpl.
    + destruct (String.eqb k k') eqn:E; [|reflexivity].
      apply String.eqb_eq in E. congruence.
    + rewrite IH. reflexivity.
Qed.

Lemma own_set_same {V : Type} (o : Obj V) k v : own (set o k v) k = Some v.
Proof.
  unfold set. destruct (own o k) eqn:E.
  - eapply own_replace_same; eauto.
  - apply own_insert_same; assumption.
Qed.

Lemma own_set_other {V : Type} (o : Obj V) k k' v :
  k' <> k -> own (set o k v) k' = own o k'.
Proof.
  intros Hne. unfold set. destruct (own o k).
  - apply own_replace_other; assumption.
  - apply own_insert_other; assumption.
Qed.

Lemma own_delete_same {V : Type} (o : Obj V) k : own (delete o k) k = None.
Proof.
  induction o as [|[k' v'] o IH]; simpl; [reflexivity|].
  destruct (String.eqb k' k) eqn:E; simpl; [assumption|].
  rewrite E. assumption.
Qed.

Lemma own_delete_other {V : Type} (o : Obj V) k k' :
  k' <> k -> own (delete o k) k' = own o k'.
Proof.
  intros Hne. induction o as [|[k0 v0] o IH]; simpl; [reflexivity|].
  destruct (String.eqb k0 k) eqn:E; simpl.
  - apply String.eqb_eq in E. subst k0.
    destruct (String.eqb k k') eqn:E'; [|assumption].
    apply String.eqb_eq in E'. congruence.
  - rewrite IH. reflexivity.
Qed.

Lemma own_in_keys {V : Type} (o : Obj V) k v : own o k = Some v -> In k (keys o).
Proof.
  induction o as [|[k' v'] o IH]; simpl; [discriminate|].
  destruct (String.eqb k' k) eqn:E.
  - apply String.eqb_eq in E. auto.
  - auto.
Qed.

Lemma in_keys_own {V : Type} (o : Obj V) k :
  In k (keys o) -> exists v, own o k = Some v.
Proof.
  induction o as [|[k' v'] o IH]; simpl; [intros []|].
  intros [H|H]; destruct (String.eqb k' k) eqn:E; eauto.
  subst k'. rewrite String.eqb_refl in E. discriminate.
Qed.

Lemma own_singleton {V : Type} (k0 k : string) (v v' : V) :
  own [(k0, v)] k = Some v' -> k = k0 /\ v' = v.
Proof.
  simpl. destruct (String.eqb_spec k0 k) as [->|Hne]; [|discriminate].
  intros H. injection H as <-. auto.
Qed.

Lemma own_none_not_in_keys {V : Type} (o : Obj V) k : own o k = None -> ~ In k (keys o).
Proof.
  intros H Hin. apply in_keys_own in Hin. destruct Hin as [v Hv]. congruence.
Qed.

Lemma set_not_nil {V : Type} (o : Obj V) k v : set o k v <> [].
Proof.
  intros H. pose proof (own_set_same o k v) as E. rewrite H in E. discriminate.
Qed.

Lemma keys_nil_iff {V : Type} (o : Obj V) :
  Nat.eqb (List.length (keys o)) 0 = true <-> o = [].
Proof.
  destruct o; simpl; split; intros; congruence.
Qed.

(** ** Facts about the scan of [unsubscribe] *)

Lemma index_of_none subscriptionId (subs : list (Subscription Callback)) :
  index_of subscriptionId subs = None <->
  (forall s, In s subs -> id s <> subscriptionId).
Proof.
  induction subs as [|s subs IH]; simpl.
  - split; [intros _ s []|reflexivity].
  - destruct (String.eqb (id s) subscriptionId) eqn:E.
    + apply String.eqb_eq in E. split; [discriminate|].
      intros H. exfalso. apply (H s); auto.
    + apply String.eqb_neq in E.
      destruct (index_of subscriptionId subs); simpl.
      * split; [discriminate|]. intros H. exfalso.
        destruct IH as [_ IH]. discriminate IH. intros s' Hs'. apply H. auto.
      * split; [|reflexivity]. intros _ s' [<-|Hs']; [assumption|].
        apply IH; auto.
Qed.

(** A scan that meets no subscription carrying the id changes nothing. *)
Lemma unsubscribe_from_absent ks (this : ZmqService Callback) subscriptionId :
  (forall k, In k ks -> In k (keys (_subscriptions this))) ->
  (forall k subs s, own (_subscriptions this) k = Some subs -> In s subs ->
                    id s <> subscriptionId) ->
  unsubscribe_from ks this subscriptionId = (Returns tt, this, []).
Proof.
  intros Hks Habs. induction ks as [|k ks IH]; simpl; [reflexivity|].
  destruct (in_keys_own _ k (Hks k (or_introl eq_refl))) as [subs Hsubs].
  rewrite Hsubs.
  assert (index_of subscriptionId subs = None) as ->.
  { apply index_of_none. intros s Hs. eapply Habs; eauto. }
  apply IH. intros k' Hk'. apply Hks. right. assumption.
Qed.

(** A scan that first meets the id under [event] removes it there. *)
Lemma unsubscribe_from_found
    ks (this : ZmqService Callback) subscriptionId event subs j :
  (forall k, In k ks -> In k (keys (_subscriptions this))) ->
  In event ks ->
  own (_subscriptions this) event = Some subs ->
  index_of subscriptionId subs = Some j ->
  (forall k subs' s, k <> event -> own (_subscriptions this) k = Some subs' ->
                     In s subs' -> id s <> subscriptionId) ->
  unsubscribe_from ks this subscriptionId = remove_at this event subs j.
Proof.
  intros Hks Hin Hown Hidx Hothers.
  induction ks as [|k ks IH]; simpl; [destruct Hin|].
  destruct (String.eqb_spec k event) as [->|Hne].
  - rewrite Hown, Hidx. reflexivity.
  - destruct (in_keys_own _ k (Hks k (or_introl eq_refl))) as [subs' Hsubs'].
    rewrite Hsubs'.
    assert (index_of subscriptionId subs' = None) as ->.
    { apply index_of_none. intros s Hs. eapply Hothers; eauto. }
    apply IH.
    + intros k' Hk'. apply Hks. right. assumption.
    + destruct Hin as [Heq|Hin]; [congruence|assumption].
Qed.

Lemma keys_replace {V : Type} (o : Obj V) k v : keys (replace o k v) = keys o.
Proof.
  induction o as [|[k' v'] o IH]; simpl; [reflexivity|].
  destruct (String.eqb k' k); simpl; [reflexivity|].
  f_equal. assumption.
Qed.

Lemma keys_set_own {V : Type} (o : Obj V) k v v0 :
  own o k = Some v0 -> keys (set o k v) = keys o.
Proof. intros H. unfold set. rewrite H. apply keys_replace. Qed.

Lemma in_keys_delete {V : Type} (o : Obj V) k k' :
  In k' (keys (delete o k)) <-> In k' (keys o) /\ k' <> k.
Proof.
  unfold keys, delete. rewrite in_map_iff. split.
  - intros [[k0 v0] [<- Hin]]. apply filter_In in Hin. destruct Hin as [Hin Hb].
    simpl in *. split.
    + apply in_map_iff. exists (k0, v0). auto.
    + apply negb_true_iff, String.eqb_neq in Hb. assumption.
  - intros [Hin Hne]. apply in_map_iff in Hin. destruct Hin as [[k0 v0] [<- Hin]].
    exists (k0, v0). split; [reflexivity|]. apply filter_In. split; [assumption|].
    simpl in *. apply negb_true_iff, String.eqb_neq. assumption.
Qed.

Lemma keys_empty {V : Type} (o : Obj V) : keys o = [] <-> o = [].
Proof. destruct o; simpl; split; intros; congruence. Qed.

Lemma remove_at_only_subscriber (this : ZmqService Callback) sock event s :
  _socket this = Some sock ->
  remove_at this event [s] 0 =
    let o' := delete (set (_subscriptions this) event []) event in
    if Nat.eqb (List.length (keys o')) 0
    then (Returns tt, mkService (_config this) None o',
          [SocketUnsubscribe event; SocketClose])
    else (Returns tt, mkService (_config this) (Some sock) o',
          [SocketUnsubscribe event]).
Proof.
  intros Hsock.
  unfold remove_at, splice1, disconnect, with_subscriptions, with_socket.
  cbn. rewrite Hsock.
  destruct (Nat.eqb _ 0); reflexivity.
Qed.

(** C8. Unsubscribing an id that no subscriber list holds returns
    normally, makes no call on the socket and leaves the registry and
    the socket handle as they were. *)
Theorem unsubscribe_unknown_id_is_noop (this : ZmqService Callback) subscriptionId :
  (forall k subs s, own (_subscriptions this) k = Some subs -> In s subs ->
                    id s <> subscriptionId) ->
  unsubscribe this subscriptionId = (Returns tt, this, []).
Proof.
  intros Habs. unfold unsubscribe.
  apply unsubscribe_from_absent; auto.
Qed.

(** X14.  In a service that holds its socket handle, when
    [subscriptionId] is the only subscriber of [event], the one list
    that holds it,
    [unsubscribe] returns normally, calls [socket.unsubscribe(event)],
    removes the key [event] and keeps every other key; when [event] was
    the last key it then closes the socket and drops the handle, and
    otherwise it keeps the handle and makes no further call. *)
Theorem unsubscribe_last_subscriber_of_event
    (this : ZmqService Callback) sock subscriptionId event cb :
  _socket this = Some sock ->
  own (_subscriptions this) event = Some [mkSubscription subscriptionId cb] ->
  (forall k subs s, k <> event -> own (_subscriptions this) k = Some subs ->
                    In s subs -> id s <> subscriptionId) ->
  exists this' eff,
    unsubscribe this subscriptionId = (Returns tt, this', eff)
    /\ own (_subscriptions this') event = None
    /\ ~ In event (keys (_subscriptions this'))
    /\ (forall k, k <> event ->
          own (_subscriptions this') k = own (_subscriptions this) k)
    /\ ((forall k, In k (keys (_subscriptions this)) -> k = event) ->
        eff = [SocketUnsubscribe event; SocketClose]
        /\ _socket this' = None /\ _subscriptions this' = [])
    /\ ((exists k, In k (keys (_subscriptions this)) /\ k <> event) ->
        eff = [SocketUnsubscribe event] /\ _socket this' = Some sock).
Proof.
  intros Hsock Hown Hothers.
  unfold unsubscribe.
  rewrite (unsubscribe_from_found _ this subscriptionId event
             [mkSubscription subscriptionId cb] 0);
    auto; try (eapply own_in_keys; eassumption);
    [|simpl; rewrite String.eqb_refl; reflexivity].
  rewrite (remove_at_only_subscriber this sock); auto.
  set (o := _subscriptions this) in *.
  cbv zeta. remember (delete (set o event []) event) as o' eqn:Eo'.
  assert (Hget : own o' event = None) by (subst o'; apply own_delete_same).
  assert (Hkeep : forall k, k <> event -> own o' k = own o k).
  { intros k Hk. subst o'. rewrite own_delete_other, own_set_other; auto. }
  assert (Hkeys : forall k, In k (keys o') <-> In k (keys o) /\ k <> event).
  { intros k. subst o'. rewrite in_keys_delete.
    rewrite (keys_set_own o event [] _ Hown). reflexivity. }
  assert (Hnotin : ~ In event (keys o')).
  { apply own_none_not_in_keys. assumption. }
  destruct (Nat.eqb (List.length (keys o')) 0) eqn:Elast.
  - apply keys_nil_iff in Elast.
    eexists _, _. split; [reflexivity|]. cbn.
    split; [assumption|]. split; [assumption|]. split; [assumption|].
    split.
    + intros _. auto.
    + intros [k [Hk Hne]]. exfalso.
      assert (In k (keys o')) as Hin by (apply Hkeys; auto).
      rewrite Elast in Hin. destruct Hin.
  - assert (exists k, In k (keys o)  /\ k <> event) as [k [Hk Hne]].
    { destruct o' as [|[k v] o']; [discriminate|].
      exists k. apply Hkeys. left. reflexivity. }
    eexists _, _. split; [reflexivity|]. cbn.
    split; [assumption|]. split; [assumption|]. split; [assumption|].
    split.
    + intros Hall. exfalso. apply Hne. auto.
    + intros _. auto.
Qed.

(** ** Facts about the timestamp parse *)

Lemma append_assoc (a b c : string) : ((a ++ b) ++ c = a ++ b ++ c)%string.
Proof.
  forget_collaborators.
  induction a as [|x a IH]; cbn; [reflexivity|]. rewrite IH. reflexivity.
Qed.

Lemma trim_start_white_space cp s :
  In cp white_space_code_points ->
  trim_start (utf8 cp ++ s) = trim_start s.
Proof.
  forget_collaborators.
  unfold white_space_code_points. cbn [In]. intros H.
  repeat (destruct H as [<-|H]; [reflexivity|]). destruct H.
Qed.

Lemma trim_start_text cps s :
  Forall (fun cp => In cp white_space_code_points) cps ->
  trim_start (text_of cps ++ s) = trim_start s.
Proof.
  forget_collaborators.
  induction 1 as [|cp cps Hcp _ IH]; cbn [text_of]; [reflexivity|].
  rewrite append_assoc, trim_start_white_space by assumption. exact IH.
Qed.

(** A byte below 128 that is not white space starts no white space. *)
Lemma trim_start_stops c s :
  is_white_space c = false ->
  nat_of_ascii c < 128 ->
  trim_start (String c s) = String c s.
Proof.
  forget_collaborators.
  intros Hws Hlow. cbn [trim_start]. rewrite Hws.
  destruct s as [|c2 s2]; [reflexivity|].
  unfold is_white_space2.
  destruct (Nat.eqb_spec (nat_of_ascii c) 194) as [E|_]; [lia|].
  cbn [andb].
  destruct s2 as [|c3 s3]; [reflexivity|].
  unfold is_white_space3.
  destruct (Nat.eqb_spec (nat_of_ascii c) 225) as [E|_]; [lia|].
  destruct (Nat.eqb_spec (nat_of_ascii c) 226) as [E|_]; [lia|].
  destruct (Nat.eqb_spec (nat_of_ascii c) 227) as [E|_]; [lia|].
  destruct (Nat.eqb_spec (nat_of_ascii c) 239) as [E|_]; [lia|].
  reflexivity.
Qed.

Lemma digit_range c d :
  digit c = Some d ->
  48 <= nat_of_ascii c <= 57 /\ (0 <= d <= 9)%Z.
Proof.
  forget_collaborators.
  unfold digit.
  destruct (Nat.leb_spec 48 (nat_of_ascii c)); cbn [andb]; [|discriminate].
  destruct (Nat.leb_spec (nat_of_ascii c) 57); [|discriminate].
  intros [= <-]. lia.
Qed.

Lemma trim_start_digit c s d :
  digit c = Some d -> trim_start (String c s) = String c s.
Proof.
  forget_collaborators.
  intros Hd. apply digit_range in Hd. destruct Hd as [Hc _].
  apply trim_start_stops; [|lia].
  unfold is_white_space.
  destruct (Nat.eqb_spec (nat_of_ascii c) 32); [lia|].
  destruct (Nat.leb_spec (nat_of_ascii c) 13); [lia|].
  rewrite andb_false_r. reflexivity.
Qed.

Lemma parseInt10_of_digit c s d :
  digit c = Some d ->
  parseInt10 (String c s) = to_number false (digits (String c s) None).
Proof.
  forget_collaborators.
  intros Hd. unfold parseInt10. rewrite (trim_start_digit c s d Hd).
  destruct c as [b0 b1 b2 b3 b4 b5 b6 b7].
  destruct b0, b1, b2, b3, b4, b5, b6, b7; try reflexivity;
    cbv in Hd; discriminate.
Qed.

Lemma digits_ignores_rest ds rest acc :
  all_digits ds = true ->
  no_digit_ahead rest ->
  digits (ds ++ rest) acc = digits ds acc.
Proof.
  forget_collaborators.
  revert acc. induction ds as [|c ds IH]; intros acc Hall Hrest.
  - cbn. destruct rest as [|c r]; [reflexivity|]. cbn in Hrest |- *.
    rewrite Hrest. reflexivity.
  - cbn in *. destruct (digit c); [|discriminate]. apply IH; assumption.
Qed.

Lemma digits_decimal_from ds a :
  all_digits ds = true ->
  digits ds (Some a) =
    Some (a * 10 ^ Z.of_nat (String.length ds) + decimal ds)%Z.
Proof.
  forget_collaborators.
  revert a. induction ds as [|c ds IH]; intros a Hall;
    cbn [digits decimal String.length all_digits] in *.
  - f_equal. rewrite Z.pow_0_r. lia.
  - destruct (digit c) as [d|]; [|discriminate].
    rewrite IH by assumption. f_equal.
    rewrite Nat2Z.inj_succ, Z.pow_succ_r by lia. ring.
Qed.

Lemma digits_decimal ds :
  all_digits ds = true ->
  ds <> EmptyString ->
  digits ds None = Some (decimal ds).
Proof.
  forget_collaborators.
  intros Hall Hne. destruct ds as [|c ds]; [congruence|].
  cbn [digits decimal all_digits] in *.
  destruct (digit c) as [d|]; [|discriminate].
  rewrite digits_decimal_from by assumption. f_equal; ring.
Qed.

Lemma decimal_nonnegative ds : (0 <= decimal ds)%Z.
Proof.
  forget_collaborators.
  induction ds as [|c ds IH]; cbn [decimal]; [lia|].
  assert (0 <= 10 ^ Z.of_nat (String.length ds))%Z by (apply Z.pow_nonneg; lia).
  destruct (digit c) as [d|] eqn:Hd; [|lia].
  apply digit_range in Hd. nia.
Qed.

(** The leading numeral decides: white space, a sign, digits, and
    anything that starts with no digit. *)
Lemma parseInt_numeral cps sgn ds rest :
  Forall (fun cp => In cp white_space_code_points) cps ->
  In sgn [""; "+"; "-"] ->
  all_digits ds = true ->
  ds <> EmptyString ->
  no_digit_ahead rest ->
  parseInt (Some (text_of cps ++ sgn ++ ds ++ rest)%string) =
    to_number (String.eqb sgn "-") (Some (decimal ds)).
Proof.
  forget_collaborators.
  intros Hws Hsgn Hall Hne Hrest. unfold parseInt. cbn [to_string].
  assert (Hd : digits (ds ++ rest) None = Some (decimal ds)).
  { rewrite digits_ignores_rest by assumption.
    apply digits_decimal; assumption. }
  destruct Hsgn as [<-|[<-|[<-|[]]]].
  - cbn [append String.eqb].
    destruct ds as [|c ds]; [congruence|].
    assert (exists d, digit c = Some d) as [d Hc].
    { cbn in Hall. destruct (digit c); [eauto|discriminate]. }
    unfold parseInt10. rewrite trim_start_text by assumption.
    fold (parseInt10 (String c ds ++ rest)).
    change (String c ds ++ rest)%string with (String c (ds ++ rest)%string).
    rewrite (parseInt10_of_digit c _ d Hc).
    change (String c (ds ++ rest)%string) with (String c ds ++ rest)%string.
    rewrite Hd. reflexivity.
  - unfold parseInt10. rewrite trim_start_text by assumption.
    change ("+" ++ ds ++ rest)%string with (String "+" (ds ++ rest)).
    rewrite trim_start_stops by (cbn; first [reflexivity|lia]).
    rewrite Hd. reflexivity.
  - unfold parseInt10. rewrite trim_start_text by assumption.
    change ("-" ++ ds ++ rest)%string with (String "-" (ds ++ rest)).
    rewrite trim_start_stops by (cbn; first [reflexivity|lia]).
    rewrite Hd. reflexivity.
Qed.

(** *** Rounding to a double *)

Lemma nearest_double_exact z :
  (0 < z < 2 ^ 53)%Z -> nearest_double z = Some z.
Proof.
  forget_collaborators.
  intros Hz. unfold nearest_double.
  assert (Z.log2 z < 53)%Z by (apply Z.log2_lt_pow2; lia).
  destruct (Z.leb_spec (Z.log2 z - 52) 0); [reflexivity|lia].
Qed.

Lemma to_number_exact negative n :
  (0 <= n < 2 ^ 53)%Z ->
  (negative = true -> n <> 0%Z) ->
  to_number negative (Some n) = Int (if negative then - n else n).
Proof.
  forget_collaborators.
  intros Hn Hzero. unfold to_number.
  destruct n as [|p|p]; [| |lia].
  - destruct negative; [exfalso; apply Hzero; reflexivity|reflexivity].
  - rewrite nearest_double_exact by lia. reflexivity.
Qed.

(** The timestamp of a payload for a field that starts with a numeral. *)
Lemma timestamp_of_numeral
    (d : Payload) (mt : MessageType) messageParams cps sgn ds trailing :
  index messageParams 5 = Some (text_of cps ++ sgn ++ ds ++ trailing)%string ->
  Forall (fun cp => In cp white_space_code_points) cps ->
  In sgn [""; "+"; "-"] ->
  all_digits ds = true ->
  ds <> EmptyString ->
  no_digit_ahead trailing ->
  timestamp (buildPayload d mt messageParams) =
    to_number (String.eqb sgn "-") (Some (decimal ds))
  /\ ((decimal ds < 2 ^ 53)%Z ->
      (sgn = "-" -> decimal ds <> 0%Z) ->
      timestamp (buildPayload d mt messageParams) =
        Int (signed sgn (decimal ds))).
Proof.
  forget_collaborators.
  intros Hfield Hws Hsgn Hall Hne Hrest.
  unfold buildPayload. cbn [timestamp]. rewrite Hfield.
  rewrite parseInt_numeral by assumption.
  split; [reflexivity|]. intros Hsafe Hzero. unfold signed.
  apply to_number_exact.
  - pose proof (decimal_nonnegative ds). lia.
  - intros E. apply Hzero. apply String.eqb_eq. exact E.
Qed.

(** Above 2^53 the value is cut to its 53 leading bits [q] and rounded
    by the bits [r] that are cut. *)
Lemma nearest_double_rounds z :
  (2 ^ 53 <= z)%Z ->
  let e := (Z.log2 z - 52)%Z in
  let q := (z / 2 ^ e)%Z in
  let r := (z mod 2 ^ e)%Z in
  let q' := if (2 ^ (e - 1) <? r)%Z || ((r =? 2 ^ (e - 1))%Z && Z.odd q)
            then (q + 1)%Z else q in
  (1 <= e)%Z
  /\ (2 ^ 52 <= q < 2 ^ 53)%Z
  /\ (0 <= r < 2 ^ e)%Z
  /\ z = (q * 2 ^ e + r)%Z
  /\ nearest_double z =
       if (q' * 2 ^ e <? 2 ^ 1024)%Z then Some (q' * 2 ^ e)%Z else None.
Proof.
  forget_collaborators.
  intros Hz e q r q'.
  assert (Hpos : (0 < z)%Z) by lia.
  assert (Hlog : (53 <= Z.log2 z)%Z) by (apply Z.log2_le_pow2; lia).
  assert (He : (1 <= e)%Z) by (subst e; lia).
  assert (Hpe : (0 < 2 ^ e)%Z) by (apply Z.pow_pos_nonneg; lia).
  destruct (Z.log2_spec z Hpos) as [Hlo Hhi].
  assert (E1 : (2 ^ Z.log2 z = 2 ^ 52 * 2 ^ e)%Z).
  { rewrite <- Z.pow_add_r by lia. f_equal. subst e. lia. }
  assert (E2 : (2 ^ Z.succ (Z.log2 z) = 2 ^ 53 * 2 ^ e)%Z).
  { rewrite <- Z.pow_add_r by lia. f_equal. subst e. lia. }
  assert (Hq : (2 ^ 52 <= q < 2 ^ 53)%Z).
  { subst q. split.
    - apply Z.div_le_lower_bound; lia.
    - apply Z.div_lt_upper_bound; lia. }
  assert (Hr : (0 <= r < 2 ^ e)%Z) by (subst r; apply Z.mod_pos_bound; lia).
  assert (Hzqr : z = (q * 2 ^ e + r)%Z).
  { subst q r. rewrite (Z.mul_comm (z / 2 ^ e)). apply Z.div_mod. lia. }
  repeat (split; [assumption|]).
  unfold nearest_double. fold e.
  destruct (Z.leb_spec e 0); [lia|].
  rewrite Z.shiftr_div_pow2, Z.land_ones, Z.shiftl_1_l by lia.
  fold q r. fold q'.
  rewrite Z.shiftl_mul_pow2 by lia.
  assert (Hv : (0 < q' * 2 ^ e)%Z).
  { apply Z.mul_pos_pos; [|assumption].
    subst q'. destruct (_ || _); lia. }
  destruct (Z.ltb_spec (Z.log2 (q' * 2 ^ e)) 1024) as [Hl|Hl];
    destruct (Z.ltb_spec (q' * 2 ^ e) (2 ^ 1024)) as [Hl'|Hl'];
    try reflexivity; exfalso.
  - apply Z.log2_lt_pow2 in Hl; [lia|assumption].
  - apply Z.log2_lt_pow2 in Hl'; [lia|assumption].
Qed.

(** ** Facts about the message router *)

Lemma inherited_tx : inherited "tx" = false.
Proof. reflexivity. Qed.

Lemma get_tx {V : Type} (o : Obj V) :
  get o "tx" = match own o "tx" with Some v => Own v | None => Undefined end.
Proof. unfold get. rewrite inherited_tx. reflexivity. Qed.

Lemma strict_eq_true v s : strict_eq v s = true <-> v = Some s.
Proof.
  destruct v as [x|]; simpl.
  - rewrite String.eqb_eq. split; congruence.
  - split; discriminate.
Qed.

Lemma handleMessage_handled (this : ZmqService Callback) message :
  Handled extractMessageType getPayload this message
    (handleMessage extractMessageType getPayload this message).
Proof.
  unfold handleMessage.
  destruct (index (split " "%char message) 0) as [e|] eqn:Eev;
    cbn [strict_eq to_string andb].
  2:{ apply HandledDropped. left. congruence. }
  destruct (String.eqb_spec e "tx") as [->|Hne]; cbn [andb].
  2:{ apply HandledDropped. left. congruence. }
  unfold registered. rewrite get_tx.
  destruct (own (_subscriptions this) "tx") as [subs|] eqn:Etx.
  2:{ apply HandledDropped. right. left. assumption. }
  destruct (index (split " "%char message) 12) as [t|] eqn:Etag.
  2:{ apply HandledNoTag; auto. congruence. }
  destruct (String.prefix (prefix (_config this)) t) eqn:Epre.
  2:{ apply HandledDropped. right. right. exists t. auto. }
  destruct (extractMessageType t) as [mt|] eqn:Emt.
  2:{ apply HandledDropped. right. right. exists t. auto. }
  unfold sendEvent. rewrite Eev. cbn [to_string]. rewrite get_tx, Etx.
  destruct subs as [|first rest].
  - eapply HandledNoSubscriber; eauto.
  - unfold dispatch. eapply HandledSent; eauto.
Qed.

Lemma index_nth (fields : list string) i :
  i < List.length fields -> index fields i = Some (nth i fields "").
Proof. intros H. unfold index. apply nth_error_nth'. assumption. Qed.

Lemma handleMessage_sends (this : ZmqService Callback) message first rest t mt :
  index (split " "%char message) 0 = Some "tx" ->
  index (split " "%char message) 12 = Some t ->
  extractMessageType t = Some mt ->
  String.prefix (prefix (_config this)) t = true ->
  own (_subscriptions this) "tx" = Some (first :: rest) ->
  handleMessage extractMessageType getPayload this message =
    (Returns tt, [dispatch getPayload this message first mt]).
Proof.
  intros Hev Htag Hmt Hpre Htx.
  destruct (handleMessage_handled this message)
    as [Hdrop | _ _ Hnotag | t' mt' _ Hnone _ _ _
        | first' rest' t' mt' _ Htx' Htag' _ Hmt'].
  - exfalso. destruct Hdrop as [H|[H|[t' [Ht' [H|H]]]]]; congruence.
  - congruence.
  - congruence.
  - congruence.
Qed.

Lemma handleMessage_short (this : ZmqService Callback) message :
  index (split " "%char message) 12 = None ->
  snd (handleMessage extractMessageType getPayload this message) = []
  /\ (index (split " "%char message) 0 = Some "tx" ->
      own (_subscriptions this) "tx" <> None ->
      handleMessage extractMessageType getPayload this message = (Throws TypeError, []))
  /\ (index (split " "%char message) 0 <> Some "tx"
      \/ own (_subscriptions this) "tx" = None ->
      handleMessage extractMessageType getPayload this message = (Returns tt, [])).
Proof.
  intros Hshort.
  destruct (handleMessage_handled this message)
    as [Hdrop | Hev Htx Hnotag | t mt Hev Htx Htag Hpre Hmt
        | first rest t mt Hev Htx Htag Hpre Hmt]; cbn [snd]; try congruence.
  - split; [reflexivity|]. split; [|reflexivity].
    intros Hev Htx. exfalso.
    destruct Hdrop as [H|[H|[t [Ht _]]]]; congruence.
  - split; [reflexivity|]. split; [reflexivity|].
    intros [H|H]; congruence.
Qed.

(** C2. A message of exactly 13 single-space-separated fields whose
    field 0 is "tx" and whose tag (field 12) is known to the decoder and
    starts with the configured prefix, received while "tx" has at least
    one subscriber, makes [handleMessage] call exactly one subscriber
    callback, with event "tx" and a payload whose timestamp is
    [parseInt(field 5, 10)], whose hash is field 1, whose address is
    field 2 and whose tag is field 12.  The parse is spelled out: when
    field 5 is white space, an optional sign, a run of digits and
    anything that starts with no digit, the timestamp is the double
    nearest to the integer the digits denote, with the sign; it is that
    integer itself below 2^53. *)
Theorem handleMessage_delivers_tx
    (this : ZmqService Callback) message first rest t mt :
  let fields := split " "%char message in
  List.length fields = 13 ->
  index fields 0 = Some "tx" ->
  index fields 12 = Some t ->
  extractMessageType t = Some mt ->
  String.prefix (prefix (_config this)) t = true ->
  own (_subscriptions this) "tx" = Some (first :: rest) ->
  exists payload,
    handleMessage extractMessageType getPayload this message =
      (Returns tt, [CallbackCall (callback first) (Some "tx") payload])
    /\ timestamp payload = parseInt10 (nth 5 fields "")
    /\ (forall cps sgn ds trailing,
          nth 5 fields "" = (text_of cps ++ sgn ++ ds ++ trailing)%string ->
          Forall (fun cp => In cp white_space_code_points) cps ->
          In sgn [""; "+"; "-"] ->
          all_digits ds = true ->
          ds <> EmptyString ->
          no_digit_ahead trailing ->
          timestamp payload =
            to_number (String.eqb sgn "-") (Some (decimal ds))
          /\ ((decimal ds < 2 ^ 53)%Z ->
              (sgn = "-" -> decimal ds <> 0%Z) ->
              timestamp payload = Int (signed sgn (decimal ds))))
    /\ hash payload = Some (nth 1 fields "")
    /\ address payload = Some (nth 2 fields "")
    /\ tag payload = Some (nth 12 fields "")
    /\ tag payload = Some t
    /\ messageType payload = mt
    /\ data payload = getPayload (Some (nth 8 fields "")).
Proof.
  intros fields Hlen Hev Htag Hmt Hpre Htx. subst fields.
  exists (buildPayload (getPayload (index (split " "%char message) 8)) mt
            (split " "%char message)).
  split.
  - apply (handleMessage_sends this message first rest t mt); assumption.
  - split; [|split].
    + unfold buildPayload. cbn [timestamp].
      rewrite index_nth by lia. reflexivity.
    + intros cps sgn ds trailing Hfield.
      apply timestamp_of_numeral.
      rewrite index_nth by lia. rewrite Hfield. reflexivity.
    + unfold buildPayload.
      cbn [timestamp hash address tag messageType data].
      rewrite <- Htag.
      rewrite !index_nth by lia.
      repeat split; reflexivity.
Qed.

(** C6. Whatever the message and however many subscribers "tx" has,
    [handleMessage] calls nothing, or calls once the callback of the
    head of the "tx" subscriber list and nothing else. *)
Theorem handleMessage_calls_first_subscriber_only
    (this : ZmqService Callback) message :
  snd (handleMessage extractMessageType getPayload this message) = []
  \/ exists first rest payload,
       own (_subscriptions this) "tx" = Some (first :: rest)
       /\ snd (handleMessage extractMessageType getPayload this message) =
            [CallbackCall (callback first) (Some "tx") payload].
Proof.
  destruct (handleMessage_handled this message)
    as [_ | _ _ _ | t mt _ _ _ _ _ | first rest t mt _ Htx _ _ _]; cbn; auto.
  right. unfold dispatch. eauto.
Qed.

(** C7. [handleMessage] makes a call only when field 0 is "tx", "tx" has
    a subscriber, and the tag (field 12) is known to the decoder and
    starts with the configured prefix.  A 13-field message whose tag
    does not start with the prefix, and any message whose field 0 is
    "block", returns normally without a call. *)
Theorem handleMessage_filters (this : ZmqService Callback) message :
  let fields := split " "%char message in
  (snd (handleMessage extractMessageType getPayload this message) <> [] ->
     index fields 0 = Some "tx"
     /\ (exists first rest, own (_subscriptions this) "tx" = Some (first :: rest))
     /\ exists t, index fields 12 = Some t
                  /\ extractMessageType t <> None
                  /\ String.prefix (prefix (_config this)) t = true)
  /\ (forall t, List.length fields = 13 -> index fields 12 = Some t ->
                String.prefix (prefix (_config this)) t = false ->
                handleMessage extractMessageType getPayload this message =
                  (Returns tt, []))
  /\ (index fields 0 = Some "block" ->
      handleMessage extractMessageType getPayload this message = (Returns tt, [])).
Proof.
  intros fields. subst fields.
  destruct (handleMessage_handled this message)
    as [Hdrop | Hev Htx Hnotag | t mt Hev Htx Htag Hpre Hmt
        | first rest t mt Hev Htx Htag Hpre Hmt]; cbn [snd].
  - split; [congruence|]. split; auto.
  - split; [congruence|]. split; intros; congruence.
  - split; [congruence|]. split; intros; congruence.
  - split; [|split; intros; congruence].
    intros _. split; [assumption|]. split; [eauto|].
    exists t. split; [assumption|]. split; [congruence|assumption].
Qed.

(** C10. Every callback [handleMessage] calls belongs to a subscription
    held under the key "tx", and is called with event "tx"; without a
    "tx" key nothing is called whatever else is registered, and the
    outcome depends on the registry through its "tx" entry alone. *)
Theorem handleMessage_reaches_tx_subscribers_only
    (this : ZmqService Callback) message :
  (forall cb event payload,
      In (CallbackCall cb event payload)
         (snd (handleMessage extractMessageType getPayload this message)) ->
      event = Some "tx"
      /\ exists subs s, own (_subscriptions this) "tx" = Some subs
                        /\ In s subs /\ callback s = cb)
  /\ (own (_subscriptions this) "tx" = None ->
      handleMessage extractMessageType getPayload this message = (Returns tt, []))
  /\ (forall this' : ZmqService Callback,
        _config this' = _config this ->
        own (_subscriptions this') "tx" = own (_subscriptions this) "tx" ->
        handleMessage extractMessageType getPayload this' message =
          handleMessage extractMessageType getPayload this message).
Proof.
  split; [|split].
  - intros cb event payload Hin.
    destruct (handleMessage_handled this message)
      as [_ | _ _ _ | t mt _ _ _ _ _ | first rest t mt _ Htx _ _ _];
      cbn [snd] in Hin; try (destruct Hin; fail).
    destruct Hin as [Heq|[]]. unfold dispatch in Heq.
    injection Heq as <- <- _. split; [reflexivity|].
    exists (first :: rest), first. split; [assumption|].
    split; [left|]; reflexivity.
  - intros Hnone.
    destruct (handleMessage_handled this message)
      as [_ | _ Htx _ | t mt _ Htx _ _ _ | first rest t mt _ Htx _ _ _];
      congruence.
  - intros this' Hcfg Htx. unfold handleMessage.
    destruct (index (split " "%char message) 0) as [e|] eqn:Eev;
      cbn [strict_eq to_string andb]; [|reflexivity].
    destruct (String.eqb_spec e "tx") as [->|Hne]; cbn [andb]; [|reflexivity].
    unfold registered, sendEvent. rewrite Eev. cbn [to_string].
    rewrite !get_tx, Htx, Hcfg. reflexivity.
Qed.

(** C3 as amended.  A message with fewer than 13 fields never reaches a
    callback: with field 0 "tx" and a "tx" entry in the registry the
    handler throws a [TypeError] before any call, otherwise it returns
    without a call.  The timestamp is not validated: a 13-field message
    that passes the filters is dispatched with timestamp [NaN] when
    field 5 does not parse. *)
Theorem handleMessage_malformed (this : ZmqService Callback) message :
  let fields := split " "%char message in
  (List.length fields < 13 ->
     snd (handleMessage extractMessageType getPayload this message) = []
     /\ (index fields 0 = Some "tx" ->
         own (_subscriptions this) "tx" <> None ->
         handleMessage extractMessageType getPayload this message =
           (Throws TypeError, []))
     /\ (index fields 0 <> Some "tx" \/ own (_subscriptions this) "tx" = None ->
         handleMessage extractMessageType getPayload this message = (Returns tt, [])))
  /\ (forall first rest t mt,
        List.length fields = 13 ->
        index fields 0 = Some "tx" ->
        index fields 12 = Some t ->
        extractMessageType t = Some mt ->
        String.prefix (prefix (_config this)) t = true ->
        own (_subscriptions this) "tx" = Some (first :: rest) ->
        parseInt10 (nth 5 fields "") = NaN ->
        exists payload,
          handleMessage extractMessageType getPayload this message =
            (Returns tt, [CallbackCall (callback first) (Some "tx") payload])
          /\ timestamp payload = NaN).
Proof.
  intros fields. subst fields. split.
  - intros Hlen. apply handleMessage_short.
    unfold index. apply nth_error_None. lia.
  - intros first rest t mt Hlen Hev Htag Hmt Hpre Htx Hnan.
    eexists. split.
    + apply (handleMessage_sends this message first rest t mt); assumption.
    + unfold buildPayload. cbn [timestamp].
      rewrite index_nth by lia. unfold parseInt. cbn [to_string]. assumption.
Qed.

(** ** Facts about subscribing *)

Lemma subscribe_registered env fresh (this : ZmqService Callback) event cb subs :
  own (_subscriptions this) event = Some subs ->
  subscribe env fresh this event cb =
    finish fresh []
      (connect env
         (with_subscriptions this
            (set (_subscriptions this) event (subs ++ [mkSubscription fresh cb])))).
Proof.
  intros Hown. unfold subscribe, internalAddEventCallback, get.
  rewrite Hown. cbn iota. unfold get. rewrite Hown. reflexivity.
Qed.

Lemma subscribe_new_event env fresh (this : ZmqService Callback) event cb :
  own (_subscriptions this) event = None ->
  inherited event = false ->
  subscribe env fresh this event cb =
    finish fresh
      (match _socket this with Some _ => [SocketSubscribe event] | None => [] end)
      (connect env
         (with_subscriptions this
            (set (set (_subscriptions this) event []) event
               [mkSubscription fresh cb]))).
Proof.
  intros Hown Hinh. unfold subscribe, internalAddEventCallback, get.
  rewrite Hown, Hinh. cbn iota. cbn [_subscriptions with_subscriptions].
  unfold get. rewrite own_set_same. reflexivity.
Qed.

Lemma subscribe_inherited env fresh (this : ZmqService Callback) event cb :
  own (_subscriptions this) event = None ->
  inherited event = true ->
  subscribe env fresh this event cb = (Throws TypeError, this, []).
Proof.
  intros Hown Hinh. unfold subscribe, internalAddEventCallback, get.
  rewrite Hown, Hinh. cbn iota. unfold get. rewrite Hown. reflexivity.
Qed.

Lemma connect_failure env err (this : ZmqService Callback) :
  _socket this = None ->
  open_error env = Some err ->
  exists sock eff,
    connect env this =
      (Throws (unable_to_connect err), with_socket this sock, eff).
Proof.
  intros Hsock Herr. unfold connect. rewrite Hsock.
  destruct env; cbn in Herr; try discriminate;
    injection Herr as ->; eexists _, _; try reflexivity.
  destruct this; cbn in *; subst; reflexivity.
Qed.

(** C4. When a subscription needs to open the socket and the open
    throws, [subscribe] throws an [Error] whose message starts with
    "Unable to connect" and carries the cause, and the registry keeps
    the mutation made before the attempt: the list of [event] is its
    previous list followed by the new entry (the key being created when
    it was absent), and the other keys are untouched. *)
Theorem subscribe_open_failure_keeps_entry
    env err fresh (this : ZmqService Callback) event cb :
  _socket this = None ->
  open_error env = Some err ->
  get (_subscriptions this) event <> Inherited ->
  exists this' eff msg,
    subscribe env fresh this event cb = (Throws (Error msg), this', eff)
    /\ msg = ("Unable to connect to ZMQ." ++ newline ++ err)%string
    /\ String.prefix "Unable to connect" msg = true
    /\ own (_subscriptions this') event =
         Some (previous this event ++ [mkSubscription fresh cb])
    /\ (forall k, k <> event ->
          own (_subscriptions this') k = own (_subscriptions this) k).
Proof.
  intros Hsock Herr Hget. unfold previous.
  destruct (own (_subscriptions this) event) as [subs|] eqn:Hown.
  - rewrite (subscribe_registered _ _ _ _ _ subs Hown).
    edestruct (connect_failure env err) as [sock [eff ->]];
      [|eassumption|]; [cbn; assumption|].
    cbn. eexists _, _, _. split; [reflexivity|]. split; [reflexivity|].
    split; [reflexivity|]. cbn. split.
    + apply own_set_same.
    + intros k Hk. apply own_set_other. assumption.
  - assert (inherited event = false) as Hinh.
    { unfold get in Hget. rewrite Hown in Hget.
      destruct (inherited event); congruence. }
    rewrite (subscribe_new_event _ _ _ _ _ Hown Hinh).
    edestruct (connect_failure env err) as [sock [eff ->]];
      [|eassumption|]; [cbn; assumption|].
    rewrite Hsock.
    cbn. eexists _, _, _. split; [reflexivity|]. split; [reflexivity|].
    split; [reflexivity|]. cbn. split.
    + apply own_set_same.
    + intros k Hk. rewrite !own_set_other by assumption. reflexivity.
Qed.

(** ** The connection follows the registry *)

Lemma track_app b t1 t2 :
  track b (t1 ++ t2) =
    match track b t1 with
    | Some b1 => track b1 t2
    | None => None
    end.
Proof.
  revert b. induction t1 as [|e t1 IH]; intros b; [reflexivity|].
  destruct e; cbn; try apply IH; destruct b; auto.
Qed.

Lemma track_subscribes b ks : track b (map SocketSubscribe ks) = Some b.
Proof. induction ks; cbn; auto. Qed.

Lemma track_firstn b b' t m :
  track b t = Some b' -> exists b'', track b (firstn m t) = Some b''.
Proof.
  revert b m. induction t as [|e t IH]; intros b m H.
  - destruct m; cbn; eauto.
  - destruct m as [|m]; [cbn; eauto|].
    destruct e; cbn in *; try (apply IH; assumption);
      destruct b; try discriminate; apply IH; assumption.
Qed.

Lemma track_open_count b b' t :
  track b t = Some b' -> (open_count t = Z.b2z b' - Z.b2z b)%Z.
Proof.
  revert b. induction t as [|e t IH]; intros b H.
  - cbn [track open_count] in *. injection H as <-. lia.
  - destruct e; cbn [track open_count] in *; try (apply IH; assumption);
      destruct b; try discriminate; apply IH in H;
      cbn [Z.b2z] in *; lia.
Qed.

Lemma holds_socket_true (this : ZmqService Callback) :
  holds_socket this = true <-> _socket this <> None.
Proof.
  unfold holds_socket. destruct (_socket this); split; congruence.
Qed.

Lemma connect_ok (this : ZmqService Callback) :
  exists this' eff,
    connect OpenOk this = (Returns tt, this', eff)
    /\ holds_socket this' = true
    /\ _subscriptions this' = _subscriptions this
    /\ track (holds_socket this) eff = Some true.
Proof.
  unfold connect, holds_socket. destruct (_socket this) eqn:E.
  - eexists _, _. split; [reflexivity|]. rewrite E. auto.
  - eexists _, _. split; [reflexivity|]. cbn.
    rewrite track_subscribes. auto.
Qed.

(** A subscription whose open succeeds either throws before any change
    (an inherited name) or leaves a socket and a non-empty registry. *)
Lemma subscribe_ok fresh (this : ZmqService Callback) event cb :
  exists r this' eff,
    subscribe OpenOk fresh this event cb = (r, this', eff)
    /\ ((r = Throws TypeError /\ this' = this /\ eff = [])
        \/ (r = Returns fresh /\ holds_socket this' = true
            /\ _subscriptions this' <> []
            /\ track (holds_socket this) eff = Some true)).
Proof.
  destruct (own (_subscriptions this) event) as [subs|] eqn:Hown;
    [|destruct (inherited event) eqn:Hinh].
  - rewrite (subscribe_registered _ _ _ _ _ subs Hown).
    destruct (connect_ok
                (with_subscriptions this
                   (set (_subscriptions this) event
                      (subs ++ [mkSubscription fresh cb]))))
      as [this' [eff [-> [Hs [Hr Ht]]]]].
    cbn. eexists _, _, _. split; [reflexivity|]. right.
    split; [reflexivity|]. split; [assumption|]. split; [|assumption].
    rewrite Hr. cbn. apply set_not_nil.
  - rewrite (subscribe_inherited _ _ _ _ _ Hown Hinh).
    eexists _, _, _. split; [reflexivity|]. left. auto.
  - rewrite (subscribe_new_event _ _ _ _ _ Hown Hinh).
    destruct (connect_ok
                (with_subscriptions this
                   (set (set (_subscriptions this) event []) event
                      [mkSubscription fresh cb])))
      as [this' [eff [-> [Hs [Hr Ht]]]]].
    cbn. eexists _, _, _. split; [reflexivity|]. right.
    split; [reflexivity|]. split; [assumption|]. split.
    + rewrite Hr. cbn. apply set_not_nil.
    + unfold holds_socket in *. cbn in Ht.
      destruct (_socket this); cbn; assumption.
Qed.

Lemma remove_at_connected (this : ZmqService Callback) eventKey subs j :
  connected_iff_registered this ->
  own (_subscriptions this) eventKey = Some subs ->
  exists r this' eff,
    remove_at this eventKey subs j = (r, this', eff)
    /\ connected_iff_registered this'
    /\ track (holds_socket this) eff = Some (holds_socket this').
Proof.
  forget_collaborators.
  intros Hinv Hown.
  assert (holds_socket this = true) as Hs.
  { apply Hinv. intros E. rewrite E in Hown. discriminate. }
  unfold remove_at. cbn [_socket _subscriptions with_subscriptions].
  unfold holds_socket in Hs.
  destruct (_socket this) as [sock|] eqn:Esock; [clear Hs|discriminate].
  assert (forall o : Obj (list (Subscription Callback)), o <> [] ->
            connected_iff_registered (mkService (_config this) (Some sock) o))
    as Hkeep.
  { intros o Ho. unfold connected_iff_registered, holds_socket. cbn. tauto. }
  destruct (Nat.eqb (List.length (splice1 j subs)) 0).
  - destruct (Nat.eqb (List.length (keys (delete _ eventKey))) 0) eqn:Elast.
    + unfold disconnect, with_socket, holds_socket. cbn. rewrite Esock. cbn.
      eexists _, _, _. split; [reflexivity|]. split; [|reflexivity].
      apply keys_nil_iff in Elast. unfold connected_iff_registered.
      cbn. rewrite Elast. split; congruence.
    + eexists _, _, _. split; [reflexivity|].
      unfold holds_socket, with_subscriptions. cbn. rewrite Esock.
      split; [|reflexivity]. apply Hkeep.
      intros E. rewrite E in Elast. discriminate.
  - eexists _, _, _. split; [reflexivity|].
    unfold holds_socket, with_subscriptions. cbn. rewrite Esock.
    split; [|reflexivity]. apply Hkeep. apply set_not_nil.
Qed.

Lemma unsubscribe_from_connected ks (this : ZmqService Callback) subscriptionId :
  connected_iff_registered this ->
  exists r this' eff,
    unsubscribe_from ks this subscriptionId = (r, this', eff)
    /\ connected_iff_registered this'
    /\ track (holds_socket this) eff = Some (holds_socket this').
Proof.
  intros Hinv. induction ks as [|k ks IH]; cbn.
  - eexists _, _, _. split; [reflexivity|]. auto.
  - destruct (own (_subscriptions this) k) as [subs|] eqn:Hown.
    + destruct (index_of subscriptionId subs) as [j|]; [|assumption].
      apply remove_at_connected; assumption.
    + eexists _, _, _. split; [reflexivity|]. auto.
Qed.

Lemma subscribeEvent_subscribe : @subscribeEvent Callback = @subscribe Callback.
Proof. reflexivity. Qed.

Lemma after_subscription_connected (r : Run Callback) event cb :
  connection_follows_registry r ->
  connection_follows_registry
    (after_subscription r
       (subscribe OpenOk (uuid_v4 (draws r)) (service r) event cb)).
Proof.
  forget_collaborators.
  intros [Hinv Htr].
  destruct (subscribe_ok (uuid_v4 (draws r)) (service r) event cb)
    as [res [this' [eff [-> [[-> [-> ->]]|[-> [Hs [Hne Ht]]]]]]]];
    unfold connection_follows_registry; cbn.
  - rewrite app_nil_r. auto.
  - split.
    + unfold connected_iff_registered. tauto.
    + rewrite track_app, Htr, Hs. assumption.
Qed.

Lemma step_connected (r : Run Callback) c :
  opens_succeed c ->
  connection_follows_registry r ->
  connection_follows_registry (step uuid_v4 r c).
Proof.
  intros Hok Hr. destruct c as [event cb env|event cb env|i]; cbn in Hok.
  - subst env. cbn [step]. apply after_subscription_connected. assumption.
  - subst env. cbn [step]. rewrite subscribeEvent_subscribe.
    apply after_subscription_connected. assumption.
  - destruct Hr as [Hinv Htr]. cbn [step]. unfold unsubscribe.
    destruct (unsubscribe_from_connected
                (keys (_subscriptions (service r))) (service r) i Hinv)
      as [res [this' [eff [-> [Hinv' Ht]]]]].
    split; cbn; [assumption|].
    rewrite track_app, Htr. assumption.
Qed.

Lemma fold_step_connected (calls : list (Call Callback)) (r : Run Callback) :
  Forall opens_succeed calls ->
  connection_follows_registry r ->
  connection_follows_registry (fold_left (step uuid_v4) calls r).
Proof.
  revert r. induction calls as [|c calls IH]; intros r Hok Hr; [assumption|].
  inversion Hok; subst. cbn. apply IH; [assumption|].
  apply step_connected; assumption.
Qed.

Lemma Forall_firstn {A : Type} (P : A -> Prop) n (l : list A) :
  Forall P l -> Forall P (firstn n l).
Proof.
  revert n. induction l as [|x l IH]; intros n H.
  - destruct n; constructor.
  - destruct n as [|n]; [constructor|].
    inversion H; subst. cbn. constructor; auto.
Qed.

(** C1. Along any sequence of subscribe and unsubscribe calls made on a
    fresh service, every socket open succeeding, after each call the
    socket handle is held exactly when the registry has a key; at every
    point of the trace at most one socket is created and not yet
    closed, that number being one exactly when the handle is held; and
    [connect] on a service that holds its handle changes nothing and
    calls nothing. *)
Theorem connection_open_iff_registry_nonempty config (calls : list (Call Callback)) n :
  Forall opens_succeed calls ->
  let r := run uuid_v4 config (firstn n calls) in
  (_socket (service r) <> None <-> _subscriptions (service r) <> [])
  /\ (forall m, (0 <= open_count (firstn m (trace r)) <= 1)%Z)
  /\ (open_count (trace r) = if holds_socket (service r) then 1 else 0)%Z
  /\ (forall env, _socket (service r) <> None ->
                  connect env (service r) = (Returns tt, service r, [])).
Proof.
  intros Hok r.
  assert (connection_follows_registry r) as [Hinv Htr].
  { apply fold_step_connected.
    - apply Forall_firstn. assumption.
    - split; cbn; [|reflexivity].
      unfold connected_iff_registered. cbn. split; congruence. }
  split; [|split; [|split]].
  - rewrite <- holds_socket_true. exact Hinv.
  - intros m. destruct (track_firstn _ _ _ m Htr) as [b Hb].
    apply track_open_count in Hb. rewrite Hb. destruct b; cbn; lia.
  - apply track_open_count in Htr. rewrite Htr.
    destruct (holds_socket (service r)); reflexivity.
  - intros env Hs. unfold connect.
    destruct (_socket (service r)); [reflexivity|congruence].
Qed.

(** ** Identifiers *)

Lemma own_In {V : Type} (o : Obj V) k v : own o k = Some v -> In (k, v) o.
Proof.
  induction o as [|[k' v'] o IH]; simpl; [discriminate|].
  destruct (String.eqb_spec k' k) as [->|Hne].
  - intros H. injection H as ->. auto.
  - auto.
Qed.

Lemma in_all_ids (o : Obj (list (Subscription Callback))) x :
  In x (all_ids o) <-> exists k subs s, In (k, subs) o /\ In s subs /\ id s = x.
Proof.
  unfold all_ids. rewrite in_flat_map. split.
  - intros [[k subs] [Hin Hx]]. cbn in Hx. apply in_map_iff in Hx.
    destruct Hx as [s [Hs Hin']]. eauto 6.
  - intros [k [subs [s [Hin [Hs Hx]]]]]. exists (k, subs). split; [assumption|].
    cbn. apply in_map_iff. eauto.
Qed.

Lemma own_in_all_ids (o : Obj (list (Subscription Callback))) k subs s :
  own o k = Some subs -> In s subs -> In (id s) (all_ids o).
Proof.
  intros Hown Hs. apply in_all_ids. exists k, subs, s.
  split; [apply own_In; assumption|]. auto.
Qed.

Lemma NoDup_app_disjoint {A : Type} (l l' : list A) x :
  NoDup (l ++ l') -> In x l -> In x l' -> False.
Proof.
  induction l as [|a l IH]; cbn; intros Hnd Hl Hl'; [assumption|].
  apply NoDup_cons_iff in Hnd. destruct Hnd as [Ha Hnd].
  destruct Hl as [->|Hl].
  - apply Ha. apply in_app_iff. auto.
  - auto.
Qed.

Lemma NoDup_map_injective {A B : Type} (f : A -> B) (l : list A) a b :
  NoDup (map f l) -> In a l -> In b l -> f a = f b -> a = b.
Proof.
  induction l as [|x l IH]; cbn; intros Hnd Ha Hb Hf; [destruct Ha|].
  apply NoDup_cons_iff in Hnd. destruct Hnd as [Hx Hnd].
  destruct Ha as [->|Ha], Hb as [->|Hb]; auto.
  - exfalso. apply Hx. rewrite Hf. apply in_map. assumption.
  - exfalso. apply Hx. rewrite <- Hf. apply in_map. assumption.
Qed.

Lemma all_ids_cons (o : Obj (list (Subscription Callback))) k subs :
  all_ids ((k, subs) :: o) = map id subs ++ all_ids o.
Proof. reflexivity. Qed.

(** Where the list of a key sits among all the ids, and what replacing
    it does. *)
Lemma all_ids_own (o : Obj (list (Subscription Callback))) k subs :
  own o k = Some subs ->
  exists A B,
    all_ids o = A ++ map id subs ++ B
    /\ forall subs', all_ids (replace o k subs') = A ++ map id subs' ++ B.
Proof.
  induction o as [|[k' v'] o IH]; [discriminate|].
  cbn [own replace]. destruct (String.eqb_spec k' k) as [->|Hne].
  - intros H. injection H as ->. exists [], (all_ids o).
    split; [reflexivity|]. intros subs'. reflexivity.
  - intros H. destruct (IH H) as [A [B [E1 E2]]].
    exists (map id v' ++ A), B. split.
    + rewrite all_ids_cons, E1, app_assoc. reflexivity.
    + intros subs'. rewrite all_ids_cons, E2, app_assoc. reflexivity.
Qed.

Lemma all_ids_insert_nil (o : Obj (list (Subscription Callback))) k :
  all_ids (insert o k []) = all_ids o.
Proof.
  unfold all_ids.
  induction o as [|[k' v'] o IH]; cbn; [reflexivity|].
  destruct (key_before k k'); cbn; [reflexivity|].
  rewrite IH. reflexivity.
Qed.

Lemma all_ids_delete (o : Obj (list (Subscription Callback))) k :
  (forall x, In x (all_ids (delete o k)) -> In x (all_ids o))
  /\ (NoDup (all_ids o) -> NoDup (all_ids (delete o k))).
Proof.
  unfold all_ids.
  induction o as [|[k' v'] o [IH1 IH2]]; cbn; [auto|].
  destruct (String.eqb k' k); cbn.
  - split.
    + intros x Hx. apply in_app_iff. auto.
    + intros Hnd. apply IH2. eapply NoDup_app_remove_l. eassumption.
  - split.
    + intros x Hx. apply in_app_iff in Hx. apply in_app_iff.
      destruct Hx; auto.
    + intros Hnd. apply NoDup_app.
      * eapply NoDup_app_remove_r. eassumption.
      * apply IH2. eapply NoDup_app_remove_l. eassumption.
      * intros x Hx Hx'. eapply NoDup_app_disjoint; eauto.
Qed.

Lemma index_of_some subscriptionId (subs : list (Subscription Callback)) j :
  index_of subscriptionId subs = Some j ->
  exists l1 s l2,
    subs = l1 ++ s :: l2 /\ id s = subscriptionId
    /\ splice1 j subs = l1 ++ l2.
Proof.
  revert j. induction subs as [|s subs IH]; cbn; intros j H; [discriminate|].
  destruct (String.eqb_spec (id s) subscriptionId) as [E|Hne].
  - injection H as <-. exists [], s, subs. auto.
  - destruct (index_of subscriptionId subs) as [j'|]; [|discriminate].
    injection H as <-. destruct (IH j' eq_refl) as [l1 [s' [l2 [E1 [E2 E3]]]]].
    exists (s :: l1), s', l2. subst subs. split; [reflexivity|].
    split; [assumption|]. unfold splice1 in *. cbn. f_equal. assumption.
Qed.

Lemma all_ids_after_add (o : Obj (list (Subscription Callback))) event e :
  exists A B,
    all_ids o = A ++ B
    /\ all_ids (registry_after_add o event e) = A ++ id e :: B.
Proof.
  unfold registry_after_add.
  destruct (own o event) as [subs|] eqn:Hown.
  - destruct (all_ids_own o event subs Hown) as [A [B [E1 E2]]].
    exists (A ++ map id subs), B. unfold set. rewrite Hown, E1, E2.
    rewrite map_app. cbn. rewrite <- !app_assoc. cbn. auto.
  - assert (own (insert o event []) event = Some []) as Hins.
    { apply own_insert_same. assumption. }
    destruct (all_ids_own _ event [] Hins) as [A [B [E1 E2]]].
    exists A, B. unfold set at 2. rewrite Hown.
    unfold set. rewrite Hins, E2. cbn.
    rewrite <- (all_ids_insert_nil o event), E1. auto.
Qed.

Lemma all_ids_after_remove (o : Obj (list (Subscription Callback))) k subs i j :
  own o k = Some subs ->
  index_of i subs = Some j ->
  exists A B,
    all_ids o = A ++ i :: B
    /\ all_ids (set o k (splice1 j subs)) = A ++ B.
Proof.
  intros Hown Hidx.
  destruct (index_of_some _ _ _ Hidx) as [l1 [s [l2 [E1 [E2 E3]]]]].
  destruct (all_ids_own o k subs Hown) as [A [B [F1 F2]]].
  exists (A ++ map id l1), (map id l2 ++ B).
  unfold set. rewrite Hown, F1, F2, E3. subst subs i.
  rewrite !map_app. cbn. rewrite <- !app_assoc. cbn. auto.
Qed.

Lemma connect_keeps_registry env (this : ZmqService Callback) :
  exists r this' eff,
    connect env this = (r, this', eff)
    /\ _subscriptions this' = _subscriptions this
    /\ _config this' = _config this.
Proof.
  unfold connect. destruct (_socket this); [|destruct env];
    eexists _, _, _; (split; [reflexivity|]); auto.
Qed.

(** A subscription throws before any change, or leaves the registry of
    a completed addition, whether or not it then returns. *)
Lemma subscribe_registry env fresh (this : ZmqService Callback) event cb :
  exists res this' eff,
    subscribe env fresh this event cb = (res, this', eff)
    /\ _config this' = _config this
    /\ ((res = Throws TypeError /\ this' = this)
        \/ (_subscriptions this' =
              registry_after_add (_subscriptions this) event
                (mkSubscription fresh cb)
            /\ forall i, res = Returns i -> i = fresh)).
Proof.
  unfold registry_after_add.
  destruct (own (_subscriptions this) event) as [subs|] eqn:Hown;
    [|destruct (inherited event) eqn:Hinh].
  - rewrite (subscribe_registered _ _ _ _ _ subs Hown).
    match goal with |- context [connect env ?t] =>
      destruct (connect_keeps_registry env t) as [r [this' [eff [-> [Hr Hc]]]]]
    end.
    cbn. eexists _, _, _. split; [reflexivity|]. split; [assumption|].
    right. split; [assumption|].
    intros i Hi. destruct r; congruence.
  - rewrite (subscribe_inherited _ _ _ _ _ Hown Hinh).
    eexists _, _, _. split; [reflexivity|]. auto.
  - rewrite (subscribe_new_event _ _ _ _ _ Hown Hinh).
    match goal with |- context [connect env ?t] =>
      destruct (connect_keeps_registry env t) as [r [this' [eff [-> [Hr Hc]]]]]
    end.
    cbn. eexists _, _, _. split; [reflexivity|]. split; [assumption|].
    right. split; [assumption|].
    intros i Hi. destruct r; congruence.
Qed.

Lemma remove_at_registry (this : ZmqService Callback) k subs j :
  exists res this' eff,
    remove_at this k subs j = (res, this', eff)
    /\ _config this' = _config this
    /\ (_subscriptions this' = set (_subscriptions this) k (splice1 j subs)
        \/ _subscriptions this' =
             delete (set (_subscriptions this) k (splice1 j subs)) k)
    /\ (_socket this' = _socket this \/ _subscriptions this' = []).
Proof.
  unfold remove_at. cbn [_socket _subscriptions with_subscriptions].
  destruct (Nat.eqb (List.length (splice1 j subs)) 0).
  - destruct (_socket this) eqn:Esock.
    + destruct (Nat.eqb _ 0) eqn:Elast.
      * unfold disconnect. cbn. rewrite Esock.
        apply keys_nil_iff in Elast.
        eexists _, _, _. split; [reflexivity|]. cbn. auto.
      * eexists _, _, _. split; [reflexivity|]. cbn. auto.
    + eexists _, _, _. split; [reflexivity|]. cbn. auto.
  - eexists _, _, _. split; [reflexivity|]. cbn. auto.
Qed.

Lemma unsubscribe_from_registry ks (this : ZmqService Callback) i :
  exists res this' eff,
    unsubscribe_from ks this i = (res, this', eff)
    /\ _config this' = _config this
    /\ (this' = this
        \/ exists k subs j,
             own (_subscriptions this) k = Some subs
             /\ index_of i subs = Some j
             /\ (_subscriptions this' =
                   set (_subscriptions this) k (splice1 j subs)
                 \/ _subscriptions this' =
                      delete (set (_subscriptions this) k (splice1 j subs)) k)
             /\ (_socket this' = _socket this \/ _subscriptions this' = [])).
Proof.
  induction ks as [|k ks IH]; cbn.
  - eexists _, _, _. split; [reflexivity|]. auto.
  - destruct (own (_subscriptions this) k) as [subs|] eqn:Hown.
    + destruct (index_of i subs) as [j|] eqn:Hidx; [|assumption].
      destruct (remove_at_registry this k subs j)
        as [res [this' [eff [-> [Hc [Hr Hs]]]]]].
      eexists _, _, _. split; [reflexivity|]. split; [assumption|].
      right. exists k, subs, j. auto.
    + eexists _, _, _. split; [reflexivity|]. auto.
Qed.

(** *** Uniqueness along a run *)

Lemma not_issued_yet n : ~ issued_before uuid_v4 n (uuid_v4 n).
Proof using uuid_v4_fresh. intros [j [Hj E]]. apply uuid_v4_fresh in E. lia. Qed.

Lemma issued_before_S n x : issued_before uuid_v4 n x -> issued_before uuid_v4 (S n) x.
Proof. intros [j [Hj E]]. exists j. split; [lia|assumption]. Qed.

Lemma after_subscription_unique (r : Run Callback) env event cb :
  ids_unique uuid_v4 r ->
  ids_unique uuid_v4
    (after_subscription r
       (subscribe env (uuid_v4 (draws r)) (service r) event cb)).
Proof using uuid_v4_fresh.
  intros [Hnd [Hiss [Hrnd Hriss]]].
  destruct (subscribe_registry env (uuid_v4 (draws r)) (service r) event cb)
    as [res [this' [eff [-> [_ Hcase]]]]].
  unfold ids_unique. cbn.
  assert (NoDup (all_ids (_subscriptions this'))
          /\ forall x, In x (all_ids (_subscriptions this')) ->
                       issued_before uuid_v4 (S (draws r)) x) as [Hnd' Hiss'].
  { destruct Hcase as [[_ ->]|[-> _]].
    - split; [assumption|]. intros x Hx. apply issued_before_S. auto.
    - destruct (all_ids_after_add (_subscriptions (service r)) event
                  (mkSubscription (uuid_v4 (draws r)) cb))
        as [A [B [E1 E2]]].
      rewrite E2. rewrite E1 in Hnd, Hiss. cbn. split.
      + apply NoDup_Add with (a := uuid_v4 (draws r)) (l := A ++ B).
        * apply Add_app.
        * split; [assumption|]. intros Hin.
          apply (not_issued_yet (draws r)). auto.
      + intros x Hx. apply in_app_iff in Hx. cbn in Hx.
        destruct Hx as [Hx|[<-|Hx]].
        * apply issued_before_S, Hiss, in_app_iff. auto.
        * exists (draws r). split; [lia|reflexivity].
        * apply issued_before_S, Hiss, in_app_iff. auto. }
  split; [assumption|]. split; [assumption|].
  destruct res as [i|e].
  - assert (i = uuid_v4 (draws r)) as ->.
    { destruct Hcase as [[E _]|[_ E]]; [discriminate|]. apply E. reflexivity. }
    split.
    + apply NoDup_Add with (a := uuid_v4 (draws r)) (l := returned r).
      * rewrite <- (app_nil_r (returned r)) at 1. apply Add_app.
      * split; [assumption|]. intros Hin.
        apply (not_issued_yet (draws r)). auto.
    + intros x Hx. apply in_app_iff in Hx. destruct Hx as [Hx|[<-|[]]].
      * apply issued_before_S. auto.
      * exists (draws r). split; [lia|reflexivity].
  - split; [assumption|]. intros x Hx. apply issued_before_S. auto.
Qed.

Lemma step_unique (r : Run Callback) c :
  ids_unique uuid_v4 r -> ids_unique uuid_v4 (step uuid_v4 r c).
Proof using uuid_v4_fresh.
  forget_router.
  intros Hr. destruct c as [event cb env|event cb env|i]; cbn [step].
  - apply after_subscription_unique. assumption.
  - rewrite subscribeEvent_subscribe. apply after_subscription_unique.
    assumption.
  - destruct Hr as [Hnd [Hiss [Hrnd Hriss]]]. unfold unsubscribe.
    destruct (unsubscribe_from_registry
                (keys (_subscriptions (service r))) (service r) i)
      as [res [this' [eff [-> [_ Hcase]]]]].
    unfold ids_unique. cbn.
    split; [|split; [|split; assumption]].
    + destruct Hcase as [->|[k [subs [j [Hown [Hidx [Hcase _]]]]]]];
        [assumption|].
      destruct (all_ids_after_remove _ _ _ _ _ Hown Hidx) as [A [B [E1 E2]]].
      rewrite E1 in Hnd. apply NoDup_remove_1 in Hnd.
      destruct Hcase as [->| ->].
      * rewrite E2. assumption.
      * apply all_ids_delete. rewrite E2. assumption.
    + intros x Hx. apply Hiss.
      destruct Hcase as [->|[k [subs [j [Hown [Hidx [Hcase _]]]]]]];
        [assumption|].
      destruct (all_ids_after_remove _ _ _ _ _ Hown Hidx) as [A [B [E1 E2]]].
      rewrite E1.
      assert (In x (A ++ B)) as Hin.
      { destruct Hcase as [E|E]; rewrite E in Hx.
        - rewrite <- E2. assumption.
        - rewrite <- E2. eapply all_ids_delete. eassumption. }
      apply in_app_iff in Hin. apply in_app_iff. cbn. tauto.
Qed.

Lemma run_unique config (calls : list (Call Callback)) :
  ids_unique uuid_v4 (run uuid_v4 config calls).
Proof using uuid_v4_fresh.
  unfold run.
  assert (ids_unique uuid_v4 (@start Callback config)) as H0.
  { unfold ids_unique. cbn. repeat split; try constructor; intros x []. }
  revert H0. generalize (@start Callback config).
  induction calls as [|c calls IH]; intros r Hr; cbn; [assumption|].
  apply IH. apply step_unique. assumption.
Qed.

Lemma ids_disjoint_keys (o : Obj (list (Subscription Callback))) k1 k2 v1 v2 s1 s2 :
  NoDup (all_ids o) ->
  own o k1 = Some v1 -> own o k2 = Some v2 -> k1 <> k2 ->
  In s1 v1 -> In s2 v2 -> id s1 <> id s2.
Proof.
  unfold all_ids.
  induction o as [|[k' v'] o IH]; cbn; intros Hnd H1 H2 Hne Hs1 Hs2;
    [discriminate|].
  destruct (String.eqb_spec k' k1) as [E1|Hne1];
    destruct (String.eqb_spec k' k2) as [E|Hne2]; try congruence.
  - injection H1 as ->. intros E.
    apply (NoDup_app_disjoint _ _ (id s1) Hnd).
    + apply in_map. assumption.
    + rewrite E. apply (own_in_all_ids o k2 v2); assumption.
  - subst k'. injection H2 as ->. intros E.
    apply (NoDup_app_disjoint _ _ (id s2) Hnd).
    + apply in_map. assumption.
    + rewrite <- E. apply (own_in_all_ids o k1 v1); assumption.
  - apply IH; auto. eapply NoDup_app_remove_l. eassumption.
Qed.

Lemma own_ids_nodup (o : Obj (list (Subscription Callback))) k subs :
  NoDup (all_ids o) -> own o k = Some subs -> NoDup (map id subs).
Proof.
  intros Hnd Hown. destruct (all_ids_own o k subs Hown) as [A [B [E _]]].
  rewrite E in Hnd. apply NoDup_app_remove_l in Hnd.
  apply NoDup_app_remove_r in Hnd. assumption.
Qed.

Lemma own_after_add (o : Obj (list (Subscription Callback))) event e :
  own (registry_after_add o event e) event =
    Some (match own o event with Some subs => subs | None => [] end ++ [e]).
Proof.
  unfold registry_after_add. destruct (own o event); apply own_set_same.
Qed.

Lemma remove_at_keeps_others (this : ZmqService Callback) k subs j :
  splice1 j subs <> [] ->
  remove_at this k subs j =
    (Returns tt,
     with_subscriptions this (set (_subscriptions this) k (splice1 j subs)),
     []).
Proof.
  intros Hne. unfold remove_at.
  destruct (splice1 j subs); [congruence|reflexivity].
Qed.

(** Removing one of two subscribers of an event leaves the other. *)
Lemma unsubscribe_one_of_two (this : ZmqService Callback) event subs a b :
  NoDup (all_ids (_subscriptions this)) ->
  own (_subscriptions this) event = Some subs ->
  In a subs -> In b subs -> a <> b ->
  id a <> id b
  /\ exists l1 l2,
       subs = l1 ++ a :: l2
       /\ In b (l1 ++ l2)
       /\ unsubscribe this (id a) =
            (Returns tt,
             with_subscriptions this (set (_subscriptions this) event (l1 ++ l2)),
             [])
       /\ (forall k l s,
             own (set (_subscriptions this) event (l1 ++ l2)) k = Some l ->
             In s l -> id s <> id a).
Proof.
  forget_collaborators.
  intros Hnd Hown Ha Hb Hab.
  pose proof (own_ids_nodup _ _ _ Hnd Hown) as Hsubs.
  assert (Hinj : forall x y, In x subs -> In y subs -> id x = id y -> x = y).
  { intros x y Hx Hy. apply (NoDup_map_injective id subs); assumption. }
  split; [intros E; apply Hab; apply Hinj; assumption|].
  destruct (index_of (id a) subs) as [j|] eqn:Hidx.
  2:{ exfalso. rewrite index_of_none in Hidx. apply (Hidx a); auto. }
  destruct (index_of_some _ _ _ Hidx) as [l1 [s [l2 [E1 [E2 E3]]]]].
  assert (s = a) as ->.
  { apply Hinj; auto. subst subs. apply in_app_iff. cbn. auto. }
  assert (NoDup subs) as Hnd' by (eapply NoDup_map_inv; eassumption).
  assert (Hrest : forall x, In x (l1 ++ l2) -> In x subs /\ x <> a).
  { intros x Hx. split.
    - subst subs. apply in_app_iff in Hx. apply in_app_iff. cbn. tauto.
    - intros ->. subst subs. apply NoDup_remove_2 in Hnd'. auto. }
  assert (In b (l1 ++ l2)) as Hb'.
  { subst subs. apply in_app_iff in Hb. apply in_app_iff.
    destruct Hb as [Hb|[Hb|Hb]]; auto. congruence. }
  exists l1, l2. split; [assumption|]. split; [assumption|]. split.
  - unfold unsubscribe.
    rewrite (unsubscribe_from_found _ this (id a) event subs j); auto.
    + rewrite remove_at_keeps_others; rewrite E3; [reflexivity|].
      intros E. rewrite E in Hb'. destruct Hb'.
    + eapply own_in_keys. eassumption.
    + intros k subs' s Hk Hown' Hs E.
      apply (ids_disjoint_keys _ k event subs' subs s a Hnd); auto.
  - intros k l s Hl Hs E.
    destruct (String.eqb_spec k event) as [->|Hne].
    + rewrite own_set_same in Hl. injection Hl as <-.
      destruct (Hrest s Hs) as [Hin Hsa]. apply Hsa. apply Hinj; auto.
    + rewrite own_set_other in Hl by assumption.
      apply (ids_disjoint_keys _ k event l subs s a Hnd); auto.
Qed.

(** C9 as amended.  Given that [uuid()] never returns the same value
    twice, along any run, whatever the outcome of the socket
    opens: the ids returned by subscribe calls are pairwise distinct and
    no id sits twice in the registry; a subscribe call that returns
    [i] had never returned [i] before and leaves [{i, cb}] at the end of
    the list of its event.  For two distinct subscribers [a] and [b] of
    one event, [unsubscribe (id a)] returns normally, calls nothing on
    the socket, takes [a] out of the list and the id out of the
    registry, and keeps [b] with the order of the others.  A later
    message that passes the filters is delivered to [b] when the event
    is "tx" and [b] is then the first entry of the list. *)
Theorem subscriptions_are_independent config (calls : list (Call Callback)) :
  let r := run uuid_v4 config calls in
  let this := service r in
  NoDup (returned r)
  /\ NoDup (all_ids (_subscriptions this))
  /\ (forall event cb env i,
        returned (step uuid_v4 r (CallSubscribe event cb env)) = returned r ++ [i] ->
        ~ In i (returned r)
        /\ exists subs,
             own (_subscriptions (service (step uuid_v4 r (CallSubscribe event cb env))))
                 event = Some (subs ++ [mkSubscription i cb]))
  /\ (forall event subs a b,
        own (_subscriptions this) event = Some subs ->
        In a subs -> In b subs -> a <> b ->
        id a <> id b
        /\ exists this' l1 l2,
             unsubscribe this (id a) = (Returns tt, this', [])
             /\ subs = l1 ++ a :: l2
             /\ own (_subscriptions this') event = Some (l1 ++ l2)
             /\ In b (l1 ++ l2)
             /\ (forall k l s, own (_subscriptions this') k = Some l ->
                               In s l -> id s <> id a)
             /\ (forall message t mt rest,
                   event = "tx" ->
                   l1 ++ l2 = b :: rest ->
                   index (split " "%char message) 0 = Some "tx" ->
                   index (split " "%char message) 12 = Some t ->
                   extractMessageType t = Some mt ->
                   String.prefix (prefix (_config this')) t = true ->
                   handleMessage extractMessageType getPayload this' message =
                     (Returns tt, [dispatch getPayload this' message b mt]))).
Proof using uuid_v4_fresh.
  intros r this.
  destruct (run_unique config calls) as [Hnd [Hiss [Hrnd Hriss]]].
  fold r in Hnd, Hiss, Hrnd, Hriss. fold this in Hnd, Hiss.
  split; [assumption|]. split; [assumption|]. split.
  - intros event cb env i. cbn [step].
    destruct (subscribe_registry env (uuid_v4 (draws r)) (service r) event cb)
      as [res [this' [eff [-> [_ Hcase]]]]].
    cbn. destruct res as [i'|e]; intros E.
    + apply app_inv_head in E. injection E as ->.
      destruct Hcase as [[E _]|[Hreg Hi]]; [discriminate|].
      rewrite (Hi i eq_refl). split.
      * intros Hin. apply (not_issued_yet (draws r)). apply Hriss. assumption.
      * rewrite Hreg, own_after_add. eauto.
    + exfalso. rewrite <- (app_nil_r (returned r)) in E at 1.
      apply app_inv_head in E. discriminate.
  - intros event subs a b Hown Ha Hb Hab.
    destruct (unsubscribe_one_of_two this event subs a b Hnd Hown Ha Hb Hab)
      as [Hid [l1 [l2 [Esubs [Hb' [Hun Hgone]]]]]].
    split; [assumption|].
    eexists _, l1, l2. split; [exact Hun|]. split; [assumption|].
    cbn [_subscriptions with_subscriptions].
    split; [apply own_set_same|]. split; [assumption|]. split; [assumption|].
    intros message t mt rest -> Ehd Hev Htag Hmt Hpre.
    apply (handleMessage_sends _ message b rest t mt); auto.
    cbn [_subscriptions with_subscriptions]. rewrite own_set_same. congruence.
Qed.

(** *** The ids handed to clients and the socket *)

Lemma connect_socket env (this : ZmqService Callback) :
  exists r this' eff,
    connect env this = (r, this', eff)
    /\ (r = Returns tt -> holds_socket this' = true)
    /\ (holds_socket this = true -> holds_socket this' = true).
Proof.
  unfold connect, holds_socket. destruct (_socket this) eqn:E.
  - eexists _, _, _. split; [reflexivity|]. rewrite E. auto.
  - destruct env; eexists _, _, _; (split; [reflexivity|]); cbn;
      split; auto; discriminate.
Qed.

Lemma subscribe_socket env fresh (this : ZmqService Callback) event cb :
  exists res this' eff,
    subscribe env fresh this event cb = (res, this', eff)
    /\ (forall i, res = Returns i -> holds_socket this' = true)
    /\ (holds_socket this = true -> holds_socket this' = true).
Proof.
  destruct (own (_subscriptions this) event) as [subs|] eqn:Hown;
    [|destruct (inherited event) eqn:Hinh].
  - rewrite (subscribe_registered _ _ _ _ _ subs Hown).
    match goal with |- context [connect env ?t] =>
      destruct (connect_socket env t) as [r [this' [eff [-> [H1 H2]]]]]
    end.
    cbn. eexists _, _, _. split; [reflexivity|]. split; [|exact H2].
    intros i Hi. apply H1. destruct r as [[]|]; [reflexivity|discriminate].
  - rewrite (subscribe_inherited _ _ _ _ _ Hown Hinh).
    eexists _, _, _. split; [reflexivity|]. split; [discriminate|auto].
  - rewrite (subscribe_new_event _ _ _ _ _ Hown Hinh).
    match goal with |- context [connect env ?t] =>
      destruct (connect_socket env t) as [r [this' [eff [-> [H1 H2]]]]]
    end.
    cbn. eexists _, _, _. split; [reflexivity|]. split; [|exact H2].
    intros i Hi. apply H1. destruct r as [[]|]; [reflexivity|discriminate].
Qed.

Lemma step_unreturned (r : Run Callback) c :
  ids_unique uuid_v4 r -> unreturned_without_socket r ->
  unreturned_without_socket (step uuid_v4 r c).
Proof using uuid_v4_fresh.
  forget_router.
  intros [Hnd [Hiss [Hrnd Hriss]]] HJ.
  assert (forall env event cb,
            unreturned_without_socket
              (after_subscription r
                 (subscribe env (uuid_v4 (draws r)) (service r) event cb)))
    as Hsub.
  { intros env event cb.
    destruct (subscribe_registry env (uuid_v4 (draws r)) (service r) event cb)
      as [res [this' [eff [E [_ Hcase]]]]].
    destruct (subscribe_socket env (uuid_v4 (draws r)) (service r) event cb)
      as [res' [this'' [eff' [E' [Hret Hkeep]]]]].
    rewrite E in E'. injection E' as <- <- <-. rewrite E.
    unfold unreturned_without_socket. cbn. intros Hs x Hx.
    destruct res as [i|e]; [rewrite (Hret i eq_refl) in Hs; discriminate|].
    assert (holds_socket (service r) = false) as Hs0.
    { destruct (holds_socket (service r)); [|reflexivity].
      rewrite Hkeep in Hs; [discriminate|reflexivity]. }
    destruct Hcase as [[_ ->]|[Hreg _]]; [apply HJ; assumption|].
    rewrite Hreg in Hx.
    destruct (all_ids_after_add (_subscriptions (service r)) event
                (mkSubscription (uuid_v4 (draws r)) cb)) as [A [B [E1 E2]]].
    rewrite E2 in Hx. apply in_app_iff in Hx. cbn in Hx.
    destruct Hx as [Hx|[<-|Hx]].
    - apply HJ; [assumption|]. rewrite E1. apply in_app_iff. auto.
    - intros Hin. apply (not_issued_yet (draws r)). auto.
    - apply HJ; [assumption|]. rewrite E1. apply in_app_iff. auto. }
  destruct c as [event cb env|event cb env|i]; cbn [step].
  - apply Hsub.
  - rewrite subscribeEvent_subscribe. apply Hsub.
  - unfold unsubscribe.
    destruct (unsubscribe_from_registry
                (keys (_subscriptions (service r))) (service r) i)
      as [res [this' [eff [-> [_ Hcase]]]]].
    unfold unreturned_without_socket. cbn. intros Hs x Hx.
    destruct Hcase as [->|[k [subs [j [Hown [Hidx [Hreg Hsock]]]]]]];
      [apply HJ; assumption|].
    destruct Hsock as [Hsock|Hnil]; [|rewrite Hnil in Hx; destruct Hx].
    apply HJ.
    + unfold holds_socket in *. rewrite <- Hsock. assumption.
    + destruct (all_ids_after_remove _ _ _ _ _ Hown Hidx) as [A [B [E1 E2]]].
      rewrite E1.
      assert (In x (A ++ B)) as Hin.
      { destruct Hreg as [E|E]; rewrite E in Hx.
        - rewrite <- E2. assumption.
        - rewrite <- E2. eapply all_ids_delete. eassumption. }
      apply in_app_iff in Hin. apply in_app_iff. cbn. tauto.
Qed.

(** X15.  Given that [uuid()] never returns the same value twice, an
    id that a subscribe call returned and that is still registered
    finds the socket handle held, whatever opens failed on the way: a
    registry entry without a socket was left by a subscribe call that
    threw, and its id was returned to nobody. *)
Lemma returned_id_has_socket config (calls : list (Call Callback)) x :
  In x (returned (run uuid_v4 config calls)) ->
  In x (all_ids (_subscriptions (service (run uuid_v4 config calls)))) ->
  _socket (service (run uuid_v4 config calls)) <> None.
Proof using uuid_v4_fresh.
  assert (ids_unique uuid_v4 (run uuid_v4 config calls)
          /\ unreturned_without_socket (run uuid_v4 config calls)) as [_ HJ].
  { unfold run.
    assert (ids_unique uuid_v4 (@start Callback config)
            /\ unreturned_without_socket (@start Callback config))
      as H0.
    { split.
      - unfold ids_unique. cbn. repeat split; try constructor; intros y [].
      - intros _ y []. }
    revert H0. generalize (@start Callback config).
    induction calls as [|c calls IH]; intros r [Hu HJ]; cbn; [auto|].
    apply IH. split; [apply step_unique|apply step_unreturned]; assumption. }
  intros Hret Hin. apply holds_socket_true.
  destruct (holds_socket (service (run uuid_v4 config calls))) eqn:Hs; [reflexivity|].
  exfalso. apply (HJ Hs x); assumption.
Qed.

(** ** No socket is leaked, whatever fails *)

Lemma connect_accounted env (this : ZmqService Callback) :
  exists r this' eff,
    connect env this = (r, this', eff)
    /\ _subscriptions this' = _subscriptions this
    /\ track (holds_socket this) eff = Some (holds_socket this').
Proof.
  forget_collaborators.
  unfold connect, holds_socket. destruct (_socket this) eqn:E.
  - eexists _, _, _. split; [reflexivity|]. rewrite E. auto.
  - destruct env; eexists _, _, _; (split; [reflexivity|]); cbn;
      rewrite ?track_subscribes, ?E; split; reflexivity.
Qed.

Lemma subscribe_accounted env fresh (this : ZmqService Callback) event cb :
  exists r this' eff,
    subscribe env fresh this event cb = (r, this', eff)
    /\ track (holds_socket this) eff = Some (holds_socket this')
    /\ (this' = this \/ _subscriptions this' <> []).
Proof.
  forget_collaborators.
  destruct (own (_subscriptions this) event) as [subs|] eqn:Hown;
    [|destruct (inherited event) eqn:Hinh].
  - rewrite (subscribe_registered _ _ _ _ _ subs Hown).
    match goal with |- context [connect env ?t] =>
      destruct (connect_accounted env t) as [r [this' [eff [-> [Hr Ht]]]]]
    end.
    cbn. eexists _, _, _. split; [reflexivity|]. split; [exact Ht|].
    right. rewrite Hr. cbn. apply set_not_nil.
  - rewrite (subscribe_inherited _ _ _ _ _ Hown Hinh).
    eexists _, _, _. split; [reflexivity|]. cbn. auto.
  - rewrite (subscribe_new_event _ _ _ _ _ Hown Hinh).
    match goal with |- context [connect env ?t] =>
      destruct (connect_accounted env t) as [r [this' [eff [-> [Hr Ht]]]]]
    end.
    cbn. eexists _, _, _. split; [reflexivity|]. split.
    + rewrite track_app. unfold holds_socket in *. cbn in Ht.
      destruct (_socket this); cbn; exact Ht.
    + right. rewrite Hr. cbn. apply set_not_nil.
Qed.

Lemma remove_at_accounted (this : ZmqService Callback) k subs j :
  exists r this' eff,
    remove_at this k subs j = (r, this', eff)
    /\ track (holds_socket this) eff = Some (holds_socket this')
    /\ (holds_socket this' = true -> _subscriptions this' <> []).
Proof.
  forget_collaborators.
  unfold remove_at. cbn [_socket _subscriptions with_subscriptions].
  destruct (Nat.eqb (List.length (splice1 j subs)) 0).
  - destruct (_socket this) as [sock|] eqn:Esock.
    + destruct (Nat.eqb (List.length (keys (delete _ k))) 0) eqn:Elast.
      * unfold disconnect, with_socket, holds_socket. cbn. rewrite Esock. cbn.
        eexists _, _, _. split; [reflexivity|]. split; [reflexivity|].
        discriminate.
      * eexists _, _, _. split; [reflexivity|].
        unfold holds_socket, with_subscriptions. cbn. rewrite Esock.
        split; [reflexivity|]. intros _ E. rewrite E in Elast. discriminate.
    + eexists _, _, _. split; [reflexivity|].
      unfold holds_socket, with_subscriptions. cbn. rewrite Esock.
      split; [reflexivity|]. discriminate.
  - eexists _, _, _. split; [reflexivity|].
    unfold holds_socket, with_subscriptions. cbn.
    split; [reflexivity|]. intros _. apply set_not_nil.
Qed.

Lemma unsubscribe_from_accounted ks (this : ZmqService Callback) i :
  (holds_socket this = true -> _subscriptions this <> []) ->
  exists r this' eff,
    unsubscribe_from ks this i = (r, this', eff)
    /\ track (holds_socket this) eff = Some (holds_socket this')
    /\ (holds_socket this' = true -> _subscriptions this' <> []).
Proof.
  forget_collaborators.
  intros Hinv. induction ks as [|k ks IH]; cbn.
  - eexists _, _, _. split; [reflexivity|]. auto.
  - destruct (own (_subscriptions this) k) as [subs|] eqn:Hown.
    + destruct (index_of i subs) as [j|]; [|assumption].
      apply remove_at_accounted.
    + eexists _, _, _. split; [reflexivity|]. auto.
Qed.

Lemma step_accounted (r : Run Callback) c :
  socket_accounted r -> socket_accounted (step uuid_v4 r c).
Proof.
  forget_router.
  intros [Hinv Htr].
  assert (forall env event cb,
            socket_accounted
              (after_subscription r
                 (subscribe env (uuid_v4 (draws r)) (service r) event cb)))
    as Hsub.
  { intros env event cb.
    destruct (subscribe_accounted env (uuid_v4 (draws r)) (service r) event cb)
      as [res [this' [eff [-> [Ht Hcase]]]]].
    split; cbn.
    - intros Hs. destruct Hcase as [->|Hne]; auto.
    - rewrite track_app, Htr. exact Ht. }
  destruct c as [event cb env|event cb env|i]; cbn [step].
  - apply Hsub.
  - rewrite subscribeEvent_subscribe. apply Hsub.
  - unfold unsubscribe.
    destruct (unsubscribe_from_accounted
                (keys (_subscriptions (service r))) (service r) i Hinv)
      as [res [this' [eff [-> [Ht Hinv']]]]].
    split; cbn; [exact Hinv'|]. rewrite track_app, Htr. exact Ht.
Qed.

Lemma fold_step_accounted (calls : list (Call Callback)) (r : Run Callback) :
  socket_accounted r -> socket_accounted (fold_left (step uuid_v4) calls r).
Proof.
  revert r. induction calls as [|c calls IH]; intros r Hr; [assumption|].
  cbn. apply IH. apply step_accounted. assumption.
Qed.

(** X1. Along any sequence of calls on a fresh service, whatever opens
    fail and whatever calls throw: a socket handle is held only while
    the registry has a key; at every point of the trace at most one
    socket is created and not yet closed; and that number is one
    exactly when the handle is held, so no created socket is ever left
    open without its handle. *)
Theorem socket_never_leaks config (calls : list (Call Callback)) :
  let r := run uuid_v4 config calls in
  (_socket (service r) <> None -> _subscriptions (service r) <> [])
  /\ (forall m, (0 <= open_count (firstn m (trace r)) <= 1)%Z)
  /\ (open_count (trace r) = if holds_socket (service r) then 1 else 0)%Z.
Proof.
  intros r.
  assert (socket_accounted r) as [Hinv Htr].
  { apply fold_step_accounted. split; cbn; [discriminate|reflexivity]. }
  split; [|split].
  - intros Hs. apply Hinv. apply holds_socket_true. assumption.
  - intros m. destruct (track_firstn _ _ _ m Htr) as [b Hb].
    apply track_open_count in Hb. rewrite Hb. destruct b; cbn; lia.
  - apply track_open_count in Htr. rewrite Htr.
    destruct (holds_socket (service r)); reflexivity.
Qed.

(** ** The registry stays well formed *)

Lemma keys_insert {V : Type} (o : Obj V) k v :
  exists l1 l2, keys o = l1 ++ l2 /\ keys (insert o k v) = l1 ++ k :: l2.
Proof.
  forget_collaborators. unfold keys.
  induction o as [|[k' v'] o [l1 [l2 [E1 E2]]]]; cbn.
  - exists [], []. auto.
  - destruct (key_before k k'); cbn.
    + exists [], (k' :: map fst o). auto.
    + exists (k' :: l1), l2. cbn. rewrite E2, E1. auto.
Qed.

Lemma keys_delete {V : Type} (o : Obj V) k :
  keys (delete o k) = filter (fun k' => negb (String.eqb k' k)) (keys o).
Proof.
  unfold keys.
  induction o as [|[k' v'] o IH]; cbn; [reflexivity|].
  destruct (String.eqb k' k); cbn; [assumption|].
  f_equal. assumption.
Qed.

Lemma NoDup_keys_set {V : Type} (o : Obj V) k v :
  NoDup (keys o) -> NoDup (keys (set o k v)).
Proof.
  forget_collaborators.
  intros Hnd. unfold set. destruct (own o k) eqn:Hown.
  - rewrite keys_replace. assumption.
  - destruct (keys_insert o k v) as [l1 [l2 [E1 E2]]]. rewrite E2.
    apply NoDup_Add with (a := k) (l := l1 ++ l2); [apply Add_app|].
    rewrite <- E1. split; [assumption|].
    apply own_none_not_in_keys. assumption.
Qed.

Lemma NoDup_keys_delete {V : Type} (o : Obj V) k :
  NoDup (keys o) -> NoDup (keys (delete o k)).
Proof. intros Hnd. rewrite keys_delete. apply NoDup_filter. assumption. Qed.

Lemma NoDup_keys_after_add (o : Obj (list (Subscription Callback))) event e :
  NoDup (keys o) -> NoDup (keys (registry_after_add o event e)).
Proof.
  intros Hnd. unfold registry_after_add.
  destruct (own o event); repeat apply NoDup_keys_set; assumption.
Qed.

Lemma own_after_add_other (o : Obj (list (Subscription Callback))) event e k :
  k <> event -> own (registry_after_add o event e) k = own o k.
Proof.
  intros Hne. unfold registry_after_add.
  destruct (own o event); rewrite ?own_set_other by assumption; reflexivity.
Qed.

Lemma step_keys_distinct (r : Run Callback) c :
  NoDup (keys (_subscriptions (service r))) ->
  NoDup (keys (_subscriptions (service (step uuid_v4 r c)))).
Proof.
  forget_router.
  intros Hnd.
  assert (forall env event cb,
            NoDup (keys (_subscriptions (service
              (after_subscription r
                 (subscribe env (uuid_v4 (draws r)) (service r) event cb))))))
    as Hsub.
  { intros env event cb.
    destruct (subscribe_registry env (uuid_v4 (draws r)) (service r) event cb)
      as [res [this' [eff [-> [_ Hcase]]]]].
    cbn. destruct Hcase as [[_ ->]|[-> _]]; [assumption|].
    apply NoDup_keys_after_add. assumption. }
  destruct c as [event cb env|event cb env|i]; cbn [step].
  - apply Hsub.
  - rewrite subscribeEvent_subscribe. apply Hsub.
  - unfold unsubscribe.
    destruct (unsubscribe_from_registry
                (keys (_subscriptions (service r))) (service r) i)
      as [res [this' [eff [-> [_ Hcase]]]]].
    cbn. destruct Hcase as [->|[k [subs [j [_ [_ [[-> | ->] _]]]]]]].
    + assumption.
    + apply NoDup_keys_set. assumption.
    + apply NoDup_keys_delete, NoDup_keys_set. assumption.
Qed.

Lemma subscribe_keeps_subscribers env fresh (this : ZmqService Callback) event cb :
  keys_have_subscribers this ->
  exists res this' eff,
    subscribe env fresh this event cb = (res, this', eff)
    /\ keys_have_subscribers this'.
Proof.
  forget_collaborators.
  intros Hp.
  destruct (subscribe_registry env fresh this event cb)
    as [res [this' [eff [E [_ Hcase]]]]].
  exists res, this', eff. split; [exact E|].
  destruct Hcase as [[_ ->]|[Hreg _]]; [assumption|].
  intros k subs Hown. rewrite Hreg in Hown.
  destruct (String.eqb_spec k event) as [->|Hne].
  - rewrite own_after_add in Hown. injection Hown as <-.
    intros E'. apply app_eq_nil in E'. destruct E' as [_ E']. discriminate.
  - rewrite own_after_add_other in Hown by assumption. eapply Hp. eassumption.
Qed.

Lemma remove_at_keeps_subscribers (this : ZmqService Callback) k subs j :
  connected_iff_registered this ->
  own (_subscriptions this) k = Some subs ->
  keys_have_subscribers this ->
  exists res this' eff,
    remove_at this k subs j = (res, this', eff)
    /\ keys_have_subscribers this'.
Proof.
  forget_collaborators.
  intros Hinv Hown Hp.
  assert (holds_socket this = true) as Hs.
  { apply Hinv. intros E. rewrite E in Hown. discriminate. }
  unfold holds_socket in Hs.
  destruct (_socket this) as [sock|] eqn:Esock; [clear Hs|discriminate].
  assert (Hdel : forall k' l,
            own (delete (set (_subscriptions this) k []) k) k' = Some l ->
            l <> []).
  { intros k' l Hl. destruct (String.eqb_spec k' k) as [->|Hne].
    - rewrite own_delete_same in Hl. discriminate.
    - rewrite own_delete_other, own_set_other in Hl by assumption.
      eapply Hp. eassumption. }
  unfold remove_at. cbn [_socket _subscriptions with_subscriptions].
  rewrite Esock.
  destruct (splice1 j subs) as [|x l'] eqn:Esp; cbn [List.length Nat.eqb].
  - destruct (Nat.eqb (List.length (keys (delete _ k))) 0);
      [unfold disconnect; cbn; rewrite Esock|];
      eexists _, _, _; (split; [reflexivity|]); exact Hdel.
  - eexists _, _, _. split; [reflexivity|].
    intros k' l Hl. cbn in Hl. destruct (String.eqb_spec k' k) as [->|Hne].
    + rewrite own_set_same in Hl. injection Hl as <-. discriminate.
    + rewrite own_set_other in Hl by assumption. eapply Hp. eassumption.
Qed.

Lemma unsubscribe_from_keeps_subscribers ks (this : ZmqService Callback) i :
  connected_iff_registered this ->
  keys_have_subscribers this ->
  exists res this' eff,
    unsubscribe_from ks this i = (res, this', eff)
    /\ keys_have_subscribers this'.
Proof.
  forget_collaborators.
  intros Hinv Hp. induction ks as [|k ks IH]; cbn.
  - eexists _, _, _. split; [reflexivity|]. assumption.
  - destruct (own (_subscriptions this) k) as [subs|] eqn:Hown.
    + destruct (index_of i subs) as [j|]; [|assumption].
      apply remove_at_keeps_subscribers; assumption.
    + eexists _, _, _. split; [reflexivity|]. assumption.
Qed.

Lemma step_keeps_subscribers (r : Run Callback) c :
  opens_succeed c ->
  connection_follows_registry r ->
  keys_have_subscribers (service r) ->
  keys_have_subscribers (service (step uuid_v4 r c)).
Proof.
  forget_router.
  intros Hok [Hinv _] Hp.
  assert (forall env event cb,
            keys_have_subscribers (service
              (after_subscription r
                 (subscribe env (uuid_v4 (draws r)) (service r) event cb))))
    as Hsub.
  { intros env event cb.
    destruct (subscribe_keeps_subscribers env (uuid_v4 (draws r)) (service r)
                event cb Hp) as [res [this' [eff [-> Hp']]]].
    exact Hp'. }
  destruct c as [event cb env|event cb env|i]; cbn [step].
  - apply Hsub.
  - rewrite subscribeEvent_subscribe. apply Hsub.
  - unfold unsubscribe.
    destruct (unsubscribe_from_keeps_subscribers
                (keys (_subscriptions (service r))) (service r) i Hinv Hp)
      as [res [this' [eff [-> Hp']]]].
    exact Hp'.
Qed.

Lemma well_run_start config : well_run (@start Callback config).
Proof.
  forget_collaborators.
  split; [|split].
  - split; cbn; [|reflexivity].
    unfold connected_iff_registered. cbn. split; congruence.
  - intros k subs H. discriminate.
  - constructor.
Qed.

Lemma fold_step_well_run (calls : list (Call Callback)) (r : Run Callback) :
  Forall opens_succeed calls ->
  well_run r -> well_run (fold_left (step uuid_v4) calls r).
Proof.
  revert r. induction calls as [|c calls IH]; intros r Hok Hr; [assumption|].
  inversion Hok; subst. cbn. apply IH; [assumption|].
  destruct Hr as [Hc [Hp Hk]]. split; [|split].
  - apply step_connected; assumption.
  - apply step_keeps_subscribers; assumption.
  - apply step_keys_distinct; assumption.
Qed.

Lemma fold_step_keys_distinct (calls : list (Call Callback)) (r : Run Callback) :
  NoDup (keys (_subscriptions (service r))) ->
  NoDup (keys (_subscriptions (service (fold_left (step uuid_v4) calls r)))).
Proof.
  revert r. induction calls as [|c calls IH]; intros r Hr; [assumption|].
  cbn. apply IH. apply step_keys_distinct. assumption.
Qed.

(** X2. Along any sequence of calls the registry never lists an event
    name twice, whatever fails; and when every socket open succeeds,
    every key of the registry has at least one subscriber: a key is
    deleted in the call that removes its last subscriber. *)
Theorem registry_well_formed config (calls : list (Call Callback)) :
  let r := run uuid_v4 config calls in
  NoDup (keys (_subscriptions (service r)))
  /\ (Forall opens_succeed calls ->
      forall k subs, own (_subscriptions (service r)) k = Some subs ->
                     subs <> []).
Proof.
  intros r. split.
  - apply fold_step_keys_distinct. constructor.
  - intros Hok.
    destruct (fold_step_well_run calls (start config) Hok (well_run_start config))
      as [_ [Hp _]].
    exact Hp.
Qed.

(** ** The socket calls of one subscription and one removal *)

(** What [subscribe] does, case by case, for an event name that reads
    as a list or as [undefined]. *)
Lemma subscribe_calls env fresh (this : ZmqService Callback) event cb :
  get (_subscriptions this) event <> Inherited ->
  let o' := registry_after_add (_subscriptions this) event
              (mkSubscription fresh cb) in
  subscribe env fresh this event cb =
    match _socket this with
    | Some sock =>
        (Returns fresh, mkService (_config this) (Some sock) o',
         match own (_subscriptions this) event with
         | Some _ => []
         | None => [SocketSubscribe event]
         end)
    | None =>
        match env with
        | OpenOk =>
            (Returns fresh, mkService (_config this) (Some SubSocket) o',
             ZmqSocket "sub" :: SocketConnect (endpoint (_config this))
               :: SocketOn "message" :: map SocketSubscribe (keys o'))
        | SocketThrows err =>
            (Throws (unable_to_connect err), mkService (_config this) None o', [])
        | ConnectThrows err =>
            (Throws (unable_to_connect err),
             mkService (_config this) (Some SubSocket) o', [ZmqSocket "sub"])
        end
    end.
Proof.
  forget_collaborators.
  intros Hget o'. subst o'. unfold registry_after_add.
  destruct (own (_subscriptions this) event) as [subs|] eqn:Hown.
  - rewrite (subscribe_registered _ _ _ _ _ subs Hown).
    unfold connect, finish, with_socket, with_subscriptions, open_calls. cbn.
    destruct (_socket this); [reflexivity|]. destruct env; reflexivity.
  - assert (inherited event = false) as Hinh.
    { unfold get in Hget. rewrite Hown in Hget.
      destruct (inherited event); congruence. }
    rewrite (subscribe_new_event _ _ _ _ _ Hown Hinh).
    unfold connect, finish, with_socket, with_subscriptions, open_calls. cbn.
    destruct (_socket this); [reflexivity|]. destruct env; reflexivity.
Qed.

(** What the removal of [subs[j]] does while the handle is held. *)
Lemma remove_at_calls (this : ZmqService Callback) sock k subs j :
  _socket this = Some sock ->
  remove_at this k subs j =
    match splice1 j subs with
    | [] =>
        let o' := delete (set (_subscriptions this) k []) k in
        if Nat.eqb (List.length (keys o')) 0
        then (Returns tt, mkService (_config this) None o',
              [SocketUnsubscribe k; SocketClose])
        else (Returns tt, mkService (_config this) (Some sock) o',
              [SocketUnsubscribe k])
    | rest =>
        (Returns tt, mkService (_config this) (Some sock)
                       (set (_subscriptions this) k rest), [])
    end.
Proof.
  forget_collaborators.
  intros Hsock.
  unfold remove_at, disconnect, with_subscriptions, with_socket.
  cbn. rewrite Hsock.
  destruct (splice1 j subs); cbn; [|reflexivity].
  destruct (Nat.eqb _ 0); reflexivity.
Qed.

(** The scan of [unsubscribe] changes nothing, or removes the first
    entry that carries the id. *)
Lemma unsubscribe_from_scan ks (this : ZmqService Callback) i :
  (forall k, In k ks -> In k (keys (_subscriptions this))) ->
  unsubscribe_from ks this i = (Returns tt, this, [])
  \/ exists k subs j,
       own (_subscriptions this) k = Some subs
       /\ index_of i subs = Some j
       /\ unsubscribe_from ks this i = remove_at this k subs j.
Proof.
  forget_collaborators.
  intros Hks. induction ks as [|k ks IH]; cbn; [auto|].
  destruct (in_keys_own _ k (Hks k (or_introl eq_refl))) as [subs Hsubs].
  rewrite Hsubs. destruct (index_of i subs) as [j|] eqn:Hidx.
  - right. exists k, subs, j. auto.
  - apply IH. intros k' Hk'. apply Hks. right. assumption.
Qed.

(** ** The filters of the socket mirror the registry *)

Lemma filter_balance_app k acc t1 t2 :
  filter_balance k acc (t1 ++ t2) =
    filter_balance k (filter_balance k acc t1) t2.
Proof.
  revert acc. induction t1 as [|e t1 IH]; intros acc; [reflexivity|].
  destruct e; cbn; apply IH.
Qed.

Lemma existsb_eqb_in k (ks : list string) :
  existsb (String.eqb k) ks = true <-> In k ks.
Proof.
  rewrite existsb_exists. split.
  - intros [x [Hx E]]. apply String.eqb_eq in E. subst. assumption.
  - intros H. exists k. split; [assumption|apply String.eqb_refl].
Qed.

Lemma has_key_own {V : Type} (o : Obj V) k :
  has_key o k = match own o k with Some _ => true | None => false end.
Proof.
  forget_collaborators.
  unfold has_key. destruct (own o k) eqn:Hown.
  - apply existsb_eqb_in. eapply own_in_keys. eassumption.
  - destruct (existsb (String.eqb k) (keys o)) eqn:E; [|reflexivity].
    apply existsb_eqb_in in E. apply own_none_not_in_keys in Hown.
    contradiction.
Qed.

Lemma filter_balance_subscribes k acc (ks : list string) :
  NoDup ks ->
  filter_balance k acc (map SocketSubscribe ks) =
    (acc + if existsb (String.eqb k) ks then 1 else 0)%Z.
Proof.
  forget_collaborators.
  revert acc. induction ks as [|k' ks IH]; intros acc Hnd;
    cbn [map filter_balance existsb]; [lia|].
  apply NoDup_cons_iff in Hnd. destruct Hnd as [Hk' Hnd].
  rewrite IH by assumption. rewrite (String.eqb_sym k k').
  destruct (String.eqb_spec k' k) as [->|Hne]; cbn [orb].
  - destruct (existsb (String.eqb k) ks) eqn:E; [|lia].
    apply existsb_eqb_in in E. contradiction.
  - destruct (existsb (String.eqb k) ks); lia.
Qed.

Lemma step_filters (r : Run Callback) c :
  opens_succeed c ->
  well_run r -> filters_mirror_keys r ->
  filters_mirror_keys (step uuid_v4 r c).
Proof.
  forget_router.
  intros Hok [[Hinv _] [_ Hnd]] Hf.
  assert (forall event cb,
            filters_mirror_keys
              (after_subscription r
                 (subscribe OpenOk (uuid_v4 (draws r)) (service r) event cb)))
    as Hsub.
  { intros event cb k.
    destruct (own (_subscriptions (service r)) event) as [subs|] eqn:Hown;
      [|destruct (inherited event) eqn:Hinh].
    2:{ rewrite (subscribe_inherited _ _ _ _ _ Hown Hinh). cbn.
        rewrite app_nil_r. apply Hf. }
    all: rewrite subscribe_calls
      by (unfold get; rewrite Hown, ?Hinh; discriminate).
    all: pose proof (NoDup_keys_after_add _ event
                       (mkSubscription (uuid_v4 (draws r)) cb) Hnd) as Hnd'.
    all: destruct (_socket (service r)) as [sock|] eqn:Esock;
      cbn [after_subscription service trace _subscriptions];
      rewrite ?Hown, filter_balance_app;
      cbn [filter_balance]; rewrite ?filter_balance_subscribes by assumption;
      try reflexivity.
    - rewrite Hf, !has_key_own.
      destruct (String.eqb_spec k event) as [->|Hne].
      + rewrite own_after_add, Hown. reflexivity.
      + rewrite own_after_add_other by assumption. reflexivity.
    - destruct (String.eqb_spec event k) as [->|Hne];
        rewrite Hf, !has_key_own.
      + rewrite own_after_add, Hown. reflexivity.
      + rewrite own_after_add_other by congruence. reflexivity. }
  destruct c as [event cb env|event cb env|i]; cbn in Hok; cbn [step].
  - subst env. apply Hsub.
  - subst env. rewrite subscribeEvent_subscribe. apply Hsub.
  - unfold unsubscribe. intros k0.
    destruct (unsubscribe_from_scan (keys (_subscriptions (service r)))
                (service r) i (fun k H => H))
      as [-> | [k [subs [j [Hown [Hidx ->]]]]]].
    { cbn. rewrite app_nil_r. apply Hf. }
    assert (holds_socket (service r) = true) as Hs.
    { apply Hinv. intros E. rewrite E in Hown. discriminate. }
    unfold holds_socket in Hs.
    destruct (_socket (service r)) as [sock|] eqn:Esock; [clear Hs|discriminate].
    rewrite (remove_at_calls _ sock) by assumption.
    destruct (splice1 j subs) as [|x rest]; cbv zeta.
    + destruct (Nat.eqb _ 0) eqn:Elast; cbn [service trace _subscriptions];
        rewrite filter_balance_app; cbn [filter_balance].
      * apply keys_nil_iff in Elast. rewrite Elast. reflexivity.
      * destruct (String.eqb_spec k k0) as [->|Hne]; rewrite Hf, !has_key_own.
        -- rewrite own_delete_same, Hown. reflexivity.
        -- rewrite own_delete_other, own_set_other by congruence. reflexivity.
    + cbn [service trace _subscriptions].
      rewrite app_nil_r, Hf, !has_key_own.
      destruct (String.eqb_spec k0 k) as [->|Hne].
      * rewrite own_set_same, Hown. reflexivity.
      * rewrite own_set_other by assumption. reflexivity.
Qed.

Lemma fold_step_filters (calls : list (Call Callback)) (r : Run Callback) :
  Forall opens_succeed calls ->
  well_run r -> filters_mirror_keys r ->
  filters_mirror_keys (fold_left (step uuid_v4) calls r).
Proof.
  revert r. induction calls as [|c calls IH]; intros r Hok Hr Hf; [assumption|].
  inversion Hok as [|c' calls' Hc Hrest]; subst. cbn. apply IH.
  - assumption.
  - apply (fold_step_well_run [c] r); [repeat constructor|]; assumption.
  - apply step_filters; assumption.
Qed.

(** X3. When every socket open succeeds, after each call the filters
    applied to the open socket are exactly the event names of the
    registry, each once: for every topic, the subscribe calls made on
    the current socket and not undone by an unsubscribe call number one
    when the topic is a registry key and zero otherwise. *)
Theorem filters_follow_registry config (calls : list (Call Callback)) k :
  Forall opens_succeed calls ->
  filter_balance k 0 (trace (run uuid_v4 config calls)) =
    (if has_key (_subscriptions (service (run uuid_v4 config calls))) k
     then 1 else 0)%Z.
Proof.
  intros Hok. apply fold_step_filters.
  - assumption.
  - apply well_run_start.
  - intros k'. reflexivity.
Qed.

(** ** Subscribing and unsubscribing again *)

Lemma replace_replace {V : Type} (o : Obj V) k v0 v1 :
  own o k = Some v0 -> replace (replace o k v1) k v0 = o.
Proof.
  induction o as [|[k' v'] o IH]; cbn; [reflexivity|].
  destruct (String.eqb k' k) eqn:E; cbn; rewrite E.
  - intros H. injection H as ->. reflexivity.
  - intros H. rewrite IH by assumption. reflexivity.
Qed.

Lemma delete_replace {V : Type} (o : Obj V) k v :
  delete (replace o k v) k = delete o k.
Proof.
  unfold delete.
  induction o as [|[k' v'] o IH]; cbn; [reflexivity|].
  destruct (String.eqb k' k) eqn:E; cbn; rewrite E; cbn; [reflexivity|].
  rewrite IH. reflexivity.
Qed.

Lemma delete_absent {V : Type} (o : Obj V) k :
  own o k = None -> delete o k = o.
Proof.
  unfold delete.
  induction o as [|[k' v'] o IH]; cbn; [reflexivity|].
  destruct (String.eqb k' k) eqn:E; cbn; [discriminate|].
  intros H. rewrite IH by assumption. reflexivity.
Qed.

Lemma delete_insert {V : Type} (o : Obj V) k v :
  own o k = None -> delete (insert o k v) k = o.
Proof.
  unfold delete.
  induction o as [|[k' v'] o IH]; cbn.
  - rewrite String.eqb_refl. reflexivity.
  - destruct (String.eqb k' k) eqn:E; [discriminate|]. intros H.
    destruct (key_before k k'); cbn.
    + rewrite String.eqb_refl, E. cbn. f_equal.
      apply (delete_absent o k H).
    + rewrite E. cbn. rewrite IH by assumption. reflexivity.
Qed.

Lemma index_of_last i cb (subs : list (Subscription Callback)) :
  (forall s, In s subs -> id s <> i) ->
  index_of i (subs ++ [mkSubscription i cb]) = Some (List.length subs)
  /\ splice1 (List.length subs) (subs ++ [mkSubscription i cb]) = subs.
Proof.
  forget_collaborators.
  intros Hfresh. split.
  - induction subs as [|s subs IH]; cbn.
    + rewrite String.eqb_refl. reflexivity.
    + destruct (String.eqb_spec (id s) i) as [E|Hne].
      * exfalso. apply (Hfresh s); [left; reflexivity|assumption].
      * rewrite IH; [reflexivity|]. intros s' Hs'. apply Hfresh. right. assumption.
  - clear Hfresh. unfold splice1.
    induction subs as [|s subs IH]; cbn; [reflexivity|].
    f_equal. exact IH.
Qed.

(** The registry of an addition, with the added entry taken out again. *)
Lemma after_add_undone (o : Obj (list (Subscription Callback))) event e :
  match own o event with
  | Some subs => set (registry_after_add o event e) event subs = o
  | None => delete (set (registry_after_add o event e) event []) event = o
  end.
Proof.
  forget_collaborators.
  unfold registry_after_add. destruct (own o event) as [subs|] eqn:Hown.
  - unfold set at 2. rewrite Hown.
    unfold set. rewrite (own_replace_same o event _ subs Hown).
    apply replace_replace. assumption.
  - assert (own (insert o event []) event = Some []) as Hins
      by (apply own_insert_same; assumption).
    unfold set at 3. rewrite Hown.
    unfold set at 2. rewrite Hins.
    unfold set. rewrite (own_replace_same _ event _ [] Hins).
    rewrite !delete_replace. apply delete_insert. assumption.
Qed.

Lemma service_eta (this : ZmqService Callback) :
  mkService (_config this) (_socket this) (_subscriptions this) = this.
Proof. destruct this. reflexivity. Qed.

Lemma subscribe_unsubscribe (this : ZmqService Callback) fresh event cb :
  connected_iff_registered this ->
  keys_have_subscribers this ->
  (forall k subs s, own (_subscriptions this) k = Some subs -> In s subs ->
                    id s <> fresh) ->
  get (_subscriptions this) event <> Inherited ->
  exists this1 eff1 eff2,
    subscribe OpenOk fresh this event cb = (Returns fresh, this1, eff1)
    /\ unsubscribe this1 fresh = (Returns tt, this, eff2).
Proof.
  forget_collaborators.
  intros Hinv Hp Hfresh Hget.
  assert (Hprev : forall s, In s (previous this event) -> id s <> fresh).
  { unfold previous. destruct (own (_subscriptions this) event) as [subs|] eqn:Hown.
    - intros s Hs. eapply Hfresh; eassumption.
    - intros s []. }
  destruct (index_of_last fresh cb (previous this event) Hprev) as [Hidx Hsp].
  pose proof (own_after_add (_subscriptions this) event (mkSubscription fresh cb))
    as Hown'.
  change (match own (_subscriptions this) event with
          | Some subs => subs
          | None => []
          end) with (previous this event) in Hown'.
  pose proof (after_add_undone (_subscriptions this) event (mkSubscription fresh cb))
    as Hundo.
  pose proof (subscribe_calls OpenOk fresh this event cb Hget) as Hsub.
  cbv zeta in Hsub.
  assert (Hothers : forall k subs' s,
            k <> event ->
            own (registry_after_add (_subscriptions this) event
                   (mkSubscription fresh cb)) k = Some subs' ->
            In s subs' -> id s <> fresh).
  { intros k subs' s Hk Hown Hs.
    rewrite own_after_add_other in Hown by assumption.
    eapply Hfresh; eassumption. }
  remember (registry_after_add (_subscriptions this) event
              (mkSubscription fresh cb)) as o' eqn:Eo'.
  assert (exists sock1 eff1,
            subscribe OpenOk fresh this event cb =
              (Returns fresh, mkService (_config this) (Some sock1) o', eff1)
            /\ (_subscriptions this <> [] -> _socket this = Some sock1))
    as [sock1 [eff1 [Hsub' Hsock]]].
  { rewrite Hsub. destruct (_socket this) as [sock|] eqn:Esock.
    - eexists _, _. split; [reflexivity|]. auto.
    - eexists _, _. split; [reflexivity|]. intros Ho. exfalso.
      apply Hinv in Ho. unfold holds_socket in Ho. rewrite Esock in Ho.
      discriminate. }
  exists (mkService (_config this) (Some sock1) o'), eff1.
  assert (Hscan : unsubscribe (mkService (_config this) (Some sock1) o') fresh =
                  remove_at (mkService (_config this) (Some sock1) o') event
                    (previous this event ++ [mkSubscription fresh cb])
                    (List.length (previous this event))).
  { unfold unsubscribe.
    apply unsubscribe_from_found; cbn [_subscriptions]; auto.
    eapply own_in_keys. eassumption. }
  rewrite Hscan, (remove_at_calls _ sock1) by reflexivity.
  rewrite Hsp. cbn [_subscriptions _config].
  unfold previous in *.
  destruct (own (_subscriptions this) event) as [subs|] eqn:Hown.
  - assert (subs <> []) as Hne by (eapply Hp; eassumption).
    destruct subs as [|s subs]; [congruence|].
    rewrite Hundo. eexists. split; [exact Hsub'|].
    rewrite <- Hsock.
    + rewrite service_eta. reflexivity.
    + intros E. rewrite E in Hown. discriminate.
  - cbv zeta. rewrite Hundo.
    destruct (Nat.eqb (List.length (keys (_subscriptions this))) 0) eqn:Ek.
    + apply keys_nil_iff in Ek. eexists. split; [exact Hsub'|].
      assert (_socket this = None) as Hnone.
      { destruct (_socket this) eqn:Es; [|reflexivity]. exfalso.
        assert (holds_socket this = true) as H
          by (unfold holds_socket; rewrite Es; reflexivity).
        apply Hinv in H. contradiction. }
      rewrite <- Hnone, service_eta. reflexivity.
    + eexists. split; [exact Hsub'|].
      rewrite <- Hsock.
      * rewrite service_eta. reflexivity.
      * intros E. rewrite E in Ek. discriminate.
Qed.

(** X4. In any state reached with successful opens, a subscription to
    an event name that is not an inherited property name returns the
    fresh id, and unsubscribing that id at once returns normally and
    leaves the service exactly as it was before the subscription:
    same registry, same key order, same socket handle. *)
Theorem subscribe_then_unsubscribe_restores
    config (calls : list (Call Callback)) event cb :
  Forall opens_succeed calls ->
  inherited event = false ->
  let r := run uuid_v4 config calls in
  let r1 := step uuid_v4 r (CallSubscribe event cb OpenOk) in
  let r2 := step uuid_v4 r1 (CallUnsubscribe (uuid_v4 (draws r))) in
  returned r1 = returned r ++ [uuid_v4 (draws r)]
  /\ service r2 = service r.
Proof using uuid_v4_fresh.
  forget_router.
  intros Hok Hinh r r1 r2.
  destruct (fold_step_well_run calls (start config) Hok (well_run_start config))
    as [[Hinv _] [Hp _]].
  destruct (run_unique config calls) as [_ [Hiss _]].
  fold r in Hinv, Hp, Hiss.
  destruct (subscribe_unsubscribe (service r) (uuid_v4 (draws r)) event cb
              Hinv Hp) as [this1 [eff1 [eff2 [Hsub Hun]]]].
  - intros k subs s Hown Hs E.
    apply (not_issued_yet (draws r)). rewrite <- E. apply Hiss.
    eapply own_in_all_ids; eassumption.
  - unfold get. destruct (own (_subscriptions (service r)) event);
      [discriminate|]. rewrite Hinh. discriminate.
  - subst r2 r1. cbn [step]. rewrite Hsub. cbn. rewrite Hun. cbn. auto.
Qed.

(** ** Unsubscribing twice *)

Lemma remove_at_own (this : ZmqService Callback) k subs j :
  exists res this' eff,
    remove_at this k subs j = (res, this', eff)
    /\ _config this' = _config this
    /\ (forall k' l, own (_subscriptions this') k' = Some l ->
          (k' <> k /\ own (_subscriptions this) k' = Some l)
          \/ (k' = k /\ l = splice1 j subs))
    /\ (forall k', k' <> k ->
          own (_subscriptions this') k' = own (_subscriptions this) k')
    /\ (splice1 j subs <> [] ->
        own (_subscriptions this') k = Some (splice1 j subs)).
Proof.
  forget_collaborators.
  assert (Hset : forall k' l,
            own (set (_subscriptions this) k (splice1 j subs)) k' = Some l ->
            (k' <> k /\ own (_subscriptions this) k' = Some l)
            \/ (k' = k /\ l = splice1 j subs)).
  { intros k' l Hl. destruct (String.eqb_spec k' k) as [->|Hne].
    - rewrite own_set_same in Hl. injection Hl as <-. auto.
    - rewrite own_set_other in Hl by assumption. auto. }
  assert (Hdel : forall k' l,
            own (delete (set (_subscriptions this) k (splice1 j subs)) k) k'
              = Some l ->
            (k' <> k /\ own (_subscriptions this) k' = Some l)
            \/ (k' = k /\ l = splice1 j subs)).
  { intros k' l Hl. destruct (String.eqb_spec k' k) as [->|Hne].
    - rewrite own_delete_same in Hl. discriminate.
    - rewrite own_delete_other, own_set_other in Hl by assumption. auto. }
  assert (Hdel' : forall k', k' <> k ->
            own (delete (set (_subscriptions this) k (splice1 j subs)) k) k'
              = own (_subscriptions this) k').
  { intros k' Hne. rewrite own_delete_other, own_set_other by assumption.
    reflexivity. }
  unfold remove_at. cbn [_socket _subscriptions with_subscriptions].
  destruct (splice1 j subs) as [|x l'] eqn:Esp; cbn [List.length Nat.eqb].
  - destruct (_socket this) eqn:Esock.
    + destruct (Nat.eqb _ 0);
        [unfold disconnect; cbn; rewrite Esock|];
        eexists _, _, _; (split; [reflexivity|]); cbn;
        (split; [reflexivity|]); (split; [exact Hdel|]);
        (split; [exact Hdel'|]); congruence.
    + eexists _, _, _. split; [reflexivity|]. cbn.
      split; [reflexivity|]. split; [exact Hset|].
      split; [|congruence]. intros k' Hne. apply own_set_other. assumption.
  - eexists _, _, _. split; [reflexivity|]. cbn.
    split; [reflexivity|]. split; [exact Hset|].
    split; [|intros _; apply own_set_same].
    intros k' Hne. apply own_set_other. assumption.
Qed.

Lemma removed_id_is_gone (this : ZmqService Callback) k subs i j :
  NoDup (all_ids (_subscriptions this)) ->
  own (_subscriptions this) k = Some subs ->
  index_of i subs = Some j ->
  exists res this' eff,
    remove_at this k subs j = (res, this', eff)
    /\ ~ In i (all_ids (_subscriptions this')).
Proof.
  forget_collaborators.
  intros Hnd Hown Hidx.
  destruct (remove_at_registry this k subs j)
    as [res [this' [eff [E [_ [Hreg _]]]]]].
  exists res, this', eff. split; [exact E|].
  destruct (all_ids_after_remove _ _ _ _ _ Hown Hidx) as [A [B [E1 E2]]].
  rewrite E1 in Hnd. apply NoDup_remove_2 in Hnd.
  intros Hin. apply Hnd. rewrite <- E2.
  destruct Hreg as [Hr|Hr]; rewrite Hr in Hin.
  - assumption.
  - eapply all_ids_delete. eassumption.
Qed.

(** X5. Along any sequence of calls, whatever opens fail, [unsubscribe]
    is idempotent: after one call of [unsubscribe(id)], whether it
    returned or threw, a second call with the same id returns normally,
    calls nothing on the socket and changes nothing. *)
Theorem unsubscribe_twice config (calls : list (Call Callback)) i res this1 eff :
  unsubscribe (service (run uuid_v4 config calls)) i = (res, this1, eff) ->
  unsubscribe this1 i = (Returns tt, this1, []).
Proof using uuid_v4_fresh.
  forget_router.
  destruct (run_unique config calls) as [Hnd _].
  unfold unsubscribe at 1.
  destruct (unsubscribe_from_scan
              (keys (_subscriptions (service (run uuid_v4 config calls))))
              (service (run uuid_v4 config calls)) i (fun k H => H))
    as [E | [k [subs [j [Hown [Hidx E]]]]]]; rewrite E.
  - intros H. injection H as <- <- <-. exact E.
  - destruct (removed_id_is_gone _ k subs i j Hnd Hown Hidx)
      as [res' [this' [eff' [E' Hgone]]]].
    rewrite E'. intros H. injection H as <- <- <-.
    apply unsubscribe_from_absent; [auto|].
    intros k' subs' s Hown' Hs Hid. apply Hgone. rewrite <- Hid.
    eapply own_in_all_ids; eassumption.
Qed.

(** ** The first subscriber of an event *)

Lemma index_of_head (z : Subscription Callback) rest i j :
  id z <> i ->
  index_of i (z :: rest) = Some j ->
  exists j', splice1 j (z :: rest) = z :: splice1 j' rest.
Proof.
  forget_collaborators.
  intros Hne. cbn. destruct (String.eqb_spec (id z) i) as [E|_]; [contradiction|].
  destruct (index_of i rest) as [j'|]; [|discriminate].
  intros H. injection H as <-. exists j'. reflexivity.
Qed.

Lemma step_keeps_head (r : Run Callback) c event z rest :
  own (_subscriptions (service r)) event = Some (z :: rest) ->
  spares (id z) c ->
  exists rest',
    own (_subscriptions (service (step uuid_v4 r c))) event = Some (z :: rest')
    /\ _config (service (step uuid_v4 r c)) = _config (service r).
Proof.
  forget_router.
  intros Hown Hsp.
  assert (forall env ev cb,
            exists rest',
              own (_subscriptions (service
                (after_subscription r
                   (subscribe env (uuid_v4 (draws r)) (service r) ev cb))))
                event = Some (z :: rest')
              /\ _config (service
                   (after_subscription r
                      (subscribe env (uuid_v4 (draws r)) (service r) ev cb)))
                 = _config (service r)) as Hsub.
  { intros env ev cb.
    destruct (subscribe_registry env (uuid_v4 (draws r)) (service r) ev cb)
      as [res [this' [eff [-> [Hc Hcase]]]]].
    cbn. destruct Hcase as [[_ ->]|[-> _]]; [eauto|].
    destruct (String.eqb_spec event ev) as [<-|Hne].
    - rewrite own_after_add, Hown. cbn. eauto.
    - rewrite own_after_add_other by assumption. eauto. }
  destruct c as [ev cb env|ev cb env|i]; cbn [step].
  - apply Hsub.
  - rewrite subscribeEvent_subscribe. apply Hsub.
  - cbn in Hsp. unfold unsubscribe.
    destruct (unsubscribe_from_scan (keys (_subscriptions (service r)))
                (service r) i (fun k H => H))
      as [-> | [k [subs [j [Hk [Hidx ->]]]]]]; [cbn; eauto|].
    destruct (remove_at_own (service r) k subs j)
      as [res [this' [eff [-> [Hc [_ [Hother Hsame]]]]]]].
    cbn. destruct (String.eqb_spec event k) as [<-|Hne].
    + rewrite Hown in Hk. injection Hk as <-.
      destruct (index_of_head z rest i j) as [j' Ej]; [congruence|assumption|].
      exists (splice1 j' rest). split; [|assumption].
      rewrite Hsame; rewrite Ej; [reflexivity|discriminate].
    + rewrite Hother by assumption. eauto.
Qed.

Lemma fold_step_keeps_head (calls : list (Call Callback)) (r : Run Callback)
    event z rest :
  own (_subscriptions (service r)) event = Some (z :: rest) ->
  Forall (spares (id z)) calls ->
  exists rest',
    own (_subscriptions (service (fold_left (step uuid_v4) calls r))) event
      = Some (z :: rest')
    /\ _config (service (fold_left (step uuid_v4) calls r)) = _config (service r).
Proof.
  revert r rest. induction calls as [|c calls IH]; intros r rest Hown Hsp.
  - cbn. eauto.
  - inversion Hsp as [|c' calls' Hc Hrest]; subst. cbn.
    destruct (step_keeps_head r c event z rest Hown Hc) as [rest1 [H1 Hc1]].
    destruct (IH _ rest1 H1 Hrest) as [rest' [H' Hc']].
    exists rest'. split; [assumption|]. congruence.
Qed.

(** X6. From any state in which [z] heads the list of "tx", and along
    any calls that do not unsubscribe the id of [z], whatever their
    outcome: [z] stays at the head of the list, and every message that
    passes the filters is delivered to [z], however many subscribers
    joined or left meanwhile. *)
Theorem head_subscriber_keeps_the_feed
    (r : Run Callback) (calls : list (Call Callback)) z rest message t mt :
  own (_subscriptions (service r)) "tx" = Some (z :: rest) ->
  Forall (spares (id z)) calls ->
  index (split " "%char message) 0 = Some "tx" ->
  index (split " "%char message) 12 = Some t ->
  extractMessageType t = Some mt ->
  String.prefix (prefix (_config (service r))) t = true ->
  let this' := service (fold_left (step uuid_v4) calls r) in
  (exists rest', own (_subscriptions this') "tx" = Some (z :: rest'))
  /\ handleMessage extractMessageType getPayload this' message =
       (Returns tt, [dispatch getPayload this' message z mt]).
Proof.
  intros Hown Hsp Hev Htag Hmt Hpre this'.
  destruct (fold_step_keeps_head calls r "tx" z rest Hown Hsp)
    as [rest' [H' Hc]].
  fold this' in H', Hc. split; [eauto|].
  apply (handleMessage_sends this' message z rest' t mt); auto.
  rewrite Hc. assumption.
Qed.

(** ** Lists are in subscription order *)

Lemma increasing_snoc js n :
  increasing js -> Forall (fun j => j < n) js -> increasing (js ++ [n]).
Proof.
  forget_collaborators.
  induction js as [|j js IH]; cbn; intros Hinc Hlt; [auto|].
  destruct Hinc as [Hj Hinc]. inversion Hlt as [|j' js' Hjn Hrest]; subst.
  split; [|apply IH; assumption].
  apply Forall_app. split; [assumption|]. constructor; [assumption|constructor].
Qed.

Lemma increasing_remove js1 j js2 :
  increasing (js1 ++ j :: js2) -> increasing (js1 ++ js2).
Proof.
  forget_collaborators.
  induction js1 as [|x js1 IH]; cbn.
  - intros [_ H]. exact H.
  - intros [Hx H]. split; [|apply IH; assumption].
    apply Forall_app in Hx. destruct Hx as [H1 H2].
    inversion H2; subst. apply Forall_app. auto.
Qed.

Lemma in_order_weaken m n (subs : list (Subscription Callback)) :
  m <= n ->
  in_subscription_order uuid_v4 m subs -> in_subscription_order uuid_v4 n subs.
Proof.
  forget_router.
  intros Hmn [js [E [Hinc Hlt]]]. exists js. split; [assumption|].
  split; [assumption|]. eapply Forall_impl; [|exact Hlt].
  cbn. intros j Hj. lia.
Qed.

Lemma in_order_snoc n (subs : list (Subscription Callback)) cb :
  in_subscription_order uuid_v4 n subs ->
  in_subscription_order uuid_v4 (S n) (subs ++ [mkSubscription (uuid_v4 n) cb]).
Proof.
  forget_router.
  intros [js [E [Hinc Hlt]]]. exists (js ++ [n]). split; [|split].
  - rewrite !map_app, E. reflexivity.
  - apply increasing_snoc; assumption.
  - apply Forall_app. split.
    + eapply Forall_impl; [|exact Hlt]. cbn. intros j Hj. lia.
    + constructor; [lia|constructor].
Qed.

Lemma in_order_splice n (subs : list (Subscription Callback)) i j :
  index_of i subs = Some j ->
  in_subscription_order uuid_v4 n subs ->
  in_subscription_order uuid_v4 n (splice1 j subs).
Proof.
  forget_router.
  intros Hidx [js [E [Hinc Hlt]]].
  destruct (index_of_some _ _ _ Hidx) as [l1 [s [l2 [E1 [_ E3]]]]].
  rewrite E3. subst subs. rewrite map_app in E. cbn in E.
  symmetry in E. apply map_eq_app in E.
  destruct E as [js1 [js2' [-> [Ea Eb]]]].
  apply map_eq_cons in Eb. destruct Eb as [j0 [js2 [-> [_ Eb]]]].
  exists (js1 ++ js2). split; [|split].
  - rewrite !map_app. congruence.
  - eapply increasing_remove. eassumption.
  - apply Forall_app in Hlt. destruct Hlt as [H1 H2]. inversion H2; subst.
    apply Forall_app. auto.
Qed.

Lemma step_in_order (r : Run Callback) c :
  (forall k subs, own (_subscriptions (service r)) k = Some subs ->
                  in_subscription_order uuid_v4 (draws r) subs) ->
  forall k subs,
    own (_subscriptions (service (step uuid_v4 r c))) k = Some subs ->
    in_subscription_order uuid_v4 (draws (step uuid_v4 r c)) subs.
Proof.
  forget_router.
  intros Hr.
  assert (forall env ev cb k subs,
            own (_subscriptions (service
              (after_subscription r
                 (subscribe env (uuid_v4 (draws r)) (service r) ev cb)))) k
              = Some subs ->
            in_subscription_order uuid_v4 (S (draws r)) subs) as Hsub.
  { intros env ev cb k subs.
    destruct (subscribe_registry env (uuid_v4 (draws r)) (service r) ev cb)
      as [res [this' [eff [-> [_ Hcase]]]]].
    cbn. destruct Hcase as [[_ ->]|[-> _]].
    - intros H. apply (in_order_weaken (draws r)); [lia|]. eapply Hr. eassumption.
    - destruct (String.eqb_spec k ev) as [->|Hne].
      + rewrite own_after_add. intros H. injection H as <-.
        apply in_order_snoc.
        destruct (own (_subscriptions (service r)) ev) as [l|] eqn:Hl.
        * eapply Hr. eassumption.
        * exists []. cbn. auto.
      + rewrite own_after_add_other by assumption. intros H.
        apply (in_order_weaken (draws r)); [lia|]. eapply Hr. eassumption. }
  destruct c as [ev cb env|ev cb env|i]; cbn [step].
  - intros k subs H.
    assert (draws (after_subscription r
              (subscribe env (uuid_v4 (draws r)) (service r) ev cb))
            = S (draws r)) as ->.
    { destruct (subscribe env (uuid_v4 (draws r)) (service r) ev cb)
        as [[res this'] eff]. reflexivity. }
    eapply Hsub. eassumption.
  - rewrite subscribeEvent_subscribe. intros k subs H.
    assert (draws (after_subscription r
              (subscribe env (uuid_v4 (draws r)) (service r) ev cb))
            = S (draws r)) as ->.
    { destruct (subscribe env (uuid_v4 (draws r)) (service r) ev cb)
        as [[res this'] eff]. reflexivity. }
    eapply Hsub. eassumption.
  - unfold unsubscribe.
    destruct (unsubscribe_from_scan (keys (_subscriptions (service r)))
                (service r) i (fun k H => H))
      as [-> | [k0 [subs0 [j [Hk [Hidx ->]]]]]]; [cbn; exact Hr|].
    destruct (remove_at_own (service r) k0 subs0 j)
      as [res [this' [eff [-> [_ [Hown _]]]]]].
    cbn. intros k subs H. destruct (Hown k subs H) as [[_ H0]|[-> ->]].
    + eapply Hr. eassumption.
    + eapply in_order_splice; [eassumption|]. eapply Hr. eassumption.
Qed.

(** X7. Along any sequence of calls, whatever opens fail, every
    subscriber list of the registry is in subscription order: its ids
    are the values of [uuid()] draws already made, listed in strictly
    increasing order of draw.  With C6 this makes the subscriber that
    receives the messages the longest-standing one of "tx". *)
Theorem subscribers_in_subscription_order
    config (calls : list (Call Callback)) k subs :
  own (_subscriptions (service (run uuid_v4 config calls))) k = Some subs ->
  exists js,
    map id subs = map uuid_v4 js
    /\ increasing js
    /\ Forall (fun j => j < draws (run uuid_v4 config calls)) js.
Proof.
  forget_router.
  revert k subs. unfold run.
  assert (forall k subs,
            own (_subscriptions (service (@start Callback config))) k = Some subs ->
            in_subscription_order uuid_v4 (draws (@start Callback config)) subs)
    as H0 by (intros k subs H; discriminate).
  revert H0. generalize (@start Callback config).
  induction calls as [|c calls IH]; intros r Hr; cbn.
  - exact Hr.
  - apply IH. apply step_in_order. exact Hr.
Qed.

(** ** Opening the socket again after a failure *)

Lemma get_not_inherited {V : Type} (o : Obj V) k :
  inherited k = false -> get o k <> Inherited.
Proof.
  forget_collaborators.
  intros H. unfold get. rewrite H. destruct (own o k); discriminate.
Qed.

(** X8. What a failed open leaves decides whether the next subscription
    tries again.  When [zmq.socket] threw, no handle is kept and the
    next subscription opens the socket in full: it creates it, connects
    it, attaches the message handler and applies one filter per
    registry key, the key left by the failed call included.  When
    [socket.connect] threw, the handle is kept, so the next
    subscription, whatever the environment would answer, returns its id
    with at most one [socket.subscribe(event)] call: it never connects
    the socket and never attaches the message handler. *)
Theorem retry_after_failed_open
    (this : ZmqService Callback) err fresh cb fresh2 event2 cb2 event :
  _socket this = None ->
  inherited event = false ->
  inherited event2 = false ->
  (exists this1 this2 o2,
      subscribe (SocketThrows err) fresh this event cb =
        (Throws (unable_to_connect err), this1, [])
      /\ _socket this1 = None
      /\ subscribe OpenOk fresh2 this1 event2 cb2 =
           (Returns fresh2, this2,
            ZmqSocket "sub" :: SocketConnect (endpoint (_config this))
              :: SocketOn "message" :: map SocketSubscribe (keys o2))
      /\ _subscriptions this2 = o2
      /\ In event (keys o2) /\ In event2 (keys o2))
  /\ (forall env2,
        exists this1 this2 eff2,
          subscribe (ConnectThrows err) fresh this event cb =
            (Throws (unable_to_connect err), this1, [ZmqSocket "sub"])
          /\ _socket this1 = Some SubSocket
          /\ subscribe env2 fresh2 this1 event2 cb2 = (Returns fresh2, this2, eff2)
          /\ _socket this2 = Some SubSocket
          /\ (eff2 = [] \/ eff2 = [SocketSubscribe event2])).
Proof.
  forget_collaborators.
  intros Hsock Hinh Hinh2.
  pose proof (get_not_inherited (_subscriptions this) event Hinh) as Hget.
  set (o1 := registry_after_add (_subscriptions this) event
               (mkSubscription fresh cb)).
  assert (Hev : exists l, own o1 event = Some l)
    by (unfold o1; rewrite own_after_add; eauto).
  split.
  - eexists _, _, _.
    rewrite (subscribe_calls (SocketThrows err) fresh this event cb Hget).
    cbv zeta. rewrite Hsock. split; [reflexivity|]. split; [reflexivity|].
    rewrite subscribe_calls by (apply get_not_inherited; assumption).
    cbn. split; [reflexivity|]. split; [reflexivity|]. split.
    + destruct Hev as [l Hl]. fold o1.
      destruct (String.eqb_spec event event2) as [->|Hne].
      * eapply own_in_keys. apply own_after_add.
      * eapply own_in_keys. rewrite own_after_add_other by assumption.
        exact Hl.
    + eapply own_in_keys. apply own_after_add.
  - intros env2. eexists _, _, _.
    rewrite (subscribe_calls (ConnectThrows err) fresh this event cb Hget).
    cbv zeta. rewrite Hsock. split; [reflexivity|]. split; [reflexivity|].
    rewrite subscribe_calls by (apply get_not_inherited; assumption).
    cbn. split; [reflexivity|]. split; [reflexivity|].
    destruct (own _ event2); auto.
Qed.

(** ** Reserved event names *)

Lemma step_no_inherited_key (r : Run Callback) c :
  (forall k, inherited k = true -> own (_subscriptions (service r)) k = None) ->
  forall k, inherited k = true ->
            own (_subscriptions (service (step uuid_v4 r c))) k = None.
Proof.
  forget_router.
  intros Hr.
  assert (forall env ev cb k,
            inherited k = true ->
            own (_subscriptions (service
              (after_subscription r
                 (subscribe env (uuid_v4 (draws r)) (service r) ev cb)))) k
              = None) as Hsub.
  { intros env ev cb k Hk.
    destruct (inherited ev) eqn:Hev.
    - rewrite (subscribe_inherited _ _ _ _ _ (Hr ev Hev) Hev). cbn. auto.
    - destruct (subscribe_registry env (uuid_v4 (draws r)) (service r) ev cb)
        as [res [this' [eff [-> [_ Hcase]]]]].
      cbn. destruct Hcase as [[_ ->]|[-> _]]; [auto|].
      rewrite own_after_add_other by congruence. auto. }
  destruct c as [ev cb env|ev cb env|i]; cbn [step].
  - apply Hsub.
  - rewrite subscribeEvent_subscribe. apply Hsub.
  - unfold unsubscribe.
    destruct (unsubscribe_from_scan (keys (_subscriptions (service r)))
                (service r) i (fun k H => H))
      as [-> | [k0 [subs0 [j [Hk [Hidx ->]]]]]]; [cbn; exact Hr|].
    destruct (remove_at_own (service r) k0 subs0 j)
      as [res [this' [eff [-> [_ [Hown _]]]]]].
    cbn. intros k Hk'.
    destruct (own (_subscriptions this') k) as [l|] eqn:Hl; [|reflexivity].
    destruct (Hown k l Hl) as [[_ H0]|[-> _]].
    + rewrite (Hr k Hk') in H0. discriminate.
    + rewrite (Hr k0 Hk') in Hk. discriminate.
Qed.

(** X9. In every state a sequence of calls can reach, subscribing to an
    event named like a property that every object inherits
    ("constructor", "toString", "__proto__", ...) throws a [TypeError]
    at the [push], whatever the socket would do, and leaves the
    registry and the socket untouched: such a name is never a key of
    the registry. *)
Theorem inherited_names_cannot_be_subscribed
    config (calls : list (Call Callback)) env fresh event cb :
  inherited event = true ->
  own (_subscriptions (service (run uuid_v4 config calls))) event = None
  /\ subscribe env fresh (service (run uuid_v4 config calls)) event cb =
       (Throws TypeError, service (run uuid_v4 config calls), []).
Proof.
  forget_router.
  intros Hinh.
  assert (forall k, inherited k = true ->
            own (_subscriptions (service (run uuid_v4 config calls))) k = None)
    as Hnone.
  { unfold run.
    assert (forall k, inherited k = true ->
              own (_subscriptions (service (@start Callback config))) k = None)
      as H0 by reflexivity.
    revert H0. generalize (@start Callback config).
    induction calls as [|c calls IH]; intros r Hr; cbn; [exact Hr|].
    apply IH. apply step_no_inherited_key. exact Hr. }
  split; [auto|]. apply subscribe_inherited; auto.
Qed.

(** ** The fields a message is read through *)

(** X10. [handleMessage] reads a message through fields 0, 1, 2, 5, 8
    and 12 alone: two messages that agree on these six fields have the
    same outcome, whatever their other fields and however many fields
    follow the tag. *)
Theorem handleMessage_reads_six_fields (this : ZmqService Callback) m1 m2 :
  (forall i, In i [0; 1; 2; 5; 8; 12] ->
             index (split " "%char m1) i = index (split " "%char m2) i) ->
  handleMessage extractMessageType getPayload this m1 =
    handleMessage extractMessageType getPayload this m2.
Proof.
  intros H.
  assert (H0 := H 0). assert (H1 := H 1). assert (H2 := H 2).
  assert (H5 := H 5). assert (H8 := H 8). assert (H12 := H 12).
  unfold handleMessage, sendEvent, buildPayload.
  rewrite H0, H1, H2, H5, H8, H12 by (cbn; tauto).
  reflexivity.
Qed.

Lemma split_not_nil sep s : split sep s <> [].
Proof.
  forget_collaborators.
  destruct s as [|c s]; cbn; [discriminate|].
  destruct (Ascii.eqb c sep); [discriminate|].
  destruct (split sep s); discriminate.
Qed.

(** X11. Splitting loses nothing: joining the fields of a message with
    the separator gives the message back; no field contains the
    separator; and there is one field more than there are separators in
    the message, so a doubled space makes an empty field and shifts the
    fields after it. *)
Theorem split_round_trip sep s :
  String.concat (String sep EmptyString) (split sep s) = s
  /\ Forall (fun f => ~ In sep (list_ascii_of_string f)) (split sep s)
  /\ List.length (split sep s) =
       S (count_occ ascii_dec (list_ascii_of_string s) sep).
Proof.
  forget_collaborators.
  induction s as [|c s [IH1 [IH2 IH3]]].
  - cbn. split; [reflexivity|]. split; [|reflexivity].
    constructor; [intros []|constructor].
  - cbn [split list_ascii_of_string count_occ].
    pose proof (split_not_nil sep s) as Hne.
    destruct (Ascii.eqb_spec c sep) as [->|Hc].
    + split; [|split].
      * cbn [String.concat]. destruct (split sep s) as [|h t]; [congruence|].
        rewrite IH1. reflexivity.
      * constructor; [intros []|assumption].
      * destruct (ascii_dec sep sep); [|congruence]. cbn. rewrite IH3.
        reflexivity.
    + destruct (split sep s) as [|h t]; [congruence|].
      split; [|split].
      * cbn [String.concat] in *. destruct t; cbn; rewrite <- IH1; reflexivity.
      * inversion IH2; subst. constructor; [|assumption].
        cbn. intros [E|Hin]; [congruence|contradiction].
      * destruct (ascii_dec c sep); [congruence|]. exact IH3.
Qed.

(** ** The timestamp of a payload *)

Lemma to_number_positive negative n :
  (0 < n)%Z ->
  to_number negative (Some n) =
    match nearest_double n with
    | Some v => Int (if negative then - v else v)
    | None => Infinity negative
    end.
Proof.
  forget_collaborators.
  intros Hn. destruct n as [|p|p]; [lia|reflexivity|lia].
Qed.

Lemma to_number_large negative n :
  (2 ^ 53 <= n)%Z ->
  let e := (Z.log2 n - 52)%Z in
  ((n < 2 ^ 1024 - 2 ^ 970)%Z ->
   exists m,
     (2 ^ 52 <= m <= 2 ^ 53)%Z
     /\ to_number negative (Some n) =
          Int (if negative then - (m * 2 ^ e) else m * 2 ^ e)
     /\ (2 * Z.abs (m * 2 ^ e - n) <= 2 ^ e)%Z)
  /\ ((2 ^ 1024 - 2 ^ 970 <= n)%Z ->
      to_number negative (Some n) = Infinity negative).
Proof.
  forget_collaborators.
  intros Hn e.
  rewrite to_number_positive by lia.
  destruct (nearest_double_rounds n Hn) as (He & Hq & Hr & Hnqr & Hnd).
  fold e in He, Hq, Hr, Hnqr, Hnd.
  remember (n / 2 ^ e)%Z as q eqn:Eq.
  remember (n mod 2 ^ e)%Z as r eqn:Er.
  remember (2 ^ (e - 1))%Z as half eqn:Ehalf.
  assert (HP : (2 ^ e = 2 * half)%Z).
  { subst half. rewrite <- Z.pow_succ_r by lia. f_equal. lia. }
  assert (Hhalf : (0 < half)%Z) by (subst half; apply Z.pow_pos_nonneg; lia).
  remember (if (half <? r)%Z || ((r =? half)%Z && Z.odd q)
            then (q + 1)%Z else q) as q' eqn:Eq'.
  assert (Hq' : (q' = q /\ r <= half \/ q' = q + 1 /\ half <= r)%Z).
  { subst q'. destruct (Z.ltb_spec half r); cbn [orb]; [right; lia|].
    destruct (Z.eqb_spec r half); cbn [andb]; [|left; lia].
    destruct (Z.odd q); [right; lia|left; lia]. }
  assert (Herr : (2 * Z.abs (q' * 2 ^ e - n) <= 2 ^ e)%Z).
  { rewrite HP in *. destruct Hq' as [[-> ?]|[-> ?]]; lia. }
  split.
  - intros Hfinite. exists q'. split; [lia|].
    assert (Hlog : (Z.log2 n < 1024)%Z) by (apply Z.log2_lt_pow2; lia).
    assert (Hle : (half <= 2 ^ 970)%Z).
    { subst half. apply Z.pow_le_mono_r; lia. }
    rewrite Hnd.
    destruct (Z.ltb_spec (q' * 2 ^ e) (2 ^ 1024)) as [_|Hover];
      [split; [reflexivity|exact Herr]|].
    exfalso. rewrite HP in *. lia.
  - intros Hover.
    assert (Hlog : (1023 <= Z.log2 n)%Z) by (apply Z.log2_le_pow2; lia).
    rewrite Hnd.
    destruct (Z.ltb_spec (q' * 2 ^ e) (2 ^ 1024)) as [Hfinite|_];
      [exfalso|reflexivity].
    destruct (Z.eq_dec (Z.log2 n) 1023) as [E|NE].
    + assert (E971 : e = 971%Z) by (subst e; lia).
      assert (Eh : half = (2 ^ 970)%Z) by (subst half; rewrite E971; reflexivity).
      rewrite E971 in *.
      assert (Hqmax : q = (2 ^ 53 - 1)%Z) by lia.
      assert (Hrhalf : (half <= r)%Z) by lia.
      assert (Hup : q' = (q + 1)%Z).
      { subst q'. destruct (Z.ltb_spec half r); cbn [orb]; [reflexivity|].
        destruct (Z.eqb_spec r half); [|lia]. cbn [andb].
        rewrite Hqmax. reflexivity. }
      lia.
    + assert (Hbig : (2 ^ 1024 <= 2 ^ 52 * 2 ^ e)%Z).
      { rewrite <- Z.pow_add_r by lia. apply Z.pow_le_mono_r; subst e; lia. }
      assert (2 ^ 52 * 2 ^ e <= q' * 2 ^ e)%Z by (apply Z.mul_le_mono_nonneg_r; lia).
      lia.
Qed.

(** X12. The timestamp of a payload is decided by the numeral that
    field 5 starts with: after any white space, for an optional sign
    and at least one digit followed by anything that starts with no
    digit, the timestamp is never [NaN]; it is the integer [n] the
    digits denote, with the sign, when [n] is below 2^53 (the negative
    zero for "-0"); from 2^53 on it is a double [m * 2^e] of 53
    significant bits at most half a unit in the last place from [n];
    and from 2^1024 - 2^970 on it is an infinity. *)
Theorem buildPayload_timestamp_of_numeral
    (d : Payload) (mt : MessageType) messageParams cps sgn ds trailing :
  index messageParams 5 = Some (text_of cps ++ sgn ++ ds ++ trailing)%string ->
  Forall (fun cp => In cp white_space_code_points) cps ->
  In sgn [""; "+"; "-"] ->
  all_digits ds = true ->
  ds <> EmptyString ->
  no_digit_ahead trailing ->
  let n := decimal ds in
  let e := (Z.log2 n - 52)%Z in
  let ts := timestamp (buildPayload d mt messageParams) in
  ts <> NaN
  /\ ((n < 2 ^ 53)%Z -> (sgn = "-" -> n <> 0%Z) -> ts = Int (signed sgn n))
  /\ (sgn = "-" -> n = 0%Z -> ts = NegativeZero)
  /\ ((2 ^ 53 <= n < 2 ^ 1024 - 2 ^ 970)%Z ->
      exists m,
        (2 ^ 52 <= m <= 2 ^ 53)%Z
        /\ ts = Int (signed sgn (m * 2 ^ e))
        /\ (2 * Z.abs (m * 2 ^ e - n) <= 2 ^ e)%Z)
  /\ ((2 ^ 1024 - 2 ^ 970 <= n)%Z -> ts = Infinity (String.eqb sgn "-")).
Proof.
  forget_collaborators.
  intros Hfield Hws Hsgn Hall Hne Hrest n e ts.
  destruct (timestamp_of_numeral d mt messageParams cps sgn ds trailing
              Hfield Hws Hsgn Hall Hne Hrest) as [Hts Hexact].
  fold n ts in Hts, Hexact.
  assert (Hn : (0 <= n)%Z) by apply decimal_nonnegative.
  split; [|split; [exact Hexact|split; [|split]]].
  - rewrite Hts. unfold to_number.
    destruct n as [|p|p]; [destruct (String.eqb sgn "-"); discriminate| |lia].
    destruct (nearest_double (Z.pos p)); discriminate.
  - intros -> E. rewrite Hts, E. reflexivity.
  - intros [Hlo Hhi]. rewrite Hts. unfold signed.
    destruct (to_number_large (String.eqb sgn "-") n Hlo) as [H _].
    exact (H Hhi).
  - intros Hover. rewrite Hts.
    assert (Hlo : (2 ^ 53 <= n)%Z) by lia.
    destruct (to_number_large (String.eqb sgn "-") n Hlo) as [_ H].
    exact (H Hover).
Qed.

End Facts.

(** ** Properties of the submodel values *)

Section SimulationFacts.

Context {Value Time : Type}.
Variable Date_parse : Value -> Time.
Variable Boolean : Value -> bool.

Lemma store_element_own (o : Obj (Stored Value Time)) e k :
  own (store_element Date_parse Boolean o e) k =
    if String.eqb k (semanticId e)
    then Some (final_value Boolean e)
    else own o k.
Proof.
  unfold store_element, final_value.
  destruct (String.eqb_spec k (semanticId e)) as [->|Hne].
  - destruct (String.eqb (valueType e) "boolean"); apply own_set_same.
  - destruct (String.eqb (valueType e) "boolean"), (is_date_type (valueType e));
      rewrite ?own_set_other by assumption; reflexivity.
Qed.

Lemma fold_store_own l (o : Obj (Stored Value Time)) k w :
  own (fold_left (store_element Date_parse Boolean) l o) k = Some w ->
  (exists e, In e l /\ semanticId e = k /\ w = final_value Boolean e)
  \/ own o k = Some w.
Proof.
  revert o. induction l as [|e l IH]; intros o H; cbn in H; [auto|].
  destruct (IH _ H) as [[e' [Hin [Hk Hw]]]|H'].
  - left. exists e'. cbn. auto.
  - rewrite store_element_own in H'.
    destruct (String.eqb_spec k (semanticId e)) as [->|Hne].
    + injection H' as <-. left. exists e. cbn. auto.
    + auto.
Qed.

Lemma fold_store_other l (o : Obj (Stored Value Time)) k :
  (forall e, In e l -> semanticId e <> k) ->
  own (fold_left (store_element Date_parse Boolean) l o) k = own o k.
Proof.
  revert o. induction l as [|e l IH]; intros o H; cbn; [reflexivity|].
  rewrite IH by (intros e' He'; apply H; right; assumption).
  rewrite store_element_own.
  destruct (String.eqb_spec k (semanticId e)) as [->|Hne]; [|reflexivity].
  exfalso. apply (H e); [left|]; reflexivity.
Qed.

Lemma final_value_not_parsed (e : SubmodelElement Value) (t : Time) :
  final_value Boolean e <> Parsed t.
Proof.
  unfold final_value. destruct (String.eqb (valueType e) "boolean");
    discriminate.
Qed.

(** X13. For elements none of which is named "__proto__": every
    property of [submodelValues] comes from an element of that
    [semanticId] and holds [Boolean(value)] when the element's type is
    "boolean" and the raw [value] otherwise; in particular no property
    ever holds a parsed date, since the value [Date.parse] gives for
    the "date", "dateTime" and "dateTimeStamp" types is overwritten by
    the [else] branch of the second [if]; and when several elements
    share a [semanticId], the last one decides. *)
Theorem date_values_are_not_parsed (elements : list (SubmodelElement Value)) :
  Forall (fun e => semanticId e <> "__proto__") elements ->
  (forall k w,
      own (submodelValues Date_parse Boolean elements) k = Some w ->
      exists e, In e elements /\ semanticId e = k
                /\ w = final_value Boolean e)
  /\ (forall k t,
        own (submodelValues Date_parse Boolean elements) k <> Some (Parsed t))
  /\ (forall l1 e l2,
        elements = l1 ++ e :: l2 ->
        (forall e', In e' l2 -> semanticId e' <> semanticId e) ->
        own (submodelValues Date_parse Boolean elements) (semanticId e) =
          Some (final_value Boolean e)).
Proof.
  intros _. unfold submodelValues.
  assert (H1 : forall k w,
             own (fold_left (store_element Date_parse Boolean) elements []) k
               = Some w ->
             exists e, In e elements /\ semanticId e = k
                       /\ w = final_value Boolean e).
  { intros k w H. destruct (fold_store_own _ _ _ _ H) as [He|H']; [exact He|].
    discriminate. }
  split; [exact H1|]. split.
  - intros k t H. destruct (H1 k _ H) as [e [_ [_ Hw]]].
    symmetry in Hw. exact (final_value_not_parsed e t Hw).
  - intros l1 e l2 -> Hlast.
    rewrite fold_left_app. cbn.
    rewrite fold_store_other by assumption.
    rewrite store_element_own, String.eqb_refl. reflexivity.
Qed.

End SimulationFacts.

Lemma demo_uuid_length n : String.length (demo_uuid n) = S n.
Proof. induction n; cbn; congruence. Qed.

Lemma demo_uuid_fresh m n : demo_uuid m = demo_uuid n -> m = n.
Proof.
  intros E. apply (f_equal String.length) in E.
  rewrite !demo_uuid_length in E. congruence.
Qed.

(** ** The theorems at concrete inputs *)

Lemma connection_open_iff_registry_nonempty_witness :
  Forall opens_succeed demo_calls
  /\ (_socket (service (demo_run (firstn 3 demo_calls))) <> None
      <-> _subscriptions (service (demo_run (firstn 3 demo_calls))) <> [])
  /\ (forall m,
        (0 <= open_count (firstn m (trace (demo_run (firstn 3 demo_calls)))) <= 1)%Z).
Proof.
  assert (H : Forall opens_succeed demo_calls) by (repeat constructor).
  split; [exact H|].
  destruct (@connection_open_iff_registry_nonempty nat
              demo_uuid demo_config demo_calls 3 H) as [H1 [H2 _]].
  split; [exact H1|exact H2].
Defined.

Lemma handleMessage_delivers_tx_witness :
  List.length (split " "%char message_ok) = 13
  /\ exists payload,
       demo_handleMessage demo_service message_ok =
         (Returns tt, [CallbackCall 7 (Some "tx") payload])
       /\ timestamp payload = Int 1571234567
       /\ hash payload = Some "HASH9"
       /\ address payload = Some "ADDR9"
       /\ tag payload = Some "SEMARKETA9".
Proof.
  split; [reflexivity|].
  destruct (handleMessage_delivers_tx demo_extractMessageType demo_getPayload
              demo_service message_ok (mkSubscription "u" 7) [] "SEMARKETA9"
              "callForProposal" eq_refl eq_refl eq_refl eq_refl eq_refl eq_refl)
    as [payload [E [_ [Hnum [Hh [Ha [Ht _]]]]]]].
  exists payload. split; [exact E|]. split; [|repeat split; assumption].
  destruct (Hnum [] "" "1571234567" "" eq_refl (Forall_nil _)
              (or_introl eq_refl) eq_refl ltac:(discriminate) I)
    as [_ Hexact].
  apply Hexact; [reflexivity|discriminate].
Defined.

Lemma handleMessage_malformed_witness :
  List.length (split " "%char message_short) < 13
  /\ demo_handleMessage demo_service message_short = (Throws TypeError, [])
  /\ parseInt10 (nth 5 (split " "%char message_unparseable_timestamp) "") = NaN
  /\ exists payload,
       demo_handleMessage demo_service message_unparseable_timestamp =
         (Returns tt, [CallbackCall 7 (Some "tx") payload])
       /\ timestamp payload = NaN.
Proof.
  assert (Hlen : List.length (split " "%char message_short) < 13)
    by (vm_compute; lia).
  split; [exact Hlen|]. split; [|split; [reflexivity|]].
  - destruct (handleMessage_malformed demo_extractMessageType demo_getPayload
                demo_service message_short) as [H _].
    destruct (H Hlen) as [_ [Hthrow _]].
    apply Hthrow; [reflexivity|discriminate].
  - destruct (handleMessage_malformed demo_extractMessageType demo_getPayload
                demo_service message_unparseable_timestamp) as [_ H].
    exact (H (mkSubscription "u" 7) [] "SEMARKETA9" "callForProposal"
             eq_refl eq_refl eq_refl eq_refl eq_refl eq_refl eq_refl).
Defined.

Lemma subscribe_open_failure_keeps_entry_witness :
  exists this' eff,
    @subscribe nat (SocketThrows "Error: Too many open files")
      "u" (constructor demo_config) "tx" 7 =
      (Throws (Error ("Unable to connect to ZMQ." ++ newline
                      ++ "Error: Too many open files")%string), this', eff)
    /\ own (_subscriptions this') "tx" = Some [mkSubscription "u" 7].
Proof.
  destruct (@subscribe_open_failure_keeps_entry nat
              (SocketThrows "Error: Too many open files")
              "Error: Too many open files" "u" (constructor demo_config) "tx" 7
              eq_refl eq_refl ltac:(discriminate))
    as [this' [eff [msg [E [-> [_ [Hown _]]]]]]].
  exists this', eff. split; [exact E|exact Hown].
Defined.

Lemma unsubscribe_last_subscriber_of_event_witness :
  _socket demo_service = Some SubSocket
  /\ exists this',
       demo_unsubscribe demo_service "u" =
         (Returns tt, this', [SocketUnsubscribe "tx"; SocketClose])
       /\ _socket this' = None /\ _subscriptions this' = [].
Proof.
  split; [reflexivity|].
  destruct (@unsubscribe_last_subscriber_of_event nat
              demo_service SubSocket "u" "tx" 7 eq_refl eq_refl)
    as [this' [eff [E [_ [_ [_ [Hlast _]]]]]]].
  - intros k subs s Hk Hown. apply own_singleton in Hown.
    destruct Hown as [-> _]. exfalso. apply Hk. reflexivity.
  - destruct Hlast as [-> [Hs Hr]].
    + intros k [<-|[]]. reflexivity.
    + exists this'. split; [exact E|]. split; assumption.
Defined.

Lemma handleMessage_filters_witness :
  demo_handleMessage demo_service message_other_prefix = (Returns tt, [])
  /\ demo_handleMessage demo_service message_block = (Returns tt, [])
  /\ index (split " "%char message_ok) 0 = Some "tx".
Proof.
  split; [|split].
  - destruct (handleMessage_filters demo_extractMessageType demo_getPayload
                demo_service message_other_prefix) as [_ [H _]].
    exact (H "XXXXXXXXA9" eq_refl eq_refl eq_refl).
  - destruct (handleMessage_filters demo_extractMessageType demo_getPayload
                demo_service message_block) as [_ [_ H]].
    exact (H eq_refl).
  - destruct (handleMessage_filters demo_extractMessageType demo_getPayload
                demo_service message_ok) as [H _].
    apply H. vm_compute. discriminate.
Defined.

Lemma unsubscribe_unknown_id_is_noop_witness :
  demo_unsubscribe demo_service "never-issued" = (Returns tt, demo_service, []).
Proof.
  apply (@unsubscribe_unknown_id_is_noop nat).
  intros k subs s Hown Hs. apply own_singleton in Hown.
  destruct Hown as [_ ->]. destruct Hs as [<-|[]]. cbn. discriminate.
Defined.

Lemma subscriptions_are_independent_witness :
  (forall m n, demo_uuid m = demo_uuid n -> m = n)
  /\ NoDup (returned demo_three)
  /\ exists this',
       demo_unsubscribe
         (service (demo_run [CallSubscribe "tx" 1 OpenOk;
                             CallSubscribe "tx" 2 OpenOk])) "u" =
         (Returns tt, this', [])
       /\ own (_subscriptions this') "tx" = Some [mkSubscription "uu" 2]
       /\ demo_handleMessage this' message_ok =
            (Returns tt,
             [CallbackCall 2 (Some "tx") (demo_payload (Int 1571234567))]).
Proof.
  split; [exact demo_uuid_fresh|]. split.
  - exact (proj1 (subscriptions_are_independent demo_extractMessageType
                    demo_getPayload demo_uuid demo_uuid_fresh demo_config _)).
  - destruct (subscriptions_are_independent demo_extractMessageType
                demo_getPayload demo_uuid demo_uuid_fresh demo_config
                [CallSubscribe "tx" 1 OpenOk; CallSubscribe "tx" 2 OpenOk])
      as [_ [_ [_ H]]].
    destruct (H "tx" [mkSubscription "u" 1; mkSubscription "uu" 2]
                (mkSubscription "u" 1) (mkSubscription "uu" 2)
                eq_refl (or_introl eq_refl) (or_intror (or_introl eq_refl))
                ltac:(discriminate))
      as [_ [this' [l1 [l2 [Hun [Hsubs [Hown [_ [_ Hdel]]]]]]]]].
    vm_compute in Hun. injection Hun as <-.
    vm_compute in Hown. injection Hown as Hl.
    eexists. split; [reflexivity|]. split; [reflexivity|].
    exact (Hdel message_ok "SEMARKETA9" "callForProposal" [] eq_refl
             (eq_sym Hl) eq_refl eq_refl eq_refl eq_refl).
Defined.

Lemma handleMessage_reaches_tx_subscribers_only_witness :
  own (_subscriptions demo_block_only) "tx" = None
  /\ demo_handleMessage demo_block_only message_ok = (Returns tt, [])
  /\ demo_handleMessage demo_block_only message_block = (Returns tt, []).
Proof.
  split; [reflexivity|]. split.
  - destruct (handleMessage_reaches_tx_subscribers_only demo_extractMessageType
                demo_getPayload demo_block_only message_ok) as [_ [H _]].
    exact (H eq_refl).
  - destruct (handleMessage_reaches_tx_subscribers_only demo_extractMessageType
                demo_getPayload demo_block_only message_block) as [_ [H _]].
    exact (H eq_refl).
Defined.

(** With three subscribers of "tx", one message makes one call, to the
    first of them. *)
Example first_of_three_is_called :
  demo_handleMessage (service demo_three) message_ok =
    (Returns tt, [CallbackCall 0 (Some "tx") (demo_payload (Int 1571234567))]).
Proof. reflexivity. Qed.

(** ** The further properties at concrete inputs *)

Lemma socket_never_leaks_witness :
  _socket (service (demo_run demo_rough_calls)) <> None
  /\ _subscriptions (service (demo_run demo_rough_calls)) <> []
  /\ open_count (trace (demo_run demo_rough_calls)) = 1%Z.
Proof.
  assert (H : _socket (service (demo_run demo_rough_calls)) <> None)
    by (vm_compute; discriminate).
  split; [exact H|].
  destruct (@socket_never_leaks nat demo_uuid demo_config demo_rough_calls)
    as [H1 [_ H3]].
  split; [exact (H1 H)|exact H3].
Defined.

Lemma registry_well_formed_witness :
  Forall opens_succeed demo_busy_calls
  /\ NoDup (keys (_subscriptions (service (demo_run demo_busy_calls))))
  /\ forall k subs,
       own (_subscriptions (service (demo_run demo_busy_calls))) k = Some subs ->
       subs <> [].
Proof.
  assert (H : Forall opens_succeed demo_busy_calls) by (repeat constructor).
  split; [exact H|].
  destruct (@registry_well_formed nat demo_uuid demo_config demo_busy_calls)
    as [H1 H2].
  split; [exact H1|exact (H2 H)].
Defined.

Lemma filters_follow_registry_witness :
  Forall opens_succeed demo_busy_calls
  /\ filter_balance "tx" 0 (trace (demo_run demo_busy_calls)) = 1%Z
  /\ filter_balance "sn" 0 (trace (demo_run demo_busy_calls)) = 0%Z.
Proof.
  assert (H : Forall opens_succeed demo_busy_calls) by (repeat constructor).
  split; [exact H|]. split.
  - exact (@filters_follow_registry nat demo_uuid demo_config
             demo_busy_calls "tx" H).
  - exact (@filters_follow_registry nat demo_uuid demo_config
             demo_busy_calls "sn" H).
Defined.

Lemma subscribe_then_unsubscribe_restores_witness :
  Forall opens_succeed demo_busy_calls
  /\ inherited "sn" = false
  /\ returned (step demo_uuid (demo_run demo_busy_calls)
                 (CallSubscribe "sn" 9 OpenOk)) =
       returned (demo_run demo_busy_calls) ++ ["uuuuu"]
  /\ service (step demo_uuid
                (step demo_uuid (demo_run demo_busy_calls)
                   (CallSubscribe "sn" 9 OpenOk))
                (CallUnsubscribe "uuuuu")) =
       service (demo_run demo_busy_calls).
Proof.
  assert (H : Forall opens_succeed demo_busy_calls) by (repeat constructor).
  split; [exact H|]. split; [reflexivity|].
  exact (@subscribe_then_unsubscribe_restores nat demo_uuid demo_uuid_fresh
           demo_config demo_busy_calls "sn" 9 H eq_refl).
Defined.

Lemma unsubscribe_twice_witness :
  demo_unsubscribe demo_failed_open "u" =
    (Throws TypeError, mkService demo_config None [("tx", [])], [])
  /\ demo_unsubscribe (mkService demo_config None [("tx", [])]) "u" =
       (Returns tt, mkService demo_config None [("tx", [])], []).
Proof.
  assert (H : demo_unsubscribe demo_failed_open "u" =
                (Throws TypeError, mkService demo_config None [("tx", [])], []))
    by reflexivity.
  split; [exact H|].
  exact (@unsubscribe_twice nat demo_uuid demo_uuid_fresh demo_config
           [CallSubscribe "tx" 7 (SocketThrows "Error: Too many open files")]
           "u" (Throws TypeError) _ [] H).
Defined.

Lemma head_subscriber_keeps_the_feed_witness :
  Forall (spares "u") demo_later_calls
  /\ (exists rest',
         own (_subscriptions
                (service (fold_left (step demo_uuid) demo_later_calls demo_three)))
           "tx" = Some (mkSubscription "u" 0 :: rest'))
  /\ demo_handleMessage
       (service (fold_left (step demo_uuid) demo_later_calls demo_three))
       message_ok =
       (Returns tt,
        [CallbackCall 0 (Some "tx") (demo_payload (Int 1571234567))]).
Proof.
  assert (H : Forall (spares "u") demo_later_calls).
  { repeat (apply Forall_cons; [cbn; try exact I; discriminate|]).
    apply Forall_nil. }
  split; [exact H|].
  exact (head_subscriber_keeps_the_feed demo_extractMessageType demo_getPayload
           demo_uuid demo_three demo_later_calls (mkSubscription "u" 0)
           [mkSubscription "uu" 1; mkSubscription "uuu" 2] message_ok
           "SEMARKETA9" "callForProposal"
           eq_refl H eq_refl eq_refl eq_refl eq_refl).
Defined.

Lemma subscribers_in_subscription_order_witness :
  own (_subscriptions (service (demo_run demo_busy_calls))) "tx" =
    Some [mkSubscription "u" 1; mkSubscription "uuu" 3]
  /\ exists js,
       ["u"; "uuu"] = map demo_uuid js
       /\ increasing js
       /\ Forall (fun j => j < 4) js.
Proof.
  split; [reflexivity|].
  exact (@subscribers_in_subscription_order nat demo_uuid demo_config
           demo_busy_calls "tx"
           [mkSubscription "u" 1; mkSubscription "uuu" 3] eq_refl).
Defined.

Lemma retry_after_failed_open_witness :
  exists this1 this2 : DemoService,
    subscribe (SocketThrows "Error: Too many open files") "u"
        (constructor demo_config) "tx" 1 =
      (Throws (unable_to_connect "Error: Too many open files"), this1, [])
    /\ subscribe OpenOk "uu" this1 "sn" 2 =
         (Returns "uu", this2,
          [ZmqSocket "sub"; SocketConnect "tcp://zmq.devnet.iota.org:5556";
           SocketOn "message"; SocketSubscribe "tx"; SocketSubscribe "sn"]).
Proof.
  destruct (@retry_after_failed_open nat (constructor demo_config)
              "Error: Too many open files" "u" 1 "uu" "sn" 2 "tx"
              eq_refl eq_refl eq_refl)
    as [[this1 [this2 [o2 [H1 [_ [H2 _]]]]]] _].
  exists this1, this2. split; [exact H1|].
  injection H1 as <-. vm_compute in H2. injection H2 as <- _.
  reflexivity.
Defined.

Lemma inherited_names_cannot_be_subscribed_witness :
  inherited "constructor" = true
  /\ own (_subscriptions (service (demo_run demo_busy_calls))) "constructor" = None
  /\ subscribe OpenOk "uuuuu" (service (demo_run demo_busy_calls))
       "constructor" 3 =
       (Throws TypeError, service (demo_run demo_busy_calls), []).
Proof.
  split; [reflexivity|].
  exact (@inherited_names_cannot_be_subscribed nat demo_uuid demo_config
           demo_busy_calls OpenOk "uuuuu" "constructor" 3 eq_refl).
Defined.

Lemma handleMessage_reads_six_fields_witness :
  List.length (split " "%char message_other_fields) = 15
  /\ demo_handleMessage demo_service message_other_fields =
       demo_handleMessage demo_service message_ok.
Proof.
  split; [reflexivity|].
  assert (H : forall i, In i [0; 1; 2; 5; 8; 12] ->
                index (split " "%char message_other_fields) i =
                  index (split " "%char message_ok) i)
    by (intros i [<-|[<-|[<-|[<-|[<-|[<-|[]]]]]]]; vm_compute; reflexivity).
  exact (handleMessage_reads_six_fields demo_extractMessageType demo_getPayload
           demo_service message_other_fields message_ok H).
Defined.

Lemma buildPayload_timestamp_of_numeral_witness :
  index demo_padded_params 5 = Some (utf8 160 ++ "+1571234567ms")%string
  /\ timestamp (buildPayload "payload:BUNDLE9" "callForProposal"
                  demo_padded_params) = Int 1571234567.
Proof.
  split; [reflexivity|].
  assert (Hws : Forall (fun cp => In cp white_space_code_points) [160%N]).
  { constructor; [|constructor]. do 6 right. left. reflexivity. }
  destruct (buildPayload_timestamp_of_numeral "payload:BUNDLE9"
              "callForProposal" demo_padded_params [160%N] "+" "1571234567"
              "ms" eq_refl Hws
              (or_intror (or_introl eq_refl)) eq_refl ltac:(discriminate)
              eq_refl)
    as [_ [Hexact _]].
  apply Hexact; [reflexivity|discriminate].
Defined.

(** The parse at the edges: a no-break space before the digits, an
    integer above 2^53 that lies between two doubles, a tie that goes
    to the even significand, the negative zero, and a run of digits
    beyond the largest double. *)
Example parseInt_at_the_edges :
  parseInt (Some (utf8 160 ++ "42")%string) = Int 42
  /\ parseInt (Some "9007199254740993") = Int 9007199254740992
  /\ parseInt (Some "9007199254740995") = Int 9007199254740996
  /\ parseInt (Some "-0") = NegativeZero
  /\ parseInt (Some (String "1" demo_zeros)) = Infinity false
  /\ parseInt None = NaN.
Proof. repeat split; vm_compute; reflexivity. Qed.

Lemma returned_id_has_socket_witness :
  In "uuu" (returned (demo_run demo_rough_calls))
  /\ In "uuu" (all_ids (_subscriptions (service (demo_run demo_rough_calls))))
  /\ _socket (service (demo_run demo_rough_calls)) <> None.
Proof.
  assert (H1 : In "uuu" (returned (demo_run demo_rough_calls)))
    by (left; reflexivity).
  assert (H2 : In "uuu" (all_ids (_subscriptions
                                    (service (demo_run demo_rough_calls)))))
    by (vm_compute; auto).
  split; [exact H1|]. split; [exact H2|].
  exact (@returned_id_has_socket nat demo_uuid demo_uuid_fresh demo_config
           demo_rough_calls "uuu" H1 H2).
Defined.

Lemma date_values_are_not_parsed_witness :
  Forall (fun e : SubmodelElement string => semanticId e <> "__proto__")
    demo_elements
  /\ own demo_submodelValues "0173-1#02-AAO738#001" = Some (Raw "2019-10-16")
  /\ own demo_submodelValues "0173-1#02-AAO739#001" = Some (Raw "15").
Proof.
  assert (H : Forall (fun e : SubmodelElement string =>
                        semanticId e <> "__proto__") demo_elements)
    by (repeat (apply Forall_cons; [discriminate|]); apply Forall_nil).
  split; [exact H|].
  destruct (date_values_are_not_parsed demo_Date_parse demo_Boolean
              demo_elements H) as [_ [_ H3]].
  split.
  - apply (H3 [] (mkElement "0173-1#02-AAO738#001" "2019-10-16" "date") _ eq_refl).
    intros e' [<-|[<-|[<-|[]]]]; discriminate.
  - apply (H3 [mkElement "0173-1#02-AAO738#001" "2019-10-16" "date";
               mkElement "0173-1#02-AAO739#001" "12" "decimal";
               mkElement "0173-1#02-AAO740#001" "" "boolean"]
              (mkElement "0173-1#02-AAO739#001" "15" "decimal") [] eq_refl).
    intros e' [].
Defined.

(** ** Where the specification and the code part *)

(** C3 as stated fails on both kinds of malformed message.  A 13-field
    message whose field 5 is not a number is not rejected: the
    subscriber is called with timestamp [NaN].  A message of three
    fields whose field 0 is not "tx" raises no error: the handler
    returns normally, having called and reported nothing. *)
Lemma malformed_messages_are_not_reported :
  (List.length (split " "%char message_unparseable_timestamp) = 13
   /\ parseInt (index (split " "%char message_unparseable_timestamp) 5) = NaN
   /\ demo_handleMessage demo_service message_unparseable_timestamp =
        (Returns tt, [CallbackCall 7 (Some "tx") (demo_payload NaN)]))
  /\ (List.length (split " "%char message_short_block) = 3
      /\ demo_handleMessage demo_service message_short_block =
           (Returns tt, [])).
Proof. repeat split. Qed.


(** C9 as stated fails when an earlier subscriber of "tx" exists: of the
    second and third subscriptions, numbered 1 and 2, the second is
    unsubscribed; the third stays registered, yet the message goes to
    subscriber 0 and not to it. *)
Lemma remaining_subscriber_is_not_served :
  returned demo_three = ["u"; "uu"; "uuu"]
  /\ exists this',
       demo_unsubscribe (service demo_three) "uu" = (Returns tt, this', [])
       /\ own (_subscriptions this') "tx" =
            Some [mkSubscription "u" 0; mkSubscription "uuu" 2]
       /\ demo_handleMessage this' message_ok =
            (Returns tt,
             [CallbackCall 0 (Some "tx") (demo_payload (Int 1571234567))])
       /\ forall payload,
            ~ In (CallbackCall 2 (Some "tx") payload)
                 (snd (demo_handleMessage this' message_ok)).
Proof.
  split; [reflexivity|]. eexists. split; [reflexivity|].
  split; [reflexivity|]. split; [reflexivity|].
  intros payload [H|[]]. discriminate.
Qed.
